(** * Market-Lens report generation: the section-orchestration engine

    A shallow embedding of the orchestration code of the report generator:
    the shared [DataManager] singleton ([utils/data_manager.py]), the retry
    loops of the ROI and KPI agents ([agents/roi.py], [agents/kpi.py]), the
    compiler agent ([agents/compiler.py]), the sequential generator
    ([agents/generator.py]) and the LangGraph supervisor
    ([agents/report_generator.py]); then the code around them: the guard of
    the budget agent ([agents/budget.py]), the questions of the report
    ([utils/report.py]), the batch runs of the KPI and ROI agents, and the
    drivers that write the report ([main.py],
    [agents/report_generation.py]).

    Python objects live in an explicit program state; everything outside the
    repository (LLM back ends, agent executors, pandas, the loading of data)
    is an oracle that is asked once per external call and may answer with a
    value or with an exception.  The graph engine of the supervisor is
    modelled by its steps: the nodes of a step are each handed the state,
    what they return are their writes, and a key that two nodes of a step
    write is refused.  The drivers work on a desk beside the program
    state: the report files they write and the pauses they take. *)

From stdpp Require Import base strings list gmap fin_maps.
From Stdlib Require Import Lia Ascii DecimalString.

Open Scope string_scope.
Open Scope list_scope.
Open Scope nat_scope.

(** ** Python values *)

(** The values that travel between agents, scheduler and compiler: [None],
    strings, lists and dictionaries (insertion ordered, as in Python). *)
#[warnings="-register-all"]
Inductive value : Type :=
| VNone
| VStr (s : string)
| VList (items : list value)
| VDict (kvs : list (string * value)).

(** Python truthiness, as used by [x if x else "No results available"]. *)
Definition truthy (v : value) : bool :=
  match v with
  | VNone => false
  | VStr s => negb (String.eqb s "")
  | VList items => match items with [] => false | _ => true end
  | VDict kvs => match kvs with [] => false | _ => true end
  end.

(** A non-empty piece of text. *)
Definition nonempty_text (v : value) : Prop :=
  ∃ s, v = VStr s ∧ s ≠ "".

(** A dictionary with string keys keeps the order in which keys were first
    inserted; assigning to an existing key replaces the value in place. *)
Definition dict (V : Type) := list (string * V).

Fixpoint dict_get {V} (k : string) (d : dict V) : option V :=
  match d with
  | [] => None
  | (k', v) :: d' => if String.eqb k k' then Some v else dict_get k d'
  end.

Fixpoint dict_set {V} (k : string) (v : V) (d : dict V) : dict V :=
  match d with
  | [] => [(k, v)]
  | (k', v') :: d' =>
      if String.eqb k k' then (k, v) :: d' else (k', v') :: dict_set k v d'
  end.

Definition dict_keys {V} (d : dict V) : list string := d.*1.

(** [d.get(k, default)] *)
Definition dict_get_default {V} (k : string) (default : V) (d : dict V) : V :=
  match dict_get k d with Some v => v | None => default end.

(** [list(d.keys()).index(k)]; the key is always present where the source
    calls it, the length of the list stands for the [ValueError]. *)
Fixpoint index_of (k : string) (ks : list string) : nat :=
  match ks with
  | [] => 0
  | k' :: ks' => if String.eqb k k' then 0 else S (index_of k ks')
  end.

(** [str(n)] for the attempt counters of the error messages. *)
Definition str_of_nat (n : nat) : string :=
  NilZero.string_of_uint (Nat.to_uint n).

(** ** The outside world *)

(** Placement of a [time.sleep] in the source. *)
Inductive site : Type :=
| BetweenAgents      (* generator.py: time.sleep(1) after an agent *)
| BetweenSections    (* generator.py: time.sleep(delay) between sections *)
| RetryBackoff.      (* roi.py, kpi.py: time.sleep(wait_time) before a retry *)

(** External calls.  Each one is answered by the oracle. *)
Inductive ext_call : Type :=
| CallConstruct (role : string)
    (* get_exploration_agent, get_sql_agent, ..., CompilerAgent(llm);
       ChatGoogleGenerativeAI(...) of SequentialGenerator.__init__ *)
| CallCreateExecutor (inst : nat)
    (* ROIAgent._create_agent *)
| CallExecutor (role : string) (inst : nat) (query : string)
    (* self.agent_executor.invoke({"input": query})["output"] *)
| CallAgent (role : string) (inst : nat) (query : string)
    (* entry point of a worker without a retry loop of its own *)
| CallLLM (section question : value) (results : list value)
    (* self.llm.invoke(prompt.format(...)).content *)
| CallListCsv (path : option string)
    (* os.path.isdir(path) and, for a directory, glob.glob(os.path.join(path, "*.csv")) *)
| CallReadCsv (file_path : string)
    (* pd.read_csv(file_path) on a file of the directory *)
| CallReadMaster (path : option string).
    (* pd.read_csv(path) on a single file, with the conversions of its columns *)

(** Outcome of a call: a value or an exception with its [str(e)]. *)
Inductive res (A : Type) : Type :=
| Ok (a : A)
| Exn (msg : string).
Arguments Ok {A} a.
Arguments Exn {A} msg.

(** What the program can observe of its environment. *)
Record Env : Type := mkEnv {
  world : nat → ext_call → res value;   (* answer to the n-th external call *)
  schema_of : value → string;           (* DataManager.get_schema_info on the loaded frames *)
  project_root : string;                (* dirname(dirname(abspath(__file__))) *)
  invalid_update : string → string      (* str(e) of LangGraph's InvalidUpdateError at a key *)
}.

(** Observable actions, in program order. *)
Inductive event : Type :=
| EvLoad (path : option string)
| EvConstruct (role : string)
| EvInvoke (role : string) (inst : nat)
| EvStore (role : string)
| EvSleep (where_ : site) (secs : nat)
| EvCompile (state : dict value)
| EvSection (section : string).

(** ** Program state *)

(** [utils/data_manager.py], the fields of a [DataManager] object. *)
Record DataManager : Type := mkDataManager {
  dm_id : nat;
  data_path : option string;
  dataframes : value;
  _initialized : bool
}.

Record State : Type := mkState {
  tick : nat;                          (* external calls made so far *)
  next_id : nat;                       (* next fresh object identity *)
  _instance : option DataManager;      (* DataManager._instance *)
  _agents : gmap string nat;           (* SequentialGenerator._agents *)
  executors : gset nat                 (* ROIAgent objects whose agent_executor is set *)
}.

Definition initial_state : State :=
  mkState 0 0 None ∅ ∅.

Definition set_tick (n : nat) (σ : State) : State :=
  mkState n (next_id σ) (_instance σ) (_agents σ) (executors σ).
Definition set_next_id (n : nat) (σ : State) : State :=
  mkState (tick σ) n (_instance σ) (_agents σ) (executors σ).
Definition set_instance (i : option DataManager) (σ : State) : State :=
  mkState (tick σ) (next_id σ) i (_agents σ) (executors σ).
Definition set_agents (a : gmap string nat) (σ : State) : State :=
  mkState (tick σ) (next_id σ) (_instance σ) a (executors σ).
Definition set_executors (e : gset nat) (σ : State) : State :=
  mkState (tick σ) (next_id σ) (_instance σ) (_agents σ) e.

(** ** A monad for state, exceptions and the log of events *)

(** Running a computation gives what it returned or raised, the state it
    left and the events it emitted, in order. *)
Record outcome (A : Type) : Type := mkOutcome {
  returned : res A;
  final : State;
  emitted : list event
}.
Arguments mkOutcome {A} _ _ _.
Arguments returned {A} _.
Arguments final {A} _.
Arguments emitted {A} _.

Definition M (A : Type) : Type := State → outcome A.

Definition ret {A} (a : A) : M A := λ σ, mkOutcome (Ok a) σ [].
Definition raise {A} (msg : string) : M A := λ σ, mkOutcome (Exn msg) σ [].
(** The events [evs] happened before those of [o]. *)
Definition prepend {A} (evs : list event) (o : outcome A) : outcome A :=
  match o with
  | mkOutcome r σ evs' => mkOutcome r σ (evs ++ evs')
  end.

Definition bind {A B} (m : M A) (k : A → M B) : M B :=
  λ σ, match m σ with
       | mkOutcome (Ok a) σ' evs => prepend evs (k a σ')
       | mkOutcome (Exn e) σ' evs => mkOutcome (Exn e) σ' evs
       end.

(** [try: m except Exception as e: handler(str(e))]; what [m] did to the
    state before it raised stays done. *)
Definition try_catch {A} (m : M A) (handler : string → M A) : M A :=
  λ σ, match m σ with
       | mkOutcome (Ok a) σ' evs => mkOutcome (Ok a) σ' evs
       | mkOutcome (Exn e) σ' evs => prepend evs (handler e σ')
       end.

Declare Scope py_scope.
Delimit Scope py_scope with py.
Notation "'let*' x ':=' m 'in' k" := (bind m (λ x, k))
  (at level 10, x name, m at level 100, k at level 200) : py_scope.
Notation "m ;;; k" := (bind m (λ _, k))
  (at level 100, right associativity) : py_scope.
Open Scope py_scope.

Definition gets {A} (f : State → A) : M A := λ σ, mkOutcome (Ok (f σ)) σ [].
Definition modify (f : State → State) : M unit := λ σ, mkOutcome (Ok tt) (f σ) [].

Definition log (ev : event) : M unit := λ σ, mkOutcome (Ok tt) σ [ev].

Definition sleep (where_ : site) (secs : nat) : M unit :=
  log (EvSleep where_ secs).

(** Allocation of a fresh object identity. *)
Definition fresh : M nat :=
  λ σ, mkOutcome (Ok (next_id σ)) (set_next_id (S (next_id σ)) σ) [].

(** ** Model of the source *)

Section Program.
Context (env : Env).

(** One external call: the oracle answers, the call counter advances. *)
Definition ext (c : ext_call) : M value :=
  λ σ, mkOutcome (world env (tick σ) c) (set_tick (S (tick σ)) σ) [].

(** *** utils/data_manager.py *)

(** [DataManager.__new__]: the class attribute [_instance] is filled on the
    first call only.  The new object has no attributes but [_initialized]. *)
Definition DataManager_new : M nat :=
  let* inst := gets _instance in
  match inst with
  | Some dm => ret (dm_id dm)
  | None =>
      let* id := fresh in
      modify (set_instance (Some (mkDataManager id None (VDict []) false)));;;
      ret id
  end.

Definition update_instance (f : DataManager → DataManager) : M unit :=
  modify (λ σ, set_instance (f <$> _instance σ) σ).

(** [os.path.basename] on a POSIX path: what follows the last slash. *)
Fixpoint basename_from (name s : string) : string :=
  match s with
  | EmptyString => name
  | String c s' =>
      if Ascii.eqb c "/"%char then basename_from EmptyString s'
      else basename_from (name +:+ String c EmptyString) s'
  end.

Definition basename (s : string) : string := basename_from EmptyString s.

(** [s.replace(".csv", "")] *)
Fixpoint remove_csv (s : string) : string :=
  match s with
  | EmptyString => EmptyString
  | String "."%char (String "c"%char (String "s"%char (String "v"%char s'))) =>
      remove_csv s'
  | String c s' => String c (remove_csv s')
  end.

Definition table_name (file_path : string) : string :=
  remove_csv (basename file_path).

(** [self.dataframes[table_name] = df] *)
Definition store_table (name : string) (df : value) : M unit :=
  let* inst := gets _instance in
  match dataframes <$> inst with
  | Some (VDict tables) =>
      update_instance
        (λ d, mkDataManager (dm_id d) (data_path d)
                (VDict (dict_set name df tables)) (_initialized d))
  | _ => raise "object does not support item assignment"
  end.

(** The loop over the CSV files of a directory: each table is stored as
    soon as it is read. *)
Fixpoint load_tables (csv_files : list value) : M unit :=
  match csv_files with
  | [] => ret tt
  | VStr file_path :: rest =>
      let* df := ext (CallReadCsv file_path) in
      store_table (table_name file_path) df;;;
      load_tables rest
  | _ :: _ => raise "expected str, bytes or os.PathLike object"
  end.

(** [DataManager._load_data]: every exception is caught and logged inside
    the method, and the handler leaves [self.dataframes] as it is, so the
    tables stored before the exception stay.  The oracle answers the test
    for a directory with the list of its CSV files, and with any other
    value for a path that is no directory. *)
Definition _load_data : M unit :=
  let* inst := gets _instance in
  match inst with
  | None => ret tt
  | Some dm =>
      log (EvLoad (data_path dm));;;
      try_catch
        (let* csv_files := ext (CallListCsv (data_path dm)) in
         match csv_files with
         | VList csv_files => load_tables csv_files
         | _ =>
             let* df := ext (CallReadMaster (data_path dm)) in
             store_table "master" df
         end)
        (λ _, ret tt)
  end.

(** [DataManager.__init__], run on the object that [__new__] returned. *)
Definition DataManager_init (path : option string) : M unit :=
  let* inst := gets _instance in
  match inst with
  | None => ret tt
  | Some dm =>
      if _initialized dm then ret tt
      else
        update_instance (λ d, mkDataManager (dm_id d) path (VDict []) (_initialized d));;;
        _load_data;;;
        update_instance (λ d, mkDataManager (dm_id d) (data_path d) (dataframes d) true)
  end.

(** The call [DataManager(data_path)]. *)
Definition DataManager_call (path : option string) : M nat :=
  let* id := DataManager_new in
  DataManager_init path;;;
  ret id.

Definition default_data_path : string := project_root env +:+ "/data".

Definition get_data_manager (path : option string) : M nat :=
  let path := match path with None => default_data_path | Some p => p end in
  DataManager_call (Some path).

(** [self.data_manager.get_schema_info()] *)
Definition get_schema_info : M string :=
  let* inst := gets _instance in
  match inst with
  | Some dm => ret (schema_of env (dataframes dm))
  | None => raise "'NoneType' object has no attribute 'get_schema_info'"
  end.

(** *** Workers *)

(** Construction of a worker by its factory ([get_exploration_agent],
    [get_sql_agent], [get_roi_agent], [get_budget_agent], [get_kpi_agent],
    [get_market_analysis_tool]): loads data, opens the database or builds
    clients, and may raise. *)
Definition construct (role : string) : M nat :=
  log (EvConstruct role);;;
  let* _ := ext (CallConstruct role) in
  fresh.

(** [CompilerAgent(llm)] with an [llm] given: the constructor only stores
    it. *)
Definition CompilerAgent_init : M nat :=
  log (EvConstruct "compiler_agent");;;
  fresh.

(** A worker entry point without a retry loop of its own. *)
Definition call_agent (role : string) (inst : nat) (query : string) : M value :=
  log (EvInvoke role inst);;;
  ext (CallAgent role inst query).

(** The retry loop shared by [ROIAgent.invoke] (roi.py) and [KPIAgent.invoke]
    (kpi.py); the two differ in [max_attempts], in the factor of [wait_time]
    and in the name within the message.
<<
    while attempt < max_attempts:
        try:
            result = self.agent_executor.invoke({"input": query})
            return result["output"]
        except Exception as e:
            attempt += 1
            if attempt < max_attempts:
                wait_time = base_delay * attempt
                time.sleep(wait_time)
            else:
                return f"Error in ... analysis after {max_attempts} attempts: {str(e)}"
>>
    [fuel] bounds the iterations; [max_attempts] of it are enough.  A loop
    that ends by its condition falls off the function, which returns [None]. *)
Definition retry_error (name : string) (max_attempts : nat) (e : string) : string :=
  "Error in " +:+ name +:+ " analysis after " +:+ str_of_nat max_attempts +:+ " attempts: " +:+ e.

Fixpoint retry_loop (name role : string) (max_attempts base_delay : nat)
    (inst : nat) (query : string) (fuel attempt : nat) : M value :=
  match fuel with
  | 0 => ret VNone
  | S fuel' =>
      if (attempt <? max_attempts)%nat then
        try_catch
          (log (EvInvoke role inst);;;
           ext (CallExecutor role inst query))
          (λ e,
             let attempt := S attempt in
             if (attempt <? max_attempts)%nat then
               sleep RetryBackoff (base_delay * attempt);;;
               retry_loop name role max_attempts base_delay inst query fuel' attempt
             else
               ret (VStr (retry_error name max_attempts e)))
      else ret VNone
  end.

Definition call_with_retry (name role : string) (max_attempts base_delay : nat)
    (inst : nat) (query : string) : M value :=
  retry_loop name role max_attempts base_delay inst query max_attempts 0.

(** [ROIAgent.invoke]: the executor is created on first use. *)
Definition ROIAgent_invoke (inst : nat) (query : string) : M value :=
  let* has := gets (λ σ, bool_decide (inst ∈ executors σ)) in
  (if has : bool then ret tt
   else
     let* _ := ext (CallCreateExecutor inst) in
     modify (λ σ, set_executors ({[inst]} ∪ executors σ) σ));;;
  call_with_retry "ROI" "roi_agent" 2 5 inst query.

(** [KPIAgent.invoke]: the executor exists since [__init__]. *)
Definition KPIAgent_invoke (inst : nat) (query : string) : M value :=
  call_with_retry "KPI" "kpi_agent" 3 20 inst query.

(** *** agents/compiler.py *)

Definition no_results : value := VStr "No results available".

(** [x if x else "No results available"] *)
Definition processed (v : value) : value :=
  if truthy v then v else no_results.

(** The merge call of [CompilerAgent.compile]: the fields read from the
    state, the empty ones replaced, and the prompt sent to the LLM. *)
Definition merge_call (state : dict value) : ext_call :=
  let current_section := dict_get_default "current_section" (VStr "") state in
  let current_question := dict_get_default "current_question" (VStr "") state in
  let exploration_results := dict_get_default "exploration_results" (VDict []) state in
  let sql_results := dict_get_default "sql_results" (VDict []) state in
  let roi_results := dict_get_default "roi_results" (VDict []) state in
  let budget_results := dict_get_default "budget_results" (VDict []) state in
  let kpi_results := dict_get_default "kpi_results" (VDict []) state in
  let market_results := dict_get_default "market_results" (VDict []) state in
  CallLLM current_section current_question
    [processed exploration_results; processed sql_results;
     processed roi_results; processed budget_results;
     processed kpi_results; processed market_results].

(** [CompilerAgent.compile] on a dictionary: the whole body is inside
    [try], the handler returns the error message as the text. *)
Definition compile (state : dict value) : M value :=
  log (EvCompile state);;;
  try_catch
    (ext (merge_call state))
    (λ e, ret (VStr ("Error compiling report section: " +:+ e))).

(** [CompilerAgent.compile] on a string: the attribute access of the
    [else] branch fails and the handler answers. *)
Definition compile_str (question : string) : M value :=
  try_catch
    (raise "'str' object has no attribute 'current_section'")
    (λ e, ret (VStr ("Error compiling report section: " +:+ e))).

(** *** agents/generator.py: SequentialGenerator *)

(** [SequentialGenerator.__init__] with an [llm] given: the shared data
    manager and the empty table of lazily built agents. *)
Definition SequentialGenerator_init (path : option string) : M unit :=
  let* _ := get_data_manager path in
  modify (set_agents ∅).

(** [self.section_agent_mapping]; the table of [SupervisorAgent] in
    report_generator.py is the same, entry by entry. *)
Definition section_agent_table : list (string * list string) :=
  [ ("executive_summary", ["exploration_agent"]);
    ("business_context", ["exploration_agent"; "market_agent"; "sql_agent"]);
    ("marketing_performance", ["exploration_agent"; "sql_agent"]);
    ("performance_drivers", ["kpi_agent"; "sql_agent"]);
    ("marketing_roi", ["roi_agent"; "sql_agent"]);
    ("budget_allocation", ["budget_agent"; "sql_agent"]);
    ("implementation", ["market_agent"]) ].

Definition section_agent_mapping : gmap string (list string) :=
  list_to_map section_agent_table.

(** [self.section_agent_mapping.get(section, [])] *)
Definition agents_for (section : string) : list string :=
  default [] (section_agent_mapping !! section).

(** The workers that [_get_agent] builds through their factories. *)
Definition worker_agents : list string :=
  [ "exploration_agent"; "sql_agent"; "roi_agent"; "budget_agent";
    "kpi_agent"; "market_agent" ].

Definition known_agents : list string := worker_agents ++ ["compiler_agent"].

(** The [if]/[elif] chain of [_get_agent]. *)
Definition build_agent (agent_name : string) : M nat :=
  if bool_decide (agent_name ∈ worker_agents) then construct agent_name
  else if String.eqb agent_name "compiler_agent" then CompilerAgent_init
  else raise ("Unknown agent: " +:+ agent_name).

(** [SequentialGenerator._get_agent] *)
Definition _get_agent (agent_name : string) : M nat :=
  let* agents := gets _agents in
  match agents !! agent_name with
  | Some agent => ret agent
  | None =>
      let* agent := build_agent agent_name in
      modify (λ σ, set_agents (<[agent_name := agent]> (_agents σ)) σ);;;
      ret agent
  end.

Definition sql_suffix : string :=
  "Answer the question based on the data in the database. Do not perform over analysis. Perform only the analysis that is required. Please find the database schema: ".

(** [agent.invoke(question)] of the last branch: the method of the object's
    class. *)
Definition agent_invoke (agent_name : string) (agent : nat) (question : string) : M value :=
  if String.eqb agent_name "roi_agent" then ROIAgent_invoke agent question
  else if String.eqb agent_name "kpi_agent" then KPIAgent_invoke agent question
  else call_agent agent_name agent question.

(** The invocation patterns of [analyze_section]. *)
Definition invoke_pattern (agent_name : string) (agent : nat) (question : string) : M value :=
  if String.eqb agent_name "exploration_agent" then
    call_agent agent_name agent question
  else if String.eqb agent_name "market_agent" then
    call_agent agent_name agent question
  else if String.eqb agent_name "compiler_agent" then
    compile_str question
  else if String.eqb agent_name "sql_agent" then
    let* schema := get_schema_info in
    call_agent agent_name agent (question +:+ sql_suffix +:+ schema)
  else
    agent_invoke agent_name agent question.

(** Body of the loop over [agents_needed]. *)
Definition run_agent (question : string) (results : dict value) (agent_name : string)
    : M (dict value) :=
  try_catch
    (let* agent := _get_agent agent_name in
     let* result := invoke_pattern agent_name agent question in
     log (EvStore agent_name);;;
     sleep BetweenAgents 1;;;
     ret (dict_set agent_name result results))
    (λ e,
       log (EvStore agent_name);;;
       ret (dict_set agent_name (VDict [("error", VStr e)]) results)).

Fixpoint run_agents (question : string) (agents_needed : list string)
    (results : dict value) : M (dict value) :=
  match agents_needed with
  | [] => ret results
  | agent_name :: rest =>
      let* results := run_agent question results agent_name in
      run_agents question rest results
  end.

(** Key of the compilation state that receives an agent's result. *)
Definition result_key (agent_name : string) : option string :=
  if String.eqb agent_name "exploration_agent" then Some "exploration_results"
  else if String.eqb agent_name "sql_agent" then Some "sql_results"
  else if String.eqb agent_name "roi_agent" then Some "roi_results"
  else if String.eqb agent_name "budget_agent" then Some "budget_results"
  else if String.eqb agent_name "kpi_agent" then Some "kpi_results"
  else if String.eqb agent_name "market_agent" then Some "market_results"
  else None.

Definition add_result (state : dict value) (item : string * value) : dict value :=
  match result_key item.1 with
  | Some key => dict_set key item.2 state
  | None => state
  end.

Definition compilation_state (section question : string) (results : dict value)
    : dict value :=
  fold_left add_result results
    [("current_section", VStr section); ("current_question", VStr question)].

(** The two shapes of the dictionary that an analysis returns:
    [{"result": ..., "metadata": {"section", "agents_used", ...}}] and
    [{"error": ..., "metadata": {"section", "attempted_agents"?, ...}}]. *)
Inductive analysis : Type :=
| AResult (result : value) (section : string) (agents_used : list string)
| AError (error : string) (section : string) (attempted_agents : option (list string)).

(** [result.get("result", "")] *)
Definition get_result (a : analysis) : value :=
  match a with AResult r _ _ => r | AError _ _ _ => VStr "" end.

(** [SequentialGenerator.analyze_section] *)
Definition analyze_section (question section : string) : M analysis :=
  try_catch
    (let agents_needed := agents_for section in
     match agents_needed with
     | [] => ret (AError ("No agents defined for section: " +:+ section) section None)
     | _ =>
         let* results := run_agents question agents_needed [] in
         let* compiler := _get_agent "compiler_agent" in
         let* final_answer := compile (compilation_state section question results) in
         ret (AResult final_answer section agents_needed)
     end)
    (λ e, ret (AError ("Error in analysis: " +:+ e) section (Some (agents_for section)))).

Record report : Type := mkReport {
  report_data : dict value;
  total_sections : nat;
  successful_sections : Z;
  errors : list string
}.

(** Body of the loop of [generate_report]. *)
Definition report_section (sections_and_questions : dict string)
    (acc : dict value * list string) (item : string * string)
    : M (dict value * list string) :=
  let '(report_results, errors) := acc in
  let '(section, question) := item in
  log (EvSection section);;;
  try_catch
    (let* result := analyze_section question section in
     let report_results := dict_set section (get_result result) report_results in
     let errors :=
       match result with
       | AError e _ _ => (errors ++ ["Error in " +:+ section +:+ ": " +:+ e])%list
       | AResult _ _ _ => errors
       end in
     (if (index_of section (dict_keys sections_and_questions)
          <? length sections_and_questions - 1)%nat
      then sleep BetweenSections 5
      else ret tt);;;
     ret (report_results, errors))
    (λ e,
       ret (dict_set section (VStr ("Error generating content: " +:+ e)) report_results,
            (errors ++ ["Error in " +:+ section +:+ ": " +:+ e])%list)).

Fixpoint report_loop (sections_and_questions : dict string)
    (todo : list (string * string)) (acc : dict value * list string)
    : M (dict value * list string) :=
  match todo with
  | [] => ret acc
  | item :: rest =>
      let* acc := report_section sections_and_questions acc item in
      report_loop sections_and_questions rest acc
  end.

(** [SequentialGenerator.generate_report] *)
Definition generate_report (sections_and_questions : dict string) : M report :=
  let* out := report_loop sections_and_questions sections_and_questions ([], []) in
  ret (mkReport out.1
         (length sections_and_questions)
         (Z.of_nat (length sections_and_questions) - Z.of_nat (length out.2))
         out.2).

(** *** agents/report_generator.py: SupervisorAgent *)

Record SupervisorAgent : Type := mkSupervisor {
  exploration_agent : nat;
  sql_agent : nat;
  roi_agent : nat;
  budget_agent : nat;
  kpi_agent : nat;
  market_agent : nat;
  compiler_agent : nat
}.

(** [SupervisorAgent.__init__]: the data manager, then all seven agents. *)
Definition SupervisorAgent_init (path : option string) : M SupervisorAgent :=
  let* _ := get_data_manager path in
  let* exploration := construct "exploration_agent" in
  let* sql := construct "sql_agent" in
  let* roi := construct "roi_agent" in
  let* budget := construct "budget_agent" in
  let* kpi := construct "kpi_agent" in
  let* market := construct "market_agent" in
  let* compiler := CompilerAgent_init in
  ret (mkSupervisor exploration sql roi budget kpi market compiler).

(** The worker nodes of the workflow graph. *)
Inductive node : Type :=
| exploration | sql | roi | budget | kpi | market.

Definition all_nodes : list node := [exploration; sql; roi; budget; kpi; market].

Definition node_role (n : node) : string :=
  match n with
  | exploration => "exploration_agent"
  | sql => "sql_agent"
  | roi => "roi_agent"
  | budget => "budget_agent"
  | kpi => "kpi_agent"
  | market => "market_agent"
  end.

Definition node_key (n : node) : string :=
  match n with
  | exploration => "exploration_results"
  | sql => "sql_results"
  | roi => "roi_results"
  | budget => "budget_results"
  | kpi => "kpi_results"
  | market => "market_results"
  end.

(** [self.section_agent_mapping.get(section, [])] on the section found in
    the graph state. *)
Definition mapping_get (section : value) : list string :=
  match section with
  | VStr s => agents_for s
  | _ => []
  end.

(** [state["current_question"]], used as a string. *)
Definition current_question (state : dict value) : M string :=
  match dict_get "current_question" state with
  | Some (VStr q) => ret q
  | Some _ => raise "can only concatenate str"
  | None => raise "'current_question'"
  end.

(** The part of a node function inside [try]: the call of the agent. *)
Definition node_call (self : SupervisorAgent) (n : node) (state : dict value) : M value :=
  match n with
  | exploration =>
      let* q := current_question state in
      call_agent "exploration_agent" (exploration_agent self) q
  | sql =>
      let* inst := gets _instance in
      let* schema_info :=
        match inst with
        | Some _ => get_schema_info
        | None => ret ""
        end in
      let* q := current_question state in
      call_agent "sql_agent" (sql_agent self)
        (q +:+ " " +:+ sql_suffix +:+ schema_info)
  | roi =>
      let* q := current_question state in
      ROIAgent_invoke (roi_agent self) q
  | budget =>
      let* q := current_question state in
      call_agent "budget_agent" (budget_agent self) q
  | kpi =>
      let* q := current_question state in
      KPIAgent_invoke (kpi_agent self) q
  | market =>
      let* q := current_question state in
      let* result := call_agent "market_agent" (market_agent self) q in
      match result with
      | VDict kvs =>
          match dict_get "analysis" kvs with
          | Some a => ret a
          | None => ret result
          end
      | _ => ret result
      end
  end.

Definition node_error (n : node) : string :=
  match n with
  | exploration => "Error in exploration: "
  | sql => "Error in SQL analysis: "
  | roi => "Error in ROI analysis: "
  | budget => "Error in budget analysis: "
  | kpi => "Error in KPI analysis: "
  | market => "Error in market analysis: "
  end.

(** [run_exploration], [run_sql], [run_roi], [run_budget], [run_kpi],
    [run_market]: one shape, the agent and the keys differ. *)
Definition run_node (self : SupervisorAgent) (n : node) (state : dict value)
    : M (dict value) :=
  let section := dict_get_default "current_section" (VStr "") state in
  if bool_decide (node_role n ∈ mapping_get section) then
    try_catch
      (let* result := node_call self n state in
       log (EvStore (node_role n));;;
       ret (dict_set (node_key n) result state))
      (λ e,
         log (EvStore (node_role n));;;
         ret (dict_set (node_key n) (VStr (node_error n +:+ e)) state))
  else ret state.

Definition run_exploration (self : SupervisorAgent) := run_node self exploration.
Definition run_sql (self : SupervisorAgent) := run_node self sql.
Definition run_roi (self : SupervisorAgent) := run_node self roi.
Definition run_budget (self : SupervisorAgent) := run_node self budget.
Definition run_kpi (self : SupervisorAgent) := run_node self kpi.
Definition run_market (self : SupervisorAgent) := run_node self market.

(** [workflow.add_node]: the function behind each worker node. *)
Definition node_function (self : SupervisorAgent) (n : node)
    : dict value → M (dict value) :=
  match n with
  | exploration => run_exploration self
  | sql => run_sql self
  | roi => run_roi self
  | budget => run_budget self
  | kpi => run_kpi self
  | market => run_market self
  end.

(** [supervisor], the entry node: it passes the state on. *)
Definition supervisor (state : dict value) : M (dict value) := ret state.

(** The fan-out.  The six worker nodes hang off the supervisor with no
    edge among them, so the graph engine runs them in one step: each node
    is handed a dictionary of its own, holding the state as the step found
    it, and the dictionary that it returns is what it writes.  The engine
    is not part of the repository; the order in which it runs the nodes of
    the step is a parameter, and every statement below holds for each
    order. *)
Fixpoint run_nodes (self : SupervisorAgent) (order : list node) (state : dict value)
    : M (list (dict value)) :=
  match order with
  | [] => ret []
  | n :: rest =>
      let* writes := node_function self n state in
      let* others := run_nodes self rest state in
      ret (writes :: others)
  end.

(** [compile_results], the compiler node. *)
Definition compile_results (self : SupervisorAgent) (state : dict value)
    : M (dict value) :=
  try_catch
    (let* result := compile state in
     ret (dict_set "final_answer" result state))
    (λ e, ret (dict_set "final_answer" (VStr ("Error compiling results: " +:+ e)) state)).

(** How many of the dictionaries returned in one step write [key]. *)
Definition writers (key : string) (writes : list (dict value)) : nat :=
  length (filter (λ w, is_Some (dict_get key w)) writes).

(** One dictionary written over the state, key by key. *)
Definition update (state writes : dict value) : dict value :=
  fold_left (λ state kv, dict_set kv.1 kv.2 state) writes state.

(** The end of a step of the graph.  No key of [AgentState] is annotated
    with a reducer (the annotation of [messages] is a string), so each key
    takes one value per step: the engine raises [InvalidUpdateError] for
    the first key that more than one node of the step has written, and
    otherwise writes what the nodes returned over the state. *)
Definition apply_writes (state : dict value) (writes : list (dict value))
    : M (dict value) :=
  match filter (λ key, 1 < writers key writes) (writes ≫= dict_keys) with
  | key :: _ => raise (invalid_update env key)
  | [] => ret (fold_left update writes state)
  end.

(** [self.workflow.invoke]: three steps, the supervisor node, then the
    worker nodes together, then, behind the join of their edges, the
    compiler node. *)
Definition workflow_invoke (self : SupervisorAgent) (order : list node)
    (state : dict value) : M (dict value) :=
  let* writes := supervisor state in
  let* state := apply_writes state [writes] in
  let* writes := run_nodes self order state in
  let* state := apply_writes state writes in
  let* writes := compile_results self state in
  apply_writes state [writes].

Definition initial_AgentState (question section : string) : dict value :=
  [ ("messages", VList []);
    ("current_section", VStr section);
    ("current_question", VStr question);
    ("exploration_results", VDict []);
    ("sql_results", VDict []);
    ("roi_results", VDict []);
    ("budget_results", VDict []);
    ("kpi_results", VDict []);
    ("market_results", VDict []);
    ("final_answer", VStr "") ].

(** [SupervisorAgent.analyze] *)
Definition analyze (self : SupervisorAgent) (order : list node)
    (question section : string) : M analysis :=
  try_catch
    (let* result := workflow_invoke self order (initial_AgentState question section) in
     ret (AResult (dict_get_default "final_answer" (VStr "") result) section
            (agents_for section)))
    (λ e, ret (AError ("Error in analysis: " +:+ e) section (Some (agents_for section)))).

(** [main] of report_generator.py. *)
Definition main (order : list node) : M analysis :=
  let* report_generator := SupervisorAgent_init None in
  analyze report_generator order "What is the total revenue for the year?" "executive_summary".

End Program.

(** Projections of a trace. *)
Definition stores (t : list event) : list string :=
  omap (λ ev, match ev with EvStore r => Some r | _ => None end) t.
Definition constructions (t : list event) : list string :=
  omap (λ ev, match ev with EvConstruct r => Some r | _ => None end) t.
Definition invocations (t : list event) : list string :=
  omap (λ ev, match ev with EvInvoke r _ => Some r | _ => None end) t.
Definition backoffs (t : list event) : list nat :=
  omap (λ ev, match ev with EvSleep RetryBackoff n => Some n | _ => None end) t.
Definition compiled (t : list event) : list (dict value) :=
  omap (λ ev, match ev with EvCompile st => Some st | _ => None end) t.
Definition section_level (t : list event) : list event :=
  omap (λ ev, match ev with
              | EvSection _ | EvSleep BetweenSections _ => Some ev
              | _ => None
              end) t.

(** ** Notions used by the statements *)

(** A computation emits only events that satisfy [P]. *)
Definition emits {A} (P : event → Prop) (m : M A) : Prop :=
  ∀ σ, Forall P (emitted (m σ)).

(** Events of one worker at work: calls of its entry point or executor and
    the waits of its retry loop. *)
Definition worker_event (role : string) (ev : event) : Prop :=
  match ev with
  | EvInvoke r _ => r = role
  | EvSleep RetryBackoff _ => True
  | _ => False
  end.

(** Events of one turn of the sequential scheduler for [role]: the worker
    at work, its construction, the store of its result and the pause after
    it. *)
Definition turn_event (role : string) (ev : event) : Prop :=
  match ev with
  | EvInvoke r _ | EvConstruct r | EvStore r => r = role
  | EvSleep RetryBackoff _ | EvSleep BetweenAgents _ => True
  | _ => False
  end.

(** Events of the sequential scheduler while it works through [roles]. *)
Definition turns_event (roles : list string) (ev : event) : Prop :=
  ∃ role, role ∈ roles ∧ turn_event role ev.

(** Events of a worker node of the graph: the worker at work and the store
    of its result. *)
Definition node_event (role : string) (ev : event) : Prop :=
  match ev with
  | EvInvoke r _ | EvStore r => r = role
  | EvSleep RetryBackoff _ => True
  | _ => False
  end.

(** Events of the worker nodes for the roles in [roles]. *)
Definition nodes_event (roles : list string) (ev : event) : Prop :=
  ∃ role, role ∈ roles ∧ node_event role ev.

(** The section requires the role of node [n]. *)
Definition required (section : string) (n : node) : Prop :=
  node_role n ∈ agents_for section.

#[global] Instance required_dec (section : string) (n : node) :
  Decision (required section n) := decide (node_role n ∈ agents_for section).

#[global] Instance node_eq_dec : EqDecision node.
Proof. solve_decision. Defined.

(** The events of [k] failed attempts of a retry loop, the first one being
    the attempt after which the counter reads [first], each followed by its
    wait. *)
Definition failed_attempts (role : string) (inst base_delay first k : nat) : list event :=
  flat_map (λ j, [EvInvoke role inst; EvSleep RetryBackoff (base_delay * j)])
    (seq first k).

(** What [compile] returns at state [σ]: the content of the LLM's answer,
    or the message of its own handler. *)
Definition compiled_text (env : Env) (state : dict value) (σ : State) : value :=
  match world env (tick σ) (merge_call state) with
  | Ok content => content
  | Exn e => VStr ("Error compiling report section: " +:+ e)
  end.

(** The entries that [generate_report] adds to its list of errors for a
    section: one for a section without agents, none otherwise. *)
Definition section_errors (section : string) : list string :=
  match agents_for section with
  | [] => ["Error in " +:+ section +:+ ": " +:+ "No agents defined for section: " +:+ section]
  | _ => []
  end.

(** The pause that follows a section of [generate_report]. *)
Definition pause_after (sections_and_questions : dict string) (section : string)
    : list event :=
  if index_of section (dict_keys sections_and_questions)
     <? length sections_and_questions - 1
  then [EvSleep BetweenSections 5] else [].

(** What the section loop of [generate_report] shows when it pauses between
    consecutive sections: each section, and a pause of [delay] seconds
    before the next one. *)
Fixpoint paused_between (delay : nat) (sections : list string) : list event :=
  match sections with
  | [] => []
  | [s] => [EvSection s]
  | s :: rest => EvSection s :: EvSleep BetweenSections delay :: paused_between delay rest
  end.

(** What a load can change of a state whose data manager is [dm]: the
    tables of the data manager and the number of external calls. *)
Definition loaded (σ : State) (dm : DataManager) (tables : dict value) (k : nat) : State :=
  mkState (tick σ + k) (next_id σ)
    (Some (mkDataManager (dm_id dm) (data_path dm) (VDict tables) (_initialized dm)))
    (_agents σ) (executors σ).

(** ** Environments and states for the examples *)

(** The answer of an outside world in which everything works. *)
Definition fine (c : ext_call) : res value :=
  match c with
  | CallListCsv (Some path) => Ok (VList [VStr (path +:+ "/master.csv")])
  | CallListCsv None => Exn "expected str, bytes or os.PathLike object, not NoneType"
  | CallReadCsv _ | CallReadMaster _ => Ok (VStr "<DataFrame>")
  | CallLLM _ _ _ => Ok (VStr "## Section")
  | _ => Ok (VStr "ok")
  end.

(** The message of [InvalidUpdateError] for a key that is not annotated. *)
Definition one_value_per_step (key : string) : string :=
  "At key '" +:+ key +:+
  "': Can receive only one value per step. Use an Annotated key to handle multiple values.".

Definition calm_env : Env :=
  mkEnv (λ _, fine) (λ _, "Available Data Tables:") "/srv/report" one_value_per_step.

(** An outside world that fails on the first call only. *)
Definition flaky_env : Env :=
  mkEnv (λ n c, match n with 0 => Exn "rate limit" | _ => fine c end)
        (λ _, "Available Data Tables:") "/srv/report" one_value_per_step.


(** Every worker call raises, the merge call returns empty content. *)
Definition blackout_env : Env :=
  mkEnv (λ _ c, match c with
                | CallLLM _ _ _ => Ok (VStr "")
                | CallAgent _ _ _ | CallExecutor _ _ _ => Exn "connection reset"
                | _ => fine c
                end)
        (λ _, "Available Data Tables:") "/srv/report" one_value_per_step.

(** No executor call ever succeeds. *)
Definition down_env : Env :=
  mkEnv (λ n c, match c with
                | CallExecutor _ _ _ => Exn ("timeout " +:+ str_of_nat n)
                | _ => fine c
                end)
        (λ _, "Available Data Tables:") "/srv/report" one_value_per_step.

(** The state in which a fresh [SequentialGenerator] starts. *)
Definition started (env : Env) : State :=
  final (SequentialGenerator_init env None initial_state).

(** Unfolding of the monad's operations. *)
Ltac mred :=
  unfold bind, try_catch, ret, raise, gets, modify, log, sleep, fresh, ext;
  simpl.

(** ** Notions used by the further properties *)

(** The six results that [compile] puts into the prompt, in the order of
    the template: exploration, SQL, ROI, budget, KPI, market. *)
Definition prompt_results (state : dict value) : list value :=
  match merge_call state with
  | CallLLM _ _ results => results
  | _ => []
  end.

(** A computation that builds no agent and leaves the table of lazily
    built agents as it is. *)
Definition quiet {A} (m : M A) : Prop :=
  ∀ σ, constructions (emitted (m σ)) = [] ∧ _agents (final (m σ)) = _agents σ.

(** A computation that builds only agents of the [if]/[elif] chain that
    are missing from the table, each of them once, enters each one it
    built and removes none. *)
Definition builds_missing {A} (m : M A) : Prop :=
  ∀ σ,
    let built := constructions (emitted (m σ)) in
    NoDup built ∧
    (∀ role, role ∈ built →
       role ∈ known_agents ∧ _agents σ !! role = None ∧
       is_Some (_agents (final (m σ)) !! role)) ∧
    (∀ role, is_Some (_agents σ !! role) → is_Some (_agents (final (m σ)) !! role)).

(** No factory of a worker raises. *)
Definition factories_succeed (env : Env) : Prop :=
  ∀ n role, ∃ agent, world env n (CallConstruct role) = Ok agent.

(** ** Python strings *)

(** [str.lower] on the ASCII letters.  The tests below compare the result
    with ASCII words only (["table"], ["all"]), and no other character
    lowercases to a letter of these words. *)
Definition lower_ascii (c : Ascii.ascii) : Ascii.ascii :=
  let n := Ascii.nat_of_ascii c in
  if (65 <=? n) && (n <=? 90) then Ascii.ascii_of_nat (n + 32) else c.

Fixpoint lower (s : string) : string :=
  match s with
  | EmptyString => EmptyString
  | String c s' => String (lower_ascii c) (lower s')
  end.

(** [needle in s] *)
Fixpoint contains (needle s : string) : bool :=
  String.prefix needle s ||
  match s with
  | EmptyString => false
  | String _ s' => contains needle s'
  end.

(** [s.split(sep)] for a separator of one character: the pieces between
    the occurrences of [sep], of which there is always at least one. *)
Fixpoint split (sep : Ascii.ascii) (s : string) : list string :=
  match s with
  | EmptyString => [EmptyString]
  | String c s' =>
      if Ascii.eqb c sep then EmptyString :: split sep s'
      else
        match split sep s' with
        | piece :: pieces => String c piece :: pieces
        | [] => [String c EmptyString]
        end
  end.

(** [l[i]] with Python's negative indices; [None] stands for the
    [IndexError]. *)
Definition py_index {A} (l : list A) (i : Z) : option A :=
  if (0 <=? i)%Z then l !! Z.to_nat i
  else if (- Z.of_nat (length l) <=? i)%Z then l !! Z.to_nat (Z.of_nat (length l) + i)
  else None.

(** ** utils/report.py *)

Definition section_questions : dict (list string) :=
  [ ("executive_summary",
     ["Analyze the uploaded data and give the insights and executive summary of the company from the data. Perform basic statistics and basic operations on the columns of the data to get valuable numbers and insights about the company data."]);
    ("business_context",
     ["Analyze the marketing expenditure and marketing performance of the company from the data. Check the revenue generated from the marketing expenditure and the return on investment for the marketing initiatives undertaken last year. Search from web the informtion about the market of the domain of the company and present the results."]);
    ("marketing_performance",
     ["Evaluate the overall effectiveness of the marketing strategies implemented in the past year. Check for the top performing marketing channels in data which draw the revenue and explain the rational for the top performing marketing channels."]);
    ("performance_drivers",
     ["Identify the primary factors that contributed to the company's revenue growth. Analyze the data to find the top performing products and the top KPIs/KRAs/KSAs."]);
    ("marketing_roi",
     ["Assess the return on investment for the marketing initiatives undertaken last year. Analyze the data to find the top performing marketing channels and the return on investment for the marketing initiatives undertaken last year."]);
    ("budget_allocation",
     ["Determine the most effective allocation of the marketing budget for future campaigns. Analyze the current marketing budget and the marketing performance of the company from the data and determine the most effective allocation of the marketing budget for future campaigns."]);
    ("implementation",
     ["Outline a strategic plan for implementing the proposed marketing budget changes. Give some strategies to improve the marketing performance of the company. Also suggest some basic prospective timeline for the boosting the marketing and scale up the business."]) ].

(** ** agents/budget.py: BudgetAgent.invoke *)

Section Budget.
Context (env : Env).

(** [re.search(r'using\s+(\w+)\s+table', query, re.IGNORECASE)] and its
    first group; the regular expression engine is Python's. *)
Context (table_match : string → option string).

(** [self.dataframes], the dictionary that the agent took from the data
    manager when it was built. *)
Definition budget_tables : M (list string) :=
  let* inst := gets _instance in
  match inst with
  | Some dm =>
      match dataframes dm with
      | VDict frames => ret (dict_keys frames)
      | _ => raise "argument of type 'NoneType' is not iterable"
      end
  | None => raise "'NoneType' object has no attribute 'get_dataframes'"
  end.

(** [BudgetAgent.invoke]: the whole body is inside [try].  The analysis of
    the table with pandas, from the copy of the frame to the text of the
    plan (or one of its two messages about missing columns), is one
    external call. *)
Definition BudgetAgent_invoke (inst : nat) (query : string) : M value :=
  log (EvInvoke "budget_agent" inst);;;
  try_catch
    (if negb (contains "table" (lower query)) then
       ret (VStr "Error: Query must specify target data table")
     else
       let table_name :=
         match table_match query with Some name => name | None => "Master" end in
       let* tables := budget_tables in
       if negb (bool_decide (table_name ∈ tables)) then
         ret (VStr ("Table '" +:+ table_name +:+ "' not found. Available tables: "
                    +:+ String.concat ", " tables))
       else
         ext env (CallAgent "budget_agent" inst query))
    (λ e, ret (VStr ("Error in budget analysis: " +:+ e))).

End Budget.

(** ** agents/report_generation.py: the choice of sections *)

Section Selection.

(** Python's [str.strip] and [int]; [None] stands for the [ValueError]. *)
Context (strip : string → string) (int : string → option Z).

(** [get_user_selected_sections], on the line that [input] returned. *)
Definition get_user_selected_sections (line : string) : list string :=
  let selection := strip line in
  if String.eqb (lower selection) "all" then dict_keys section_questions
  else
    match mapM (λ idx, int (strip idx)) (split ","%char selection) with
    | Some selected_indices =>
        match mapM (λ idx, py_index (dict_keys section_questions) (idx - 1)%Z)
                selected_indices with
        | Some selected_sections => selected_sections
        | None => dict_keys section_questions
        end
    | None => dict_keys section_questions
    end.

End Selection.

(** ** The drivers: files, pauses and local variables *)

(** More of Python's strings: [str.title] and [str.replace] of one
    character, on ASCII, and the newline. *)
Definition upper_ascii (c : Ascii.ascii) : Ascii.ascii :=
  let n := Ascii.nat_of_ascii c in
  if (97 <=? n) && (n <=? 122) then Ascii.ascii_of_nat (n - 32) else c.

Definition is_cased (c : Ascii.ascii) : bool :=
  let n := Ascii.nat_of_ascii c in
  ((65 <=? n) && (n <=? 90)) || ((97 <=? n) && (n <=? 122)).

(** [str.title]: a letter that follows a letter is lowered, every other
    letter is raised. *)
Fixpoint title_from (previous_is_cased : bool) (s : string) : string :=
  match s with
  | EmptyString => EmptyString
  | String c s' =>
      String (if previous_is_cased then lower_ascii c else upper_ascii c)
        (title_from (is_cased c) s')
  end.

Definition title (s : string) : string := title_from false s.

Fixpoint replace (old new : Ascii.ascii) (s : string) : string :=
  match s with
  | EmptyString => EmptyString
  | String c s' => String (if Ascii.eqb c old then new else c) (replace old new s')
  end.

Definition nl : string := String (Ascii.ascii_of_nat 10) EmptyString.

(** [section.replace('_', ' ').title()], [format_section_title] of main.py. *)
Definition format_section_title (section : string) : string :=
  title (replace "_"%char " "%char section).

(** The name that the error of a wrong argument gives to the value it
    got: the name of its type, and [None] for [None]. *)
Definition type_name (v : value) : string :=
  match v with
  | VNone => "None"
  | VStr _ => "str"
  | VList _ => "list"
  | VDict _ => "dict"
  end.

(** A file is named by its directory and its name ([os.path.join]). *)
Definition path : Type := string * string.

(** What a driver works with besides the program state: the text files,
    its own [time.sleep] calls in order, the number of readings of the
    process memory made so far, and the local variable [section_content]
    of [generate_selected_sections], which is assigned inside [try]. *)
Record Desk : Type := mkDesk {
  files : gmap path string;
  naps : list nat;
  readings : nat;
  section_content : string
}.

Definition set_files (f : gmap path string) (d : Desk) : Desk :=
  mkDesk f (naps d) (readings d) (section_content d).
Definition set_naps (n : list nat) (d : Desk) : Desk :=
  mkDesk (files d) n (readings d) (section_content d).
Definition set_readings (n : nat) (d : Desk) : Desk :=
  mkDesk (files d) (naps d) n (section_content d).
Definition set_section_content (s : string) (d : Desk) : Desk :=
  mkDesk (files d) (naps d) (readings d) s.

(** The text of a file, empty when there is none. *)
Definition content (d : Desk) (p : path) : string :=
  match files d !! p with Some text => text | None => EmptyString end.

(** The monad of the drivers: that of the program, with the desk.  What
    was written before an exception stays written. *)
Definition D (A : Type) : Type := Desk → State → outcome A * Desk.

Definition dret {A} (a : A) : D A := λ d σ, (mkOutcome (Ok a) σ [], d).
Definition draise {A} (msg : string) : D A := λ d σ, (mkOutcome (Exn msg) σ [], d).

Definition dbind {A B} (m : D A) (k : A → D B) : D B :=
  λ d σ, match m d σ with
         | (mkOutcome (Ok a) σ' evs, d') =>
             match k a d' σ' with (o, d'') => (prepend evs o, d'') end
         | (mkOutcome (Exn e) σ' evs, d') => (mkOutcome (Exn e) σ' evs, d')
         end.

Definition dtry {A} (m : D A) (handler : string → D A) : D A :=
  λ d σ, match m d σ with
         | (mkOutcome (Ok a) σ' evs, d') => (mkOutcome (Ok a) σ' evs, d')
         | (mkOutcome (Exn e) σ' evs, d') =>
             match handler e d' σ' with (o, d'') => (prepend evs o, d'') end
         end.

(** A computation of the program, run by a driver. *)
Definition lift {A} (m : M A) : D A := λ d σ, (m σ, d).

Definition dgets {A} (f : Desk → A) : D A := λ d σ, (mkOutcome (Ok (f d)) σ [], d).
Definition dmodify (f : Desk → Desk) : D unit := λ d σ, (mkOutcome (Ok tt) σ [], f d).

Declare Scope drv_scope.
Delimit Scope drv_scope with drv.
Notation "'let*' x ':=' m 'in' k" := (dbind m (λ x, k))
  (at level 10, x name, m at level 100, k at level 200) : drv_scope.
Notation "m ;;; k" := (dbind m (λ _, k))
  (at level 100, right associativity) : drv_scope.

(** [open(p, "w")] and [open(p, "a")] with the texts written before the
    file is closed; the disk itself never fails. *)
Definition write_file (p : path) (text : string) : D unit :=
  dmodify (λ d, set_files (<[p := text]> (files d)) d).
Definition append_file (p : path) (text : string) : D unit :=
  dmodify (λ d, set_files (<[p := content d p +:+ text]> (files d)) d).

(** [os.path.exists] *)
Definition file_exists (p : path) : D bool :=
  dgets (λ d, bool_decide (is_Some (files d !! p))).

(** [open(p, "r").read()] *)
Definition read_file (p : path) : D string :=
  λ d σ, match files d !! p with
         | Some text => dret text d σ
         | None => draise "No such file or directory" d σ
         end.

(** [time.sleep] in a driver. *)
Definition nap (secs : nat) : D unit :=
  dmodify (λ d, set_naps (naps d ++ [secs]) d).

(** A chat model of LangChain, by the name of its model. *)
Inductive BaseChatModel : Type :=
| ChatModel (model : string).

(** The dictionary that [generate_selected_sections] returns. *)
Record selection_report : Type := mkSelectionReport {
  report_path : path;
  report_dict_path : path;
  report_dict : dict string;
  sections_processed : list string;
  metadata : list string   (* the keys of [all_metadata] *)
}.

Section Drivers.
Context (env : Env).

(** The outside world of the drivers: the resident set size in bytes at
    each reading ([psutil]), [json.dumps], [str] of a value that is not a
    string, and [os.environ.get("GOOGLE_API_KEY")]. *)
Context (rss : nat → N) (json_dumps : dict string → string) (str : value → string).
Context (google_api_key : option string).

Local Open Scope drv_scope.

(** *** agents/generator.py: the constructor in full *)

(** [SequentialGenerator(llm=llm, data_path=data_path)].  Without an
    [llm] the constructor builds one from the key of the environment, and
    raises when the key is missing or empty; then it goes on as
    [SequentialGenerator_init]. *)
Definition SequentialGenerator (llm : option BaseChatModel) (data_path : option string)
    : M unit :=
  (let* llm :=
     match llm with
     | Some llm => ret llm
     | None =>
         if match google_api_key with
            | Some api_key => negb (String.eqb api_key "")
            | None => false
            end
         then
           let* _ := ext env (CallConstruct "ChatGoogleGenerativeAI") in
           ret (ChatModel "gemini-2.0-flash-lite")
         else raise "GOOGLE_API_KEY environment variable not set"
     end in
   SequentialGenerator_init env data_path)%py.

(** *** agents/report_generation.py *)

(** [log_memory_usage]; the model returns the bytes, the source the
    megabytes [rss / 1024 / 1024]. *)
Definition log_memory_usage : D N :=
  let* n := dgets readings in
  dmodify (set_readings (S n));;;
  dret (rss n).

(** [force_gc]: a reading before and one after [gc.collect()]. *)
Definition force_gc : D unit :=
  let* mem_before := log_memory_usage in
  let* mem_after := log_memory_usage in
  dret tt.

Definition add_content (text : string) : D unit :=
  dmodify (λ d, set_section_content (section_content d +:+ text) d).

Definition separator : string := nl +:+ nl +:+ "---" +:+ nl +:+ nl.

(** Body of the loop over the questions of a section.  The dictionary
    [all_results] that the source fills here is never read. *)
Definition process_question (report_path : path) (llm : option BaseChatModel)
    (data_path : option string) (section : string) (i : nat) (question : string)
    : D unit :=
  let question_num := S i in
  dtry
    (let* result := lift (analyze_section env question section) in
     match result with
     | AResult (VStr text) _ _ =>
         append_file report_path text;;;
         add_content text
     | AResult v _ _ =>
         draise ("write() argument must be str, not " +:+ type_name v)
     | AError e _ _ =>
         let error_msg := "Error: " +:+ e in
         append_file report_path error_msg;;;
         add_content error_msg
     end;;;
     append_file report_path separator;;;
     add_content separator;;;
     force_gc;;;
     let* memory := log_memory_usage in
     if (4000 * 1024 * 1024 <? memory)%N then
       force_gc;;;
       lift (SequentialGenerator llm data_path)
     else dret tt)
    (λ e,
       let error_content :=
         "### Question " +:+ str_of_nat question_num +:+ nl +:+ nl +:+
         "**Question:** " +:+ question +:+ nl +:+ nl +:+
         "**Answer:**" +:+ nl +:+ nl +:+
         "Error generating content: " +:+ e +:+ separator in
       append_file report_path error_content;;;
       add_content error_content);;;
  force_gc.

Fixpoint questions_loop (report_path : path) (llm : option BaseChatModel)
    (data_path : option string) (section : string) (i : nat) (questions : list string)
    : D unit :=
  match questions with
  | [] => dret tt
  | question :: rest =>
      process_question report_path llm data_path section i question;;;
      questions_loop report_path llm data_path section (S i) rest
  end.

(** Body of the loop over the selected sections.  The generator of the
    section is created outside every [try]. *)
Definition process_section (report_path : path) (llm : option BaseChatModel)
    (data_path : option string) (acc : dict string * list string) (section : string)
    : D (dict string * list string) :=
  match dict_get section section_questions with
  | None => dret acc
  | Some questions =>
      lift (SequentialGenerator llm data_path);;;
      let* _ := log_memory_usage in
      let header := "## " +:+ format_section_title section +:+ nl +:+ nl in
      dmodify (set_section_content header);;;
      append_file report_path header;;;
      questions_loop report_path llm data_path section 0 questions;;;
      let* section_content := dgets section_content in
      let report_dict := dict_set section section_content acc.1 in
      let all_metadata :=
        if bool_decide (section ∈ acc.2) then acc.2 else (acc.2 ++ [section])%list in
      append_file report_path (nl +:+ nl);;;
      force_gc;;;
      nap 5;;;
      dret (report_dict, all_metadata)
  end.

Fixpoint sections_loop (report_path : path) (llm : option BaseChatModel)
    (data_path : option string) (todo : list string) (acc : dict string * list string)
    : D (dict string * list string) :=
  match todo with
  | [] => dret acc
  | section :: rest =>
      let* acc := process_section report_path llm data_path acc section in
      sections_loop report_path llm data_path rest acc
  end.

(** [generate_selected_sections]; [llm] is [None] by default.  The time
    stamp it takes first is never used. *)
Definition generate_selected_sections (selected_sections : list string)
    (output_dir : option string) (llm : option BaseChatModel)
    (data_path : option string) : D selection_report :=
  let output_dir :=
    match output_dir with
    | None => project_root env +:+ "/reports"
    | Some dir => dir
    end in
  let* _ := log_memory_usage in
  let report_path := (output_dir, "report.md") in
  let* report_exists := file_exists report_path in
  (if negb report_exists then
     write_file report_path ("# Marketing Report" +:+ nl +:+ nl)
   else
     let* content := read_file report_path in
     dret tt);;;
  let* out := sections_loop report_path llm data_path selected_sections ([], []) in
  let report_dict_path := (output_dir, "report_dict.json") in
  dtry (write_file report_dict_path (json_dumps out.1)) (λ e, dret tt);;;
  dret (mkSelectionReport report_path report_dict_path out.1 selected_sections out.2).

(** *** main.py *)

(** [f"{v}"] *)
Definition format_value (v : value) : string :=
  match v with
  | VStr s => s
  | _ => str v
  end.

(** Body of the loop over the questions of a section.  The graph engine
    picks the order of the worker nodes at each call. *)
Definition report_question (md_file : path) (report_generator : SupervisorAgent)
    (order : list node) (section section_title : string)
    (i : nat) (question : string) (questions : list string) : D unit :=
  dtry
    (let* result := lift (analyze env report_generator order question section) in
     append_file md_file
       ("## " +:+ section_title +:+ nl +:+ nl +:+
        "### Question " +:+ str_of_nat (i + 1) +:+ nl +:+ nl +:+
        "**Question:** " +:+ question +:+ nl +:+ nl +:+
        "**Answer:**" +:+ nl +:+ nl +:+
        match result with
        | AResult r _ _ => format_value r +:+ nl +:+ nl
        | AError error_msg _ _ => "Error generating content: " +:+ error_msg +:+ nl +:+ nl
        end);;;
     append_file md_file ("---" +:+ nl +:+ nl +:+ nl +:+ nl))
    (λ e, append_file md_file ("Error: " +:+ e +:+ nl +:+ nl +:+ "---" +:+ nl +:+ nl));;;
  if i <? length questions - 1 then nap 5 else dret tt.

Fixpoint report_questions (md_file : path) (report_generator : SupervisorAgent)
    (order : string → nat → list node) (section section_title : string)
    (i : nat) (todo questions : list string) : D unit :=
  match todo with
  | [] => dret tt
  | question :: rest =>
      report_question md_file report_generator (order section i) section section_title
        i question questions;;;
      report_questions md_file report_generator order section section_title
        (S i) rest questions
  end.

Fixpoint report_sections (md_file : path) (report_generator : SupervisorAgent)
    (order : string → nat → list node) (total_sections processed_sections : nat)
    (todo : dict (list string)) : D unit :=
  match todo with
  | [] => dret tt
  | (section, questions) :: rest =>
      let processed_sections := S processed_sections in
      let section_title := format_section_title section in
      report_questions md_file report_generator order section section_title
        0 questions questions;;;
      (if processed_sections <? total_sections then nap 10 else dret tt);;;
      report_sections md_file report_generator order total_sections processed_sections rest
  end.

(** [generate_markdown_report]; [None] stands for the missing result. *)
Definition generate_markdown_report (timestamp : string) (api_key : option string)
    (order : string → nat → list node) : D (option path) :=
  let md_file := (project_root env +:+ "/reports", "report.md") in
  write_file md_file
    ("# Marketing Report" +:+ nl +:+ nl +:+
     "*Last updated: " +:+ timestamp +:+ "*" +:+ nl +:+ nl);;;
  if match api_key with Some key => negb (String.eqb key "") | None => false end then
    let* report_generator := lift (SupervisorAgent_init env None) in
    let total_sections := length section_questions in
    report_sections md_file report_generator order total_sections 0 section_questions;;;
    dret (Some md_file)
  else dret None.

(** *** agents/kpi.py: run_all_analyses *)

Definition kpi_analyses : list string :=
  [ "Analyze the relationship between GMV and SLA for all orders";
    "Analyze the relationship between current month's NPS score and next month's GMV";
    "Analyze the relationship between GMV and discount percentages" ].

Fixpoint run_analyses (agent : nat) (i : nat) (todo analyses : list string) : D unit :=
  match todo with
  | [] => dret tt
  | analysis :: rest =>
      dtry
        (let* result := lift (KPIAgent_invoke env agent analysis) in
         if i <? length analyses - 1 then nap 30 else dret tt)
        (λ e, nap 45);;;
      run_analyses agent (S i) rest analyses
  end.

Definition run_all_analyses (agent : nat) : D unit :=
  run_analyses agent 0 kpi_analyses kpi_analyses.

End Drivers.

(** *** agents/roi.py: run_all_analyses *)

Section RoiDriver.
Context (env : Env).

(** [tools_dict], the functions of the agent's tools by name. *)
Context (tools_dict : string → option (M value)).

Local Open Scope drv_scope.

Definition roi_analyses : list string :=
  [ "Analyze marketing channels' effect on next month's GMV";
    "Analyze the relationship between average monthly NPS scores and next month's ROI";
    "Analyze the relationship between stock index and current monthly ROI" ].

Definition roi_tools : list string :=
  [ "calculate_channel_roi"; "nps_roi_analysis"; "stock_index_roi_analysis" ].

(** The loop of [run_all_analyses_direct]; a tool that is missing from
    the dictionary is a [KeyError]. *)
Fixpoint direct_analyses (quick_mode : bool) (i : nat) (todo analyses : list string)
    : D unit :=
  match todo with
  | [] => dret tt
  | analysis_func :: rest =>
      dtry
        (let* result :=
           match tools_dict analysis_func with
           | Some tool => lift tool
           | None => draise ("'" +:+ analysis_func +:+ "'")
           end in
         if i <? length analyses - 1 then nap (if quick_mode then 2 else 5) else dret tt)
        (λ e, nap (if quick_mode then 5 else 10));;;
      direct_analyses quick_mode (S i) rest analyses
  end.

Definition run_all_analyses_direct (quick_mode : bool) : D unit :=
  direct_analyses quick_mode 0 roi_tools roi_tools.

(** The loop of [run_all_analyses] over the agent. *)
Fixpoint agent_analyses (agent : nat) (quick_mode : bool) (i : nat)
    (todo analyses : list string) : D unit :=
  match todo with
  | [] => dret tt
  | analysis :: rest =>
      dtry
        (let* result := lift (ROIAgent_invoke env agent analysis) in
         if i <? length analyses - 1 then nap (if quick_mode then 2 else 5) else dret tt)
        (λ e, nap (if quick_mode then 5 else 10));;;
      agent_analyses agent quick_mode (S i) rest analyses
  end.

(** [run_all_analyses] of roi.py. *)
Definition roi_run_all_analyses (agent : nat) (quick_mode : bool) : D unit :=
  let* has_executor := lift (gets (λ σ, bool_decide (agent ∈ executors σ))) in
  if negb has_executor then run_all_analyses_direct quick_mode
  else agent_analyses agent quick_mode 0 roi_analyses roi_analyses.

End RoiDriver.

(** What a driver did to the desk: it appended [text] to the file [p],
    left the other files alone, and paused for [pauses]. *)
Definition extends (p : path) (text : string) (pauses : list nat) (d d' : Desk) : Prop :=
  content d' p = content d p +:+ text ∧
  (∀ q, q ≠ p → files d' !! q = files d !! q) ∧
  naps d' = naps d ++ pauses.

(** The text that a dictionary of section contents takes in the report
    file: each content, followed by an empty line. *)
Fixpoint rendered (report_dict : dict string) : string :=
  match report_dict with
  | [] => EmptyString
  | (section, section_content) :: rest =>
      section_content +:+ nl +:+ nl +:+ rendered rest
  end.

(** The texts that [generate_markdown_report] writes: the header of the
    file, the block of one answered question, and the blocks of the
    questions of a section and of a list of sections. *)
Definition report_header (timestamp : string) : string :=
  "# Marketing Report" +:+ nl +:+ nl +:+
  "*Last updated: " +:+ timestamp +:+ "*" +:+ nl +:+ nl.

Definition question_block (section_title : string) (i : nat) (question answer : string)
    : string :=
  ("## " +:+ section_title +:+ nl +:+ nl +:+
   "### Question " +:+ str_of_nat (i + 1) +:+ nl +:+ nl +:+
   "**Question:** " +:+ question +:+ nl +:+ nl +:+
   "**Answer:**" +:+ nl +:+ nl +:+
   answer +:+ nl +:+ nl) +:+
  ("---" +:+ nl +:+ nl +:+ nl +:+ nl).

Fixpoint questions_text (section_title : string) (i : nat)
    (answered : list (string * string)) : string :=
  match answered with
  | [] => EmptyString
  | (question, answer) :: rest =>
      question_block section_title i question answer +:+
      questions_text section_title (S i) rest
  end.

Fixpoint sections_text (answered : list (string * list (string * string))) : string :=
  match answered with
  | [] => EmptyString
  | (section, questions) :: rest =>
      questions_text (format_section_title section) 0 questions +:+ sections_text rest
  end.

(** The pauses of [generate_markdown_report]: 5 seconds between the
    questions of a section, 10 seconds between sections. *)
Fixpoint report_pauses (total_sections processed_sections : nat)
    (todo : dict (list string)) : list nat :=
  match todo with
  | [] => []
  | (section, questions) :: rest =>
      replicate (length questions - 1) 5 ++
      (if S processed_sections <? total_sections then [10] else []) ++
      report_pauses total_sections (S processed_sections) rest
  end.

(** The answer that [generate_markdown_report] writes for an analysis
    that the graph engine refused at the join of the worker nodes, and the
    questions of a section with this answer each. *)
Definition refused_answer (env : Env) : string :=
  "Error generating content: " +:+
  ("Error in analysis: " +:+ invalid_update env "messages").

Definition refused (env : Env) (questions : list string) : list (string * string) :=
  (λ question, (question, refused_answer env)) <$> questions.

(** The tables that [_load_data] has stored, on top of [tables], when it
    has read [frames] from the files [csv_files], one after the other. *)
Definition stored_tables (tables : dict value) (csv_files : list string)
    (frames : list value) : dict value :=
  fold_left (λ tables read, dict_set (table_name read.1) read.2 tables)
    (zip csv_files frames) tables.

(** The ways in which the load from [path] fails when it starts at the
    [t]-th external call, with the tables stored by then: the test of the
    path raises; the path is no directory and its file cannot be read; or
    the path is a directory, the files [csv_files] are read and the next
    one cannot be. *)
Inductive failed_load (env : Env) (path : string) (t : nat) : dict value → Prop :=
| listing_fails (e : string) :
    world env t (CallListCsv (Some path)) = Exn e →
    failed_load env path t []
| master_fails (listing : value) (e : string) :
    world env t (CallListCsv (Some path)) = Ok listing →
    (∀ csv_files, listing ≠ VList csv_files) →
    world env (S t) (CallReadMaster (Some path)) = Exn e →
    failed_load env path t []
| table_fails (csv_files : list string) (frames : list value) (file : string)
    (rest : list value) (e : string) :
    length csv_files = length frames →
    world env t (CallListCsv (Some path)) =
      Ok (VList ((VStr <$> csv_files) ++ VStr file :: rest)) →
    (∀ i f df, csv_files !! i = Some f → frames !! i = Some df →
               world env (S t + i) (CallReadCsv f) = Ok df) →
    world env (S t + length csv_files) (CallReadCsv file) = Exn e →
    failed_load env path t (stored_tables [] csv_files frames).

(** * Properties *)

(** ** The monad *)

Lemma returned_prepend {A} evs (o : outcome A) : returned (prepend evs o) = returned o.
Proof. by destruct o. Qed.

Lemma final_prepend {A} evs (o : outcome A) : final (prepend evs o) = final o.
Proof. by destruct o. Qed.

Lemma emitted_prepend {A} evs (o : outcome A) :
  emitted (prepend evs o) = evs ++ emitted o.
Proof. by destruct o. Qed.

Lemma bind_ok {A B} (m : M A) (k : A → M B) σ a σ' evs :
  m σ = mkOutcome (Ok a) σ' evs →
  bind m k σ = prepend evs (k a σ').
Proof. intros H. unfold bind. by rewrite H. Qed.

Lemma bind_exn {A B} (m : M A) (k : A → M B) σ e σ' evs :
  m σ = mkOutcome (Exn e) σ' evs →
  bind m k σ = mkOutcome (Exn e) σ' evs.
Proof. intros H. unfold bind. by rewrite H. Qed.

Lemma try_catch_ok {A} (m : M A) h σ a σ' evs :
  m σ = mkOutcome (Ok a) σ' evs → try_catch m h σ = mkOutcome (Ok a) σ' evs.
Proof. intros H. unfold try_catch. by rewrite H. Qed.

Lemma try_catch_exn {A} (m : M A) h σ e σ' evs :
  m σ = mkOutcome (Exn e) σ' evs →
  try_catch m h σ = prepend evs (h e σ').
Proof. intros H. unfold try_catch. by rewrite H. Qed.

Lemma prepend_nil {A} (o : outcome A) : prepend [] o = o.
Proof. by destruct o. Qed.

(** ** The data manager *)

Section DataManagerFacts.
Context (env : Env).

Lemma get_data_manager_initialised (σ : State) (p : option string) (dm : DataManager) :
  _instance σ = Some dm → _initialized dm = true →
  get_data_manager env p σ = mkOutcome (Ok (dm_id dm)) σ [].
Proof.
  intros Hi Hinit.
  unfold get_data_manager, DataManager_call, DataManager_new, DataManager_init.
  mred. rewrite Hi. simpl. by rewrite Hi, Hinit.
Qed.

Lemma loaded_loaded σ dm tables k tables' k' :
  loaded (loaded σ dm tables k) (mkDataManager (dm_id dm) (data_path dm) (VDict tables)
                                   (_initialized dm)) tables' k' =
    loaded σ dm tables' (k + k').
Proof. unfold loaded. simpl. f_equal. lia. Qed.

Lemma store_table_outcome (name : string) (df : value) (σ : State) (dm : DataManager)
    (tables : dict value) :
  _instance σ = Some dm → dataframes dm = VDict tables →
  store_table name df σ = mkOutcome (Ok tt) (loaded σ dm (dict_set name df tables) 0) [].
Proof.
  intros Hi Hd. unfold store_table, update_instance. mred. rewrite Hi. simpl. rewrite Hd.
  simpl. unfold loaded, set_instance. rewrite Hi. simpl. by rewrite Nat.add_0_r.
Qed.

Lemma ext_outcome (c : ext_call) (σ : State) :
  ext env c σ = mkOutcome (world env (tick σ) c) (set_tick (S (tick σ)) σ) [].
Proof. done. Qed.

Lemma load_tables_outcome (csv_files : list value) :
  ∀ (σ : State) (dm : DataManager) (tables : dict value),
    _instance σ = Some dm → dataframes dm = VDict tables →
    ∃ r tables' k,
      load_tables env csv_files σ = mkOutcome r (loaded σ dm tables' k) [].
Proof.
  induction csv_files as [|file rest IH]; intros σ dm tables Hi Hd.
  - exists (Ok tt), tables, 0. simpl. unfold ret, loaded. rewrite Nat.add_0_r.
    destruct σ, dm; simpl in *; by subst.
  - assert (σ = loaded σ dm tables 0) as Hσ.
    { unfold loaded. rewrite Nat.add_0_r. destruct σ, dm; simpl in *; by subst. }
    destruct file as [|file_path| |]; simpl;
      try (exists (Exn "expected str, bytes or os.PathLike object"), tables, 0;
           unfold raise; by rewrite <- Hσ).
    unfold bind at 1. rewrite ext_outcome.
    destruct (world env (tick σ) (CallReadCsv file_path)) as [df|e].
    + unfold bind at 1.
      rewrite (store_table_outcome _ df (set_tick (S (tick σ)) σ) dm tables) by done.
      simpl.
      destruct (IH (loaded (set_tick (S (tick σ)) σ) dm
                      (dict_set (table_name file_path) df tables) 0)
                  (mkDataManager (dm_id dm) (data_path dm)
                     (VDict (dict_set (table_name file_path) df tables)) (_initialized dm))
                  (dict_set (table_name file_path) df tables) eq_refl eq_refl)
        as (r & tables' & k & Hrest).
      rewrite Hrest. simpl. exists r, tables', (S k). f_equal.
      unfold loaded. simpl. f_equal. lia.
    + exists (Exn e), tables, 1. simpl. f_equal. unfold loaded, set_tick. simpl.
      destruct σ, dm; simpl in *; subst. f_equal. lia.
Qed.

(** A load never raises, and leaves a data manager that differs in its
    tables only. *)
Lemma load_data_outcome (σ : State) (dm : DataManager) (tables : dict value) :
  _instance σ = Some dm → dataframes dm = VDict tables →
  ∃ tables' k,
    _load_data env σ = mkOutcome (Ok tt) (loaded σ dm tables' k) [EvLoad (data_path dm)].
Proof.
  intros Hi Hd. unfold _load_data. unfold bind at 1. unfold gets. cbv beta iota.
  rewrite Hi. unfold bind at 1, log. cbv beta iota. unfold try_catch, bind at 1.
  rewrite ext_outcome, prepend_nil.
  assert (σ = loaded σ dm tables 0) as Hσ.
  { unfold loaded. rewrite Nat.add_0_r. destruct σ, dm; simpl in *; by subst. }
  destruct (world env (tick σ) (CallListCsv (data_path dm))) as [listing|e].
  - assert (∃ tables' k,
              prepend [EvLoad (data_path dm)]
                match
                  prepend []
                    ((let* df := ext env (CallReadMaster (data_path dm)) in
                      store_table "master" df) (set_tick (S (tick σ)) σ))
                with
                | mkOutcome (Ok a) σ' evs => mkOutcome (Ok a) σ' evs
                | mkOutcome (Exn e) σ' evs => prepend evs (ret tt σ')
                end =
              mkOutcome (Ok tt) (loaded σ dm tables' k) [EvLoad (data_path dm)])
      as Hmaster.
    { unfold bind. rewrite ext_outcome.
      destruct (world env (tick (set_tick (S (tick σ)) σ)) (CallReadMaster (data_path dm)))
        as [df|e].
      - rewrite (store_table_outcome _ df _ dm tables) by done.
        simpl. eexists _, 2. f_equal. unfold loaded. simpl. f_equal. lia.
      - simpl. exists tables, 2. f_equal. unfold loaded, set_tick. simpl.
        destruct σ, dm; simpl in *; subst. f_equal. lia. }
    destruct listing as [|s|csv_files|kvs]; try exact Hmaster.
    destruct (load_tables_outcome csv_files (set_tick (S (tick σ)) σ) dm tables Hi Hd)
      as (r & tables' & k & Hload).
    rewrite Hload. exists tables', (S k).
    destruct r as [[]|e]; simpl; f_equal; unfold loaded; simpl; f_equal; lia.
  - simpl. exists tables, 1. f_equal. unfold loaded, set_tick. simpl.
    destruct σ, dm; simpl in *; subst. f_equal. lia.
Qed.

(** The first run of [__init__]: the path is set, the load is tried
    once, and the object is marked whatever the load did. *)
Lemma DataManager_init_outcome (path : option string) (σ : State) (dm : DataManager) :
  _instance σ = Some dm → _initialized dm = false →
  ∃ tables k,
    DataManager_init env path σ =
      mkOutcome (Ok tt)
        (mkState (tick σ + k) (next_id σ)
           (Some (mkDataManager (dm_id dm) path (VDict tables) true))
           (_agents σ) (executors σ))
        [EvLoad path].
Proof.
  intros Hi Hinit. unfold DataManager_init, update_instance.
  unfold bind at 1. unfold gets. cbv beta iota. rewrite Hi, Hinit, prepend_nil.
  unfold bind at 1. unfold modify at 1. cbv beta iota. rewrite prepend_nil.
  unfold bind at 1.
  destruct (load_data_outcome
              (set_instance (Some (mkDataManager (dm_id dm) path (VDict []) false)) σ)
              (mkDataManager (dm_id dm) path (VDict []) false) [] eq_refl eq_refl)
    as (tables & k & Hload).
  rewrite Hi. cbn [fmap option_fmap option_map]. rewrite Hinit, Hload.
  unfold modify. simpl. by exists tables, k.
Qed.

Lemma get_data_manager_first (σ : State) (p : option string) :
  ∃ dm, _instance (final (get_data_manager env p σ)) = Some dm ∧
        _initialized dm = true ∧
        returned (get_data_manager env p σ) = Ok (dm_id dm).
Proof.
  destruct (_instance σ) as [dm|] eqn:Hi.
  - destruct (_initialized dm) eqn:Hinit.
    + rewrite (get_data_manager_initialised σ p dm) by done. by exists dm.
    + destruct (DataManager_init_outcome
                  (Some match p with Some p0 => p0 | None => default_data_path env end)
                  σ dm Hi Hinit) as (tables & k & Hrun).
      destruct (get_data_manager env p σ) as [r σ' evs] eqn:Hgm.
      unfold get_data_manager, DataManager_call, DataManager_new, bind, gets, ret in Hgm.
      rewrite Hi in Hgm. cbn [prepend app] in Hgm. rewrite Hrun in Hgm.
      simpl in Hgm. injection Hgm as <- <- <-. simpl. by eexists.
  - destruct (DataManager_init_outcome
                (Some match p with Some p0 => p0 | None => default_data_path env end)
                (set_instance (Some (mkDataManager (next_id σ) None (VDict []) false))
                   (set_next_id (S (next_id σ)) σ))
                (mkDataManager (next_id σ) None (VDict []) false) eq_refl eq_refl)
      as (tables & k & Hrun).
    destruct (get_data_manager env p σ) as [r σ' evs] eqn:Hgm.
    unfold get_data_manager, DataManager_call, DataManager_new, bind, gets, fresh, modify,
      ret in Hgm.
    rewrite Hi in Hgm. cbn [prepend app] in Hgm. rewrite Hrun in Hgm.
    simpl in Hgm. injection Hgm as <- <- <-. simpl. by eexists.
Qed.

(** C10. The data manager is a singleton: whatever the state, a call of
    [get_data_manager] leaves an initialised instance and returns it, and a
    later call, with any path, returns the same object, loads nothing and
    leaves the state, so the object's path and data, as they were. *)
Theorem data_manager_singleton (σ : State) (p1 p2 : option string) :
  let first := get_data_manager env p1 σ in
  let second := get_data_manager env p2 (final first) in
  ∃ dm,
    _instance (final first) = Some dm ∧ _initialized dm = true ∧
    returned first = Ok (dm_id dm) ∧
    returned second = Ok (dm_id dm) ∧
    final second = final first ∧
    emitted second = [].
Proof.
  intros first second.
  destruct (get_data_manager_first σ p1) as (dm & Hi & Hinit & Hret).
  exists dm. subst second first.
  by rewrite (get_data_manager_initialised _ p2 dm Hi Hinit).
Qed.

End DataManagerFacts.

(** ** The registry of agents *)

Section RegistryFacts.
Context (env : Env).







End RegistryFacts.


(** ** The retry loop *)

Section RetryFacts.
Context (env : Env) (name role : string) (max_attempts base_delay inst : nat)
  (query : string).

Lemma set_tick_set_tick (n m : nat) (σ : State) :
  set_tick n (set_tick m σ) = set_tick n σ.
Proof. by destruct σ. Qed.

Lemma retry_loop_recovers (v : value) :
  ∀ k (e : nat → string) fuel attempt σ,
    attempt + k < max_attempts → k < fuel →
    (∀ i, i < k → world env (tick σ + i) (CallExecutor role inst query) = Exn (e i)) →
    world env (tick σ + k) (CallExecutor role inst query) = Ok v →
    retry_loop env name role max_attempts base_delay inst query fuel attempt σ =
      mkOutcome (Ok v) (set_tick (tick σ + k + 1) σ)
        (failed_attempts role inst base_delay (S attempt) k ++ [EvInvoke role inst]).
Proof.
  induction k as [|k IH]; intros e fuel attempt σ Hlt Hfuel Hfail Hok;
    (destruct fuel as [|fuel]; [lia|]); simpl.
  - assert ((attempt <? max_attempts) = true) as -> by (apply Nat.ltb_lt; lia).
    mred. rewrite Nat.add_0_r in Hok. rewrite Hok. simpl.
    do 2 f_equal. lia.
  - assert ((attempt <? max_attempts) = true) as -> by (apply Nat.ltb_lt; lia).
    assert ((S attempt <? max_attempts) = true) as Hnext by (apply Nat.ltb_lt; lia).
    pose proof (Hfail 0 ltac:(lia)) as H0. rewrite Nat.add_0_r in H0.
    mred. rewrite H0. simpl. rewrite Hnext. simpl.
    rewrite (IH (λ i, e (S i)) fuel (S attempt) (set_tick (S (tick σ)) σ));
      simpl; [| lia | lia | |].
    + rewrite set_tick_set_tick. do 2 f_equal. lia.
    + intros i Hi. replace (S (tick σ + i)) with (tick σ + S i) by lia.
      apply Hfail. lia.
    + replace (S (tick σ + k)) with (tick σ + S k) by lia. done.
Qed.

Lemma retry_loop_exhausts :
  ∀ k (e : nat → string) fuel attempt σ,
    attempt + S k = max_attempts → k < fuel →
    (∀ i, i ≤ k → world env (tick σ + i) (CallExecutor role inst query) = Exn (e i)) →
    retry_loop env name role max_attempts base_delay inst query fuel attempt σ =
      mkOutcome (Ok (VStr (retry_error name max_attempts (e k))))
        (set_tick (tick σ + k + 1) σ)
        (failed_attempts role inst base_delay (S attempt) k ++ [EvInvoke role inst]).
Proof.
  induction k as [|k IH]; intros e fuel attempt σ Hlt Hfuel Hfail;
    (destruct fuel as [|fuel]; [lia|]); simpl.
  - assert ((attempt <? max_attempts) = true) as -> by (apply Nat.ltb_lt; lia).
    assert ((S attempt <? max_attempts) = false) as Hlast by (apply Nat.ltb_ge; lia).
    pose proof (Hfail 0 ltac:(lia)) as H0. rewrite Nat.add_0_r in H0.
    mred. rewrite H0. simpl. rewrite Hlast. simpl.
    do 2 f_equal. lia.
  - assert ((attempt <? max_attempts) = true) as -> by (apply Nat.ltb_lt; lia).
    assert ((S attempt <? max_attempts) = true) as Hnext by (apply Nat.ltb_lt; lia).
    pose proof (Hfail 0 ltac:(lia)) as H0. rewrite Nat.add_0_r in H0.
    mred. rewrite H0. simpl. rewrite Hnext. simpl.
    rewrite (IH (λ i, e (S i)) fuel (S attempt) (set_tick (S (tick σ)) σ));
      simpl; [| lia | lia |].
    + rewrite set_tick_set_tick. do 2 f_equal. lia.
    + intros i Hi. replace (S (tick σ + i)) with (tick σ + S i) by lia.
      apply Hfail. lia.
Qed.

(** The loop never raises, whatever the executor does. *)
Lemma retry_loop_returns :
  ∀ fuel attempt σ,
    ∃ v, returned (retry_loop env name role max_attempts base_delay inst query
                     fuel attempt σ) = Ok v.
Proof.
  induction fuel as [|fuel IH]; intros attempt σ; simpl; [by eexists|].
  destruct (attempt <? max_attempts); [|by eexists].
  mred. destruct (world env (tick σ) _) as [v|e]; simpl; [by eexists|].
  destruct (S attempt <? max_attempts); simpl; [|by eexists].
  rewrite !returned_prepend. apply IH.
Qed.

(** Fuel for [max_attempts] iterations is enough: with it the loop ends by
    its own condition, and more fuel changes nothing. *)
Lemma retry_loop_fuel :
  ∀ fuel1 fuel2 attempt σ,
    max_attempts ≤ attempt + fuel1 → max_attempts ≤ attempt + fuel2 →
    retry_loop env name role max_attempts base_delay inst query fuel1 attempt σ =
    retry_loop env name role max_attempts base_delay inst query fuel2 attempt σ.
Proof.
  induction fuel1 as [|fuel1 IH]; intros fuel2 attempt σ H1 H2.
  - assert ((attempt <? max_attempts) = false) as Hend by (apply Nat.ltb_ge; lia).
    destruct fuel2; simpl; by rewrite ?Hend.
  - destruct fuel2 as [|fuel2]; simpl.
    + assert ((attempt <? max_attempts) = false) as -> by (apply Nat.ltb_ge; lia). done.
    + destruct (attempt <? max_attempts) eqn:Hlt; [|done].
      mred. destruct (world env (tick σ) _) as [v|e]; simpl; [done|].
      destruct (S attempt <? max_attempts); simpl; [|done].
      do 2 f_equal. apply IH; lia.
Qed.

Lemma backoffs_failed_attempts (first k : nat) :
  backoffs (failed_attempts role inst base_delay first k ++ [EvInvoke role inst]) =
    (λ j, base_delay * j) <$> seq first k.
Proof.
  unfold backoffs, failed_attempts. rewrite omap_app. simpl.
  rewrite app_nil_r. revert first.
  induction k as [|k IH]; intros first; simpl; [done|]. by rewrite IH.
Qed.

Lemma invocations_failed_attempts (first k : nat) :
  invocations (failed_attempts role inst base_delay first k ++ [EvInvoke role inst]) =
    replicate (S k) role.
Proof.
  unfold invocations, failed_attempts. rewrite omap_app. simpl.
  revert first. induction k as [|k IH]; intros first; simpl; [done|].
  by rewrite IH.
Qed.

Lemma sum_linear (first k : nat) :
  2 * sum_list ((λ j, base_delay * j) <$> seq first k) + base_delay * k =
    base_delay * (k * (2 * first + k)).
Proof.
  revert first. induction k as [|k IH]; intros first; [simpl; lia|].
  change (seq first (S k)) with (first :: seq (S first) k).
  rewrite fmap_cons.
  change (sum_list (base_delay * first :: ?l)) with (base_delay * first + sum_list l).
  specialize (IH (S first)). nia.
Qed.

End RetryFacts.

(** C5, as the code has it.  A call that fails [k < max_attempts] times and
    then succeeds returns the successful result after exactly [k + 1]
    attempts; the wait after the [j]-th failure, that is before attempt
    number [j + 1], is [base_delay * j], and the waits add up to
    [base_delay * (1 + 2 + ... + k)]. *)
Theorem retry_recovers_with_linear_backoff
    (env : Env) (name role : string) (max_attempts base_delay inst : nat)
    (query : string) (σ : State) (k : nat) (e : nat → string) (v : value) :
  k < max_attempts →
  (∀ i, i < k → world env (tick σ + i) (CallExecutor role inst query) = Exn (e i)) →
  world env (tick σ + k) (CallExecutor role inst query) = Ok v →
  let o := call_with_retry env name role max_attempts base_delay inst query σ in
  returned o = Ok v ∧
  invocations (emitted o) = replicate (S k) role ∧
  backoffs (emitted o) = (λ j, base_delay * j) <$> seq 1 k ∧
  (∀ N, 2 ≤ N ≤ S k → backoffs (emitted o) !! (N - 2) = Some (base_delay * (N - 1))) ∧
  2 * sum_list (backoffs (emitted o)) = base_delay * (k * (k + 1)).
Proof.
  intros Hk Hfail Hok. unfold call_with_retry. simpl.
  rewrite (retry_loop_recovers env name role max_attempts base_delay inst query
             v k e max_attempts 0 σ) by (done || lia).
  simpl. rewrite backoffs_failed_attempts, invocations_failed_attempts.
  repeat split.
  - intros N HN. rewrite list_lookup_fmap, lookup_seq_lt by lia. simpl.
    do 2 f_equal. lia.
  - pose proof (sum_linear base_delay 1 k). nia.
Qed.

Lemma retry_recovers_with_linear_backoff_witness :
  let o := call_with_retry flaky_env "KPI" "kpi_agent" 3 20 7 "q" initial_state in
  returned o = Ok (VStr "ok") ∧
  invocations (emitted o) = replicate 2 "kpi_agent" ∧
  backoffs (emitted o) = (λ j, 20 * j) <$> seq 1 1 ∧
  (∀ N, 2 ≤ N ≤ 2 → backoffs (emitted o) !! (N - 2) = Some (20 * (N - 1))) ∧
  2 * sum_list (backoffs (emitted o)) = 20 * (1 * (1 + 1)).
Proof.
  apply (retry_recovers_with_linear_backoff flaky_env "KPI" "kpi_agent" 3 20 7 "q"
           initial_state 1 (λ _, "rate limit") (VStr "ok")).
  - lia.
  - intros [|i] Hi; [reflexivity | lia].
  - reflexivity.
Defined.

(** C5, as stated, fails: the KPI agent, rate limited once, waits
    [20 * 1] seconds before its second attempt, not [20 * 2]. *)
Lemma retry_wait_counterexample :
  let o := KPIAgent_invoke flaky_env 7 "q" initial_state in
  returned o = Ok (VStr "ok") ∧
  emitted o = [EvInvoke "kpi_agent" 7; EvSleep RetryBackoff 20; EvInvoke "kpi_agent" 7] ∧
  backoffs (emitted o) !! (2 - 2) ≠ Some (20 * 2).
Proof. vm_compute. repeat split; discriminate. Qed.

(** ** What computations emit *)

Section Emits.
Context {A B : Type} (P : event → Prop).

Lemma emits_ret (a : A) : emits P (ret a).
Proof. intros σ. constructor. Qed.

Lemma emits_raise (msg : string) : emits P (raise (A := A) msg).
Proof. intros σ. constructor. Qed.

Lemma emits_gets (f : State → A) : emits P (gets f).
Proof. intros σ. constructor. Qed.

Lemma emits_modify (f : State → State) : emits P (modify f).
Proof. intros σ. constructor. Qed.

Lemma emits_fresh : emits P fresh.
Proof. intros σ. constructor. Qed.

Lemma emits_ext (env : Env) (c : ext_call) : emits P (ext env c).
Proof. intros σ. constructor. Qed.

Lemma emits_log (ev : event) : P ev → emits P (log ev).
Proof. intros H σ. by repeat constructor. Qed.

Lemma emits_bind (m : M A) (k : A → M B) :
  emits P m → (∀ a, emits P (k a)) → emits P (bind m k).
Proof.
  intros Hm Hk σ. unfold bind. specialize (Hm σ).
  destruct (m σ) as [[a|e] σ' evs]; simpl in *; [|done].
  rewrite emitted_prepend. apply Forall_app. split; [done | apply Hk].
Qed.

Lemma emits_try_catch (m : M A) (h : string → M A) :
  emits P m → (∀ e, emits P (h e)) → emits P (try_catch m h).
Proof.
  intros Hm Hh σ. unfold try_catch. specialize (Hm σ).
  destruct (m σ) as [[a|e] σ' evs]; simpl in *; [done|].
  rewrite emitted_prepend. apply Forall_app. split; [done | apply Hh].
Qed.

End Emits.

Ltac emits_step :=
  first
    [ apply emits_ret | apply emits_raise | apply emits_gets | apply emits_modify
    | apply emits_fresh | apply emits_ext
    | apply emits_log; simpl; try done
    | apply emits_bind; [|intros ?]
    | apply emits_try_catch; [|intros ?] ].

Section WorkerFacts.
Context (env : Env).

Lemma emits_call_agent role inst q : emits (worker_event role) (call_agent env role inst q).
Proof. unfold call_agent. repeat emits_step. Qed.

Lemma emits_retry_loop name role max_attempts base_delay inst q fuel attempt :
  emits (worker_event role)
    (retry_loop env name role max_attempts base_delay inst q fuel attempt).
Proof.
  revert attempt. induction fuel as [|fuel IH]; intros attempt; simpl.
  - emits_step.
  - destruct (attempt <? max_attempts)%nat; [|emits_step].
    emits_step; [repeat emits_step|].
    destruct (S attempt <? max_attempts)%nat; [|emits_step].
    unfold sleep. emits_step; [emits_step | apply IH].
Qed.

Lemma emits_ROIAgent_invoke inst q : emits (worker_event "roi_agent") (ROIAgent_invoke env inst q).
Proof.
  unfold ROIAgent_invoke, call_with_retry. emits_step; [emits_step|].
  emits_step; [|apply emits_retry_loop].
  destruct a; repeat emits_step.
Qed.

Lemma emits_KPIAgent_invoke inst q : emits (worker_event "kpi_agent") (KPIAgent_invoke env inst q).
Proof. apply emits_retry_loop. Qed.

Lemma emits_get_schema_info (P : event → Prop) : emits P (get_schema_info env).
Proof. unfold get_schema_info. emits_step; [emits_step|]. destruct a; emits_step. Qed.

Lemma emits_invoke_pattern role agent q :
  emits (worker_event role) (invoke_pattern env role agent q).
Proof.
  unfold invoke_pattern.
  destruct (String.eqb role "exploration_agent"); [apply emits_call_agent|].
  destruct (String.eqb role "market_agent"); [apply emits_call_agent|].
  destruct (String.eqb role "compiler_agent");
    [unfold compile_str; repeat emits_step|].
  destruct (String.eqb role "sql_agent").
  { emits_step; [apply emits_get_schema_info | apply emits_call_agent]. }
  unfold agent_invoke.
  destruct (String.eqb role "roi_agent") eqn:E;
    [apply String.eqb_eq in E as ->; apply emits_ROIAgent_invoke|].
  destruct (String.eqb role "kpi_agent") eqn:E';
    [apply String.eqb_eq in E' as ->; apply emits_KPIAgent_invoke|].
  apply emits_call_agent.
Qed.

Lemma emits_get_agent role :
  emits (λ ev, ev = EvConstruct role) (_get_agent env role).
Proof.
  unfold _get_agent, build_agent, construct, CompilerAgent_init.
  emits_step; [emits_step|]. case_match; [emits_step|].
  emits_step; [|repeat emits_step].
  case_bool_decide; [repeat emits_step|].
  case_match; [|emits_step].
  match goal with H : String.eqb _ _ = true |- _ => apply String.eqb_eq in H as -> end.
  repeat emits_step.
Qed.

End WorkerFacts.

(** ** Dictionaries *)

Section DictFacts.
Context {V : Type}.
Implicit Types (d : dict V) (k : string) (v : V).

Lemma dict_get_set_eq k v d : dict_get k (dict_set k v d) = Some v.
Proof.
  induction d as [|[k' v'] d IH]; simpl.
  - by rewrite String.eqb_refl.
  - destruct (String.eqb k k') eqn:E; simpl; rewrite ?String.eqb_refl, ?E; done.
Qed.

Lemma dict_get_set_ne k k' v d : k ≠ k' → dict_get k (dict_set k' v d) = dict_get k d.
Proof.
  intros Hne. apply String.eqb_neq in Hne as Hne'.
  induction d as [|[k0 v0] d IH]; simpl.
  - by rewrite Hne'.
  - destruct (String.eqb k' k0) eqn:E; simpl.
    + apply String.eqb_eq in E as <-. by rewrite Hne'.
    + by rewrite IH.
Qed.

Lemma dict_get_None k d : dict_get k d = None ↔ k ∉ dict_keys d.
Proof.
  unfold dict_keys. induction d as [|[k' v'] d IH]; simpl.
  - split; [intros _; apply not_elem_of_nil | done].
  - rewrite not_elem_of_cons. destruct (String.eqb k k') eqn:E.
    + apply String.eqb_eq in E. split; [done | tauto].
    + apply String.eqb_neq in E. tauto.
Qed.

Lemma dict_set_fresh k v d : k ∉ dict_keys d → dict_set k v d = d ++ [(k, v)].
Proof.
  unfold dict_keys. induction d as [|[k' v'] d IH]; simpl; [done|].
  rewrite not_elem_of_cons. intros [Hne Hnin].
  apply String.eqb_neq in Hne as ->. by rewrite IH.
Qed.

Lemma dict_keys_set_fresh k v d :
  k ∉ dict_keys d → dict_keys (dict_set k v d) = dict_keys d ++ [k].
Proof. intros H. rewrite dict_set_fresh by done. unfold dict_keys. by rewrite fmap_app. Qed.

Lemma dict_keys_set_present k v d :
  k ∈ dict_keys d → dict_keys (dict_set k v d) = dict_keys d.
Proof.
  unfold dict_keys. induction d as [|[k' v'] d IH]; simpl.
  - intros H. by apply elem_of_nil in H.
  - destruct (String.eqb k k') eqn:E; simpl.
    + apply String.eqb_eq in E as ->. done.
    + apply String.eqb_neq in E. rewrite elem_of_cons. intros [?|Hin]; [done|].
      f_equal. by apply IH.
Qed.

End DictFacts.

Lemma index_of_app_fresh (k : string) (done_ rest : list string) :
  k ∉ done_ → index_of k (done_ ++ k :: rest) = length done_.
Proof.
  induction done_ as [|k' done_ IH]; simpl.
  - by rewrite String.eqb_refl.
  - rewrite not_elem_of_cons. intros [Hne Hnin].
    apply String.eqb_neq in Hne as ->. by rewrite IH.
Qed.

(** ** Projections of event lists *)

Lemma worker_event_turn role ev : worker_event role ev → turn_event role ev.
Proof. destruct ev as [| | | |[]| |]; simpl; tauto. Qed.

Lemma construct_event_turn role ev : ev = EvConstruct role → turn_event role ev.
Proof. by intros ->. Qed.

Lemma stores_worker role evs : Forall (worker_event role) evs → stores evs = [].
Proof.
  unfold stores. induction 1 as [|ev evs Hev _ IH]; [done|].
  destruct ev; simpl in *; done.
Qed.

Lemma stores_construct role evs : Forall (λ ev, ev = EvConstruct role) evs → stores evs = [].
Proof.
  unfold stores. induction 1 as [|ev evs Hev _ IH]; [done|].
  by subst ev.
Qed.

(** ** The compiler agent *)

Section CompilerFacts.
Context (env : Env).

Lemma compile_outcome (state : dict value) (σ : State) :
  compile env state σ =
    mkOutcome (Ok (compiled_text env state σ)) (set_tick (S (tick σ)) σ) [EvCompile state].
Proof.
  unfold compile, compiled_text. mred.
  by destruct (world env (tick σ) (merge_call state)).
Qed.

End CompilerFacts.

(** ** The sequential scheduler *)

Section SequentialFacts.
Context (env : Env).

(** One turn of the loop never raises: the role's entry is written once,
    with the worker's result or with the error of the turn. *)
Lemma run_agent_outcome (question : string) (results : dict value) (role : string)
    (σ : State) :
  ∃ entry σ' evs,
    run_agent env question results role σ =
      mkOutcome (Ok (dict_set role entry results)) σ' evs ∧
    stores evs = [role] ∧ Forall (turn_event role) evs.
Proof.
  unfold run_agent.
  pose proof (emits_get_agent env role σ) as Hg.
  destruct (_get_agent env role σ) as [[agent|e] σ1 ev1] eqn:Eg; simpl in Hg.
  - pose proof (emits_invoke_pattern env role agent question σ1) as Hi.
    destruct (invoke_pattern env role agent question σ1) as [[result|e] σ2 ev2] eqn:Ei;
      simpl in Hi; mred; rewrite Eg; simpl; rewrite Ei; simpl.
    + eexists _, _, _. split; [done|]. split.
      * unfold stores. rewrite !omap_app. fold (stores ev1) (stores ev2).
        by rewrite (stores_construct role ev1), (stores_worker role ev2).
      * rewrite !Forall_app. repeat split.
        -- eapply Forall_impl; [done|]. apply construct_event_turn.
        -- eapply Forall_impl; [done|]. apply worker_event_turn.
        -- by repeat constructor.
    + eexists _, _, _. split; [done|]. split.
      * unfold stores. rewrite !omap_app. fold (stores ev1) (stores ev2).
        by rewrite (stores_construct role ev1), (stores_worker role ev2).
      * rewrite !Forall_app. repeat split.
        -- eapply Forall_impl; [done|]. apply construct_event_turn.
        -- eapply Forall_impl; [done|]. apply worker_event_turn.
        -- by repeat constructor.
  - mred. rewrite Eg. simpl.
    eexists _, _, _. split; [done|]. split.
    + unfold stores. rewrite !omap_app. fold (stores ev1).
      by rewrite (stores_construct role ev1).
    + rewrite !Forall_app. repeat split.
      * eapply Forall_impl; [done|]. apply construct_event_turn.
      * by repeat constructor.
Qed.

Lemma run_agents_outcome (question : string) (roles : list string) :
  ∀ (results : dict value) (σ : State),
  ∃ results' σ' evs,
    run_agents env question roles results σ = mkOutcome (Ok results') σ' evs ∧
    stores evs = roles ∧
    Forall (turns_event roles) evs ∧
    (NoDup (dict_keys results ++ roles) → dict_keys results' = dict_keys results ++ roles).
Proof.
  induction roles as [|role rest IH]; intros results σ.
  - exists results, σ, []. simpl. unfold ret. repeat split; [constructor|].
    by rewrite app_nil_r.
  - destruct (run_agent_outcome question results role σ) as (entry & σ1 & ev1 & Hr & Hs & Hf).
    destruct (IH (dict_set role entry results) σ1) as (results' & σ2 & ev2 & Hrs & Hs2 & Hf2 & Hk).
    exists results', σ2, (ev1 ++ ev2). split; [|split; [|split]].
    + simpl. unfold bind. by rewrite Hr, Hrs.
    + unfold stores in *. by rewrite omap_app, Hs, Hs2.
    + apply Forall_app. split.
      * eapply Forall_impl; [done|]. intros ev Hev. exists role. split; [left|done].
      * eapply Forall_impl; [done|]. intros ev (r & Hin & Hev). exists r.
        split; [by right|done].
    + intros Hnd. apply NoDup_app in Hnd as (Hnd1 & Hdisj & Hnd2).
      apply NoDup_cons in Hnd2 as [Hnin Hnd2].
      assert (role ∉ dict_keys results) as Hfresh.
      { intros Hin. apply (Hdisj role Hin). left. }
      rewrite Hk; rewrite dict_keys_set_fresh by done.
      * by rewrite <- app_assoc.
      * rewrite <- app_assoc. simpl. apply NoDup_app. repeat split; [done| |by constructor].
        intros x Hx. apply Hdisj, Hx.
Qed.

End SequentialFacts.

(** ** The table of sections *)

Lemma mapping_lookup (section : string) (roles : list string) :
  section_agent_mapping !! section = Some roles →
  (section, roles) ∈ section_agent_table.
Proof. apply elem_of_list_to_map_2. Qed.

Lemma table_rows :
  Forall (λ row : string * list string,
            row.2 ≠ [] ∧ NoDup row.2 ∧ Forall (λ r, r ∈ worker_agents) row.2)
    section_agent_table.
Proof. apply (bool_decide_unpack _). by vm_compute. Qed.

Lemma mapping_roles (section : string) (roles : list string) :
  section_agent_mapping !! section = Some roles →
  roles ≠ [] ∧ NoDup roles ∧ Forall (λ r, r ∈ worker_agents) roles.
Proof.
  intros H. apply mapping_lookup in H.
  pose proof table_rows as Hrows. rewrite Forall_forall in Hrows.
  apply (Hrows _ H).
Qed.

Lemma agents_for_mapped (section : string) (roles : list string) :
  section_agent_mapping !! section = Some roles → agents_for section = roles.
Proof. intros H. unfold agents_for. by rewrite H. Qed.

Lemma agents_for_unmapped (section : string) :
  section_agent_mapping !! section = None → agents_for section = [].
Proof. intros H. unfold agents_for. by rewrite H. Qed.

(** ** A section under the sequential scheduler *)

Section AnalyzeSectionFacts.
Context (env : Env).

Lemma get_compiler_outcome (σ : State) :
  ∃ agent σ' evs,
    _get_agent env "compiler_agent" σ = mkOutcome (Ok agent) σ' evs ∧
    tick σ' = tick σ ∧
    Forall (λ ev, ev = EvConstruct "compiler_agent") evs.
Proof.
  unfold _get_agent, bind, gets.
  destruct (_agents σ !! "compiler_agent") as [agent|]; simpl.
  - by eexists _, _, _.
  - eexists _, _, _. split; [done|]. split; [done|].
    by repeat constructor.
Qed.

Lemma analyze_section_unmapped (question section : string) (σ : State) :
  agents_for section = [] →
  analyze_section env question section σ =
    mkOutcome (Ok (AError ("No agents defined for section: " +:+ section) section None)) σ [].
Proof. intros H. unfold analyze_section. rewrite H. by mred. Qed.

Lemma analyze_section_mapped (question section : string) (roles : list string) (σ : State) :
  section_agent_mapping !! section = Some roles →
  ∃ results σc σ' evs evc,
    analyze_section env question section σ =
      mkOutcome
        (Ok (AResult (compiled_text env (compilation_state section question results) σc)
               section roles))
        σ' (evs ++ evc ++ [EvCompile (compilation_state section question results)]) ∧
    dict_keys results = roles ∧ stores evs = roles ∧
    Forall (turns_event roles) evs ∧
    Forall (λ ev, ev = EvConstruct "compiler_agent") evc.
Proof.
  intros Hmap. destruct (mapping_roles _ _ Hmap) as (Hne & Hnd & _).
  unfold analyze_section. rewrite (agents_for_mapped _ _ Hmap).
  destruct roles as [|role rest]; [done|].
  destruct (run_agents_outcome env question (role :: rest) [] σ)
    as (results & σ1 & evs & Hrun & Hst & Hf & Hk).
  destruct (get_compiler_outcome σ1) as (agent & σ2 & evc & Hc & _ & Hfc).
  exists results, σ2, (set_tick (S (tick σ2)) σ2), evs, evc.
  split; [|by rewrite Hk].
  unfold try_catch, bind. rewrite Hrun. simpl. rewrite Hc. simpl.
  rewrite compile_outcome. simpl. done.
Qed.

End AnalyzeSectionFacts.

(** ** Claims on a single section *)

(** C6. A section without an entry in the table of sections fails the call
    with the error ["No agents defined for section: ..."], and only the
    call: nothing is built, called or changed.  For a section with an
    entry the lookup gives the row's list of roles, in the order of the
    table, and the call returns a result for these roles. *)
Theorem unknown_section_is_an_error (env : Env) (question section : string) (σ : State) :
  (section_agent_mapping !! section = None →
     analyze_section env question section σ =
       mkOutcome (Ok (AError ("No agents defined for section: " +:+ section) section None))
         σ []) ∧
  (∀ roles, section_agent_mapping !! section = Some roles →
     agents_for section = roles ∧ roles ≠ [] ∧
     (section, roles) ∈ section_agent_table ∧
     ∃ text, returned (analyze_section env question section σ) =
               Ok (AResult text section roles)).
Proof.
  split.
  - intros H. by apply analyze_section_unmapped, agents_for_unmapped.
  - intros roles H. split; [by apply agents_for_mapped|].
    split; [by apply (mapping_roles section)|].
    split; [by apply mapping_lookup|].
    destruct (analyze_section_mapped env question section roles σ H)
      as (results & σc & σ' & evs & evc & Hrun & _).
    rewrite Hrun. by eexists.
Qed.

Lemma unknown_section_is_an_error_witness :
  analyze_section calm_env "What changed?" "unknown_section" (started calm_env) =
    mkOutcome
      (Ok (AError "No agents defined for section: unknown_section" "unknown_section" None))
      (started calm_env) [] ∧
  agents_for "marketing_roi" = ["roi_agent"; "sql_agent"].
Proof.
  split.
  - apply (proj1 (unknown_section_is_an_error calm_env "What changed?"
                    "unknown_section" (started calm_env))).
    reflexivity.
  - apply (proj2 (unknown_section_is_an_error calm_env "What changed?"
                    "marketing_roi" (started calm_env)) ["roi_agent"; "sql_agent"]).
    reflexivity.
Defined.

(** C3, as the code has it.  [compile] never raises, whatever the state it
    is given, all failures included: it returns the content of the LLM's
    answer as it is, or, when the merge call raises, the non-empty text
    ["Error compiling report section: ..."]. *)
Theorem compile_never_raises (env : Env) (state : dict value) (σ : State) :
  ∃ text,
    returned (compile env state σ) = Ok text ∧
    match world env (tick σ) (merge_call state) with
    | Ok content => text = content
    | Exn e => text = VStr ("Error compiling report section: " +:+ e) ∧ nonempty_text text
    end.
Proof.
  rewrite compile_outcome. simpl. eexists. split; [done|].
  unfold compiled_text. destruct (world env (tick σ) (merge_call state)); [done|].
  split; [done|]. eexists. split; [done|]. discriminate.
Qed.

(** C3, as stated, fails: with every worker down, the run for
    [marketing_roi] hands the compiler a state whose entries are all
    failures, and the text is the LLM's empty content. *)
Lemma compile_empty_text_counterexample :
  let failures :=
    [ ("current_section", VStr "marketing_roi");
      ("current_question", VStr "Which channel pays off?");
      ("roi_results", VStr "Error in ROI analysis after 2 attempts: connection reset");
      ("sql_results", VDict [("error", VStr "connection reset")]) ] in
  compiled (emitted (analyze_section blackout_env "Which channel pays off?"
                       "marketing_roi" (started blackout_env))) = [failures] ∧
  (∀ σ, returned (compile blackout_env failures σ) = Ok (VStr "")) ∧
  ¬ nonempty_text (VStr "").
Proof.
  split; [by vm_compute|]. split; [intros σ; by rewrite compile_outcome|].
  by intros (s & [= <-] & Hs).
Qed.




(** ** Failure of one role *)

Section IsolationFacts.
Context (env : Env).

Lemma call_with_retry_exhausts (name role : string) (max_attempts base_delay inst : nat)
    (query : string) (σ : State) (e : nat → string) :
  0 < max_attempts →
  (∀ i, i < max_attempts →
        world env (tick σ + i) (CallExecutor role inst query) = Exn (e i)) →
  call_with_retry env name role max_attempts base_delay inst query σ =
    mkOutcome (Ok (VStr (retry_error name max_attempts (e (max_attempts - 1)))))
      (set_tick (tick σ + max_attempts) σ)
      (failed_attempts role inst base_delay 1 (max_attempts - 1) ++ [EvInvoke role inst]).
Proof.
  intros Hpos Hfail. unfold call_with_retry.
  rewrite (retry_loop_exhausts env name role max_attempts base_delay inst query
             (max_attempts - 1) e max_attempts 0 σ); [| lia | lia |].
  - do 2 f_equal. lia.
  - intros i Hi. apply Hfail. lia.
Qed.

(** One turn of the loop, by what the request for the agent and the call
    of the agent do. *)
Lemma run_agent_turn (question : string) (results : dict value) (role : string)
    (σ : State) :
  run_agent env question results role σ =
    match _get_agent env role σ with
    | mkOutcome (Exn e) σ1 ev1 =>
        mkOutcome (Ok (dict_set role (VDict [("error", VStr e)]) results)) σ1
          (ev1 ++ [EvStore role])
    | mkOutcome (Ok agent) σ1 ev1 =>
        match invoke_pattern env role agent question σ1 with
        | mkOutcome (Ok result) σ2 ev2 =>
            mkOutcome (Ok (dict_set role result results)) σ2
              (ev1 ++ ev2 ++ [EvStore role; EvSleep BetweenAgents 1])
        | mkOutcome (Exn e) σ2 ev2 =>
            mkOutcome (Ok (dict_set role (VDict [("error", VStr e)]) results)) σ2
              (ev1 ++ ev2 ++ [EvStore role])
        end
    end.
Proof.
  unfold run_agent, try_catch, bind.
  destruct (_get_agent env role σ) as [[agent|e] σ1 ev1]; [|done].
  destruct (invoke_pattern env role agent question σ1) as [[result|e] σ2 ev2];
    simpl; by rewrite <- ?app_assoc.
Qed.

(** The ROI agent whose two attempts fail, with or without its executor. *)
Lemma ROIAgent_invoke_exhausted (inst : nat) (question : string) (σ : State)
    (first : nat) (e : nat → string) :
  (first = tick σ ∧ (inst ∈ executors σ)) ∨
  (first = S (tick σ) ∧ (inst ∉ executors σ) ∧
   ∃ x, world env (tick σ) (CallCreateExecutor inst) = Ok x) →
  (∀ i, i < 2 → world env (first + i) (CallExecutor "roi_agent" inst question) = Exn (e i)) →
  returned (ROIAgent_invoke env inst question σ) = Ok (VStr (retry_error "ROI" 2 (e 1))).
Proof.
  intros Hexec Hfail. unfold ROIAgent_invoke.
  destruct Hexec as [[-> Hin]|(-> & Hnin & [x Hx])].
  - unfold bind, gets. rewrite bool_decide_eq_true_2 by done.
    unfold ret. cbv beta iota.
    rewrite (call_with_retry_exhausts "ROI" "roi_agent" 2 5 inst question σ e);
      [done | lia | done].
  - unfold bind, gets, ext, modify. rewrite bool_decide_eq_false_2 by done.
    rewrite Hx. cbv beta iota.
    cbn [prepend app returned final emitted].
    rewrite (call_with_retry_exhausts "ROI" "roi_agent" 2 5 inst question _ e);
      [done | lia | done].
Qed.

(** The loop keeps the entries that it was given or has written. *)
Lemma run_agents_keeps (question : string) (roles : list string) :
  ∀ (results : dict value) (σ : State) results' σ' evs (k : string),
    run_agents env question roles results σ = mkOutcome (Ok results') σ' evs →
    is_Some (dict_get k results) → is_Some (dict_get k results').
Proof.
  induction roles as [|role rest IH]; intros results σ results' σ' evs k Hr Hk.
  - by injection Hr as <- _ _.
  - destruct (run_agent_outcome env question results role σ)
      as (entry & σ1 & ev1 & Hturn & _).
    simpl in Hr. unfold bind in Hr. rewrite Hturn in Hr.
    destruct (run_agents env question rest (dict_set role entry results) σ1)
      as [[results1|e] σ2 ev2] eqn:Hrest; [|done].
    simpl in Hr. injection Hr as <- _ _.
    eapply IH; [done|].
    destruct (decide (k = role)) as [->|Hne].
    + rewrite dict_get_set_eq. by eexists.
    + by rewrite dict_get_set_ne.
Qed.

End IsolationFacts.

(** C4. A role's failure stays with the role.  (0) A retry loop never
    raises.  (1) When its [max_attempts] attempts all fail, it returns the
    error text built from the exception of the last attempt.  (2) A turn
    of the sequential loop never raises and writes the role's entry once:
    what the worker returned, or, when the request for the agent or its
    call raised, the dictionary with the error; the loop then goes on with
    the remaining roles.  (3) So for the KPI agent whose three attempts
    fail, on a first request as on a later one, the entry written is the
    error text of its loop; (4) for the ROI agent whose two attempts fail
    likewise, whether its executor exists or is created in this turn.
    (5) When the factory of a worker raises, the entry is the dictionary
    with its error and the worker is not called.  (6) The loop writes one
    entry for each role of its list, in order, whatever fails. *)
Theorem role_failure_is_isolated (env : Env) :
  (∀ name role max_attempts base_delay inst query σ,
     ∃ v, returned (call_with_retry env name role max_attempts base_delay inst query σ) =
            Ok v) ∧
  (∀ name role max_attempts base_delay inst query σ (e : nat → string),
     0 < max_attempts →
     (∀ i, i < max_attempts →
           world env (tick σ + i) (CallExecutor role inst query) = Exn (e i)) →
     returned (call_with_retry env name role max_attempts base_delay inst query σ) =
       Ok (VStr (retry_error name max_attempts (e (max_attempts - 1))))) ∧
  (∀ question results role σ,
     ∃ entry σ' evs,
       run_agent env question results role σ =
         mkOutcome (Ok (dict_set role entry results)) σ' evs ∧
       stores evs = [role] ∧
       match _get_agent env role σ with
       | mkOutcome (Exn e) _ _ => entry = VDict [("error", VStr e)]
       | mkOutcome (Ok agent) σ1 _ =>
           match returned (invoke_pattern env role agent question σ1) with
           | Ok result => entry = result
           | Exn e => entry = VDict [("error", VStr e)]
           end
       end ∧
       ∀ rest, run_agents env question (role :: rest) results σ =
                 prepend evs (run_agents env question rest (dict_set role entry results) σ')) ∧
  (∀ question results σ inst σ1 ev1 (e : nat → string),
     _get_agent env "kpi_agent" σ = mkOutcome (Ok inst) σ1 ev1 →
     (∀ i, i < 3 →
           world env (tick σ1 + i) (CallExecutor "kpi_agent" inst question) = Exn (e i)) →
     returned (run_agent env question results "kpi_agent" σ) =
       Ok (dict_set "kpi_agent" (VStr (retry_error "KPI" 3 (e 2))) results)) ∧
  (∀ question results σ inst σ1 ev1 first (e : nat → string),
     _get_agent env "roi_agent" σ = mkOutcome (Ok inst) σ1 ev1 →
     (first = tick σ1 ∧ (inst ∈ executors σ1)) ∨
     (first = S (tick σ1) ∧ (inst ∉ executors σ1) ∧
      ∃ x, world env (tick σ1) (CallCreateExecutor inst) = Ok x) →
     (∀ i, i < 2 →
           world env (first + i) (CallExecutor "roi_agent" inst question) = Exn (e i)) →
     returned (run_agent env question results "roi_agent" σ) =
       Ok (dict_set "roi_agent" (VStr (retry_error "ROI" 2 (e 1))) results)) ∧
  (∀ question results role σ e,
     role ∈ worker_agents →
     _agents σ !! role = None →
     world env (tick σ) (CallConstruct role) = Exn e →
     run_agent env question results role σ =
       mkOutcome (Ok (dict_set role (VDict [("error", VStr e)]) results))
         (set_tick (S (tick σ)) σ) [EvConstruct role; EvStore role]) ∧
  (∀ question roles results σ,
     ∃ results', returned (run_agents env question roles results σ) = Ok results' ∧
                 stores (emitted (run_agents env question roles results σ)) = roles ∧
                 ∀ role, role ∈ roles → is_Some (dict_get role results')).
Proof.
  split; [|split; [|split; [|split; [|split; [|split]]]]].
  - intros name role max_attempts base_delay inst query σ. apply retry_loop_returns.
  - intros name role max_attempts base_delay inst query σ e Hpos Hfail.
    by rewrite (call_with_retry_exhausts env name role max_attempts base_delay inst
                  query σ e Hpos Hfail).
  - intros question results role σ.
    destruct (run_agent_outcome env question results role σ)
      as (entry & σ' & evs & Hr & Hs & _).
    pose proof (run_agent_turn env question results role σ) as Hturn.
    destruct (_get_agent env role σ) as [[agent|e] σ1 ev1];
      [destruct (invoke_pattern env role agent question σ1) as [[result|e] σ2 ev2]|];
      cbn [returned];
      (eexists _, _, _; split; [exact Hturn|]; split;
       [ rewrite Hr in Hturn; injection Hturn as _ _ <-; exact Hs
       | split; [reflexivity|];
         intros rest; simpl; unfold bind; by rewrite Hturn ]).
  - intros question results σ inst σ1 ev1 e Hget Hfail.
    rewrite run_agent_turn, Hget.
    change (invoke_pattern env "kpi_agent" inst question)
      with (call_with_retry env "KPI" "kpi_agent" 3 20 inst question).
    rewrite (call_with_retry_exhausts env "KPI" "kpi_agent" 3 20 inst question σ1 e);
      [done | lia | done].
  - intros question results σ inst σ1 ev1 first e Hget Hexec Hfail.
    rewrite run_agent_turn, Hget.
    change (invoke_pattern env "roi_agent" inst question)
      with (ROIAgent_invoke env inst question).
    pose proof (ROIAgent_invoke_exhausted env inst question σ1 first e Hexec Hfail) as Hroi.
    destruct (ROIAgent_invoke env inst question σ1) as [[result|e'] σ2 ev2];
      simpl in Hroi; [|done].
    by injection Hroi as ->.
  - intros question results role σ e Hrole Hnone Hexn.
    rewrite run_agent_turn. unfold _get_agent, bind, gets. cbv beta iota.
    rewrite Hnone. unfold build_agent. rewrite bool_decide_eq_true_2 by done.
    unfold construct. mred. by rewrite Hexn.
  - intros question roles results σ.
    destruct (run_agents_outcome env question roles results σ)
      as (results' & σ' & evs & Hr & Hs & _).
    rewrite Hr. exists results'. split; [done|]. split; [done|].
    clear Hs. revert results σ results' σ' evs Hr.
    induction roles as [|role rest IH]; intros results σ results' σ' evs Hr role' Hin.
    { by apply elem_of_nil in Hin. }
    destruct (run_agent_outcome env question results role σ)
      as (entry & σ1 & ev1 & Hturn & _).
    simpl in Hr. unfold bind in Hr. rewrite Hturn in Hr.
    destruct (run_agents_outcome env question rest (dict_set role entry results) σ1)
      as (results1 & σ2 & ev2 & Hrest & _).
    rewrite Hrest in Hr. simpl in Hr. injection Hr as <- _ _.
    destruct (decide (role' ∈ rest)) as [Hrest'|Hnot].
    + by eapply IH.
    + apply elem_of_cons in Hin as [->|Hin]; [|done].
      eapply run_agents_keeps; [done|]. rewrite dict_get_set_eq. by eexists.
Qed.


Lemma role_failure_is_isolated_witness :
  returned (call_with_retry down_env "KPI" "kpi_agent" 3 20 4 "q" initial_state) =
    Ok (VStr "Error in KPI analysis after 3 attempts: timeout 2") ∧
  returned (run_agent down_env "q" [] "kpi_agent" (started down_env)) =
    Ok [("kpi_agent", VStr "Error in KPI analysis after 3 attempts: timeout 5")] ∧
  returned (run_agent down_env "q" [] "roi_agent" (started down_env)) =
    Ok [("roi_agent", VStr "Error in ROI analysis after 2 attempts: timeout 5")] ∧
  run_agent
    (mkEnv (λ _ c, match c with CallConstruct _ => Exn "no database" | _ => fine c end)
       (λ _, "Available Data Tables:") "/srv/report" one_value_per_step)
    "q" [] "sql_agent" initial_state =
    mkOutcome (Ok [("sql_agent", VDict [("error", VStr "no database")])])
      (set_tick 1 initial_state) [EvConstruct "sql_agent"; EvStore "sql_agent"].
Proof.
  split; [|split; [|split]].
  - apply (proj1 (proj2 (role_failure_is_isolated down_env)) "KPI" "kpi_agent" 3 20 4 "q"
             initial_state (λ i, "timeout " +:+ str_of_nat i)).
    + lia.
    + intros i Hi. reflexivity.
  - apply (proj1 (proj2 (proj2 (proj2 (role_failure_is_isolated down_env)))) "q" []
             (started down_env) 1
             (final (_get_agent down_env "kpi_agent" (started down_env)))
             (emitted (_get_agent down_env "kpi_agent" (started down_env)))
             (λ i, "timeout " +:+ str_of_nat (3 + i))).
    + vm_compute. reflexivity.
    + intros i Hi. reflexivity.
  - apply (proj1 (proj2 (proj2 (proj2 (proj2 (role_failure_is_isolated down_env))))) "q" []
             (started down_env) 1
             (final (_get_agent down_env "roi_agent" (started down_env)))
             (emitted (_get_agent down_env "roi_agent" (started down_env)))
             4 (λ i, "timeout " +:+ str_of_nat (4 + i))).
    + vm_compute. reflexivity.
    + right. split; [reflexivity|]. split.
      * apply (bool_decide_unpack _). vm_compute. exact I.
      * eexists. reflexivity.
    + intros i Hi. reflexivity.
  - apply (proj1 (proj2 (proj2 (proj2 (proj2 (proj2
             (role_failure_is_isolated
                (mkEnv (λ _ c, match c with
                               | CallConstruct _ => Exn "no database"
                               | _ => fine c
                               end)
                   (λ _, "Available Data Tables:") "/srv/report" one_value_per_step)))))))
             "q" [] "sql_agent" initial_state "no database").
    + apply (bool_decide_unpack _). vm_compute. exact I.
    + reflexivity.
    + reflexivity.
Defined.

(** ** The report *)

Lemma compiled_turns roles evs : Forall (turns_event roles) evs → compiled evs = [].
Proof.
  unfold compiled. induction 1 as [|ev evs (role & _ & Hev) _ IH]; [done|].
  destruct ev; simpl in *; done.
Qed.

Lemma compiled_construct role evs :
  Forall (λ ev, ev = EvConstruct role) evs → compiled evs = [].
Proof.
  unfold compiled. induction 1 as [|ev evs Hev _ IH]; [done|]. by subst ev.
Qed.

Lemma compiled_app evs1 evs2 : compiled (evs1 ++ evs2) = compiled evs1 ++ compiled evs2.
Proof. apply omap_app. Qed.

Lemma section_level_turns roles evs : Forall (turns_event roles) evs → section_level evs = [].
Proof.
  unfold section_level. induction 1 as [|ev evs (role & _ & Hev) _ IH]; [done|].
  destruct ev as [| | | |[]| |]; simpl in *; done.
Qed.

Lemma section_level_construct role evs :
  Forall (λ ev, ev = EvConstruct role) evs → section_level evs = [].
Proof.
  unfold section_level. induction 1 as [|ev evs Hev _ IH]; [done|]. by subst ev.
Qed.

Lemma section_level_app evs1 evs2 :
  section_level (evs1 ++ evs2) = section_level evs1 ++ section_level evs2.
Proof. apply omap_app. Qed.

Section ReportFacts.
Context (env : Env).

Lemma analyze_section_outcome (question section : string) (σ : State) :
  ∃ a σ' evs,
    analyze_section env question section σ = mkOutcome (Ok a) σ' evs ∧
    section_level evs = [] ∧
    match agents_for section with
    | [] => a = AError ("No agents defined for section: " +:+ section) section None
    | roles => ∃ text, a = AResult text section roles
    end.
Proof.
  destruct (agents_for section) as [|role rest] eqn:Hroles.
  - rewrite analyze_section_unmapped by done. by eexists _, _, _.
  - assert (section_agent_mapping !! section = Some (role :: rest)) as Hmap.
    { unfold agents_for in Hroles.
      destruct (section_agent_mapping !! section); simpl in Hroles; by subst. }
    destruct (analyze_section_mapped env question section _ σ Hmap)
      as (results & σc & σ' & evs & evc & Hrun & _ & _ & Hf & Hfc).
    rewrite Hrun. eexists _, _, _. split; [done|]. split; [|by eexists].
    rewrite !section_level_app, (section_level_turns _ _ Hf),
      (section_level_construct _ _ Hfc). done.
Qed.

Lemma report_section_outcome (input : dict string) (report_results : dict value)
    (errs : list string) (section question : string) (σ : State) :
  ∃ text σ' evs,
    report_section env input (report_results, errs) (section, question) σ =
      mkOutcome (Ok (dict_set section text report_results, errs ++ section_errors section))
        σ' (EvSection section :: evs ++ pause_after input section) ∧
    section_level evs = [] ∧
    (agents_for section = [] → text = VStr "").
Proof.
  destruct (analyze_section_outcome question section σ) as (a & σ' & evs & Hrun & Hlvl & Ha).
  unfold report_section, section_errors, pause_after, sleep.
  unfold try_catch, bind, log. rewrite Hrun.
  destruct (agents_for section) as [|role rest] eqn:Hroles.
  - subst a. exists (VStr ""), σ', evs. split; [|done].
    destruct (index_of section (dict_keys input) <? length input - 1); simpl;
      by rewrite ?app_nil_r.
  - destruct Ha as [text ->]. exists text, σ', evs. split; [|done].
    destruct (index_of section (dict_keys input) <? length input - 1); simpl;
      by rewrite ?app_nil_r.
Qed.

Lemma report_loop_cons (input : dict string) (item : string * string)
    (rest : list (string * string)) (acc : dict value * list string) :
  report_loop env input (item :: rest) acc =
    bind (report_section env input acc item) (report_loop env input rest).
Proof. done. Qed.

Lemma report_loop_total (input : dict string) (todo : list (string * string)) :
  ∀ acc σ, ∃ out, returned (report_loop env input todo acc σ) = Ok out.
Proof.
  induction todo as [|[section question] todo IH]; intros [rr errs] σ.
  - by eexists.
  - destruct (report_section_outcome input rr errs section question σ)
      as (text & σ' & evs & Hstep & _).
    rewrite report_loop_cons. unfold bind. rewrite Hstep, returned_prepend. apply IH.
Qed.

Lemma paused_between_cons (delay : nat) (s : string) (rest : list string) :
  paused_between delay (s :: rest) =
    EvSection s ::
      (if bool_decide (rest = []) then [] else [EvSleep BetweenSections delay]) ++
      paused_between delay rest.
Proof. by destruct rest. Qed.

Lemma report_loop_outcome (input : dict string) (todo : list (string * string)) :
  ∀ (done_ : list (string * string)) (rr : dict value) (errs : list string) (σ : State),
    input = done_ ++ todo →
    NoDup (dict_keys input) →
    dict_keys rr = dict_keys done_ →
    ∃ rr' σ' evs,
      report_loop env input todo (rr, errs) σ =
        mkOutcome (Ok (rr', errs ++ flat_map section_errors (dict_keys todo))) σ' evs ∧
      dict_keys rr' = dict_keys rr ++ dict_keys todo ∧
      section_level evs = paused_between 5 (dict_keys todo) ∧
      (∀ k, k ∉ dict_keys todo → dict_get k rr' = dict_get k rr) ∧
      (∀ s, s ∈ dict_keys todo → agents_for s = [] → dict_get s rr' = Some (VStr "")).
Proof.
  induction todo as [|[section question] todo IH]; intros done_ rr errs σ Hin Hnd Hrr.
  - exists rr, σ, []. simpl. unfold ret. rewrite !app_nil_r.
    repeat split; try done. intros s Hs. by apply elem_of_nil in Hs.
  - destruct (report_section_outcome input rr errs section question σ)
      as (text & σ1 & ev1 & Hstep & Hlvl & Htext).
    assert (dict_keys input = dict_keys done_ ++ section :: dict_keys todo) as Hkeys.
    { rewrite Hin. unfold dict_keys. by rewrite fmap_app. }
    assert ((section ∉ dict_keys done_) ∧ (section ∉ dict_keys todo)) as [Hfresh Hlater].
    { rewrite Hkeys in Hnd. apply NoDup_app in Hnd as (_ & Hdisj & Hnd).
      apply NoDup_cons in Hnd as [? _]. split; [|done].
      intros Hd. apply (Hdisj _ Hd). left. }
    destruct (IH (done_ ++ [(section, question)]) (dict_set section text rr)
                (errs ++ section_errors section) σ1)
      as (rr' & σ2 & ev2 & Hloop & Hk & Hl & Hframe & Hempty).
    { by rewrite <- app_assoc. }
    { done. }
    { rewrite dict_keys_set_fresh, Hrr by (by rewrite Hrr).
      unfold dict_keys. by rewrite fmap_app. }
    exists rr', σ2, ((EvSection section :: ev1 ++ pause_after input section) ++ ev2).
    split; [|split; [|split; [|split]]].
    + rewrite report_loop_cons. unfold bind. rewrite Hstep, Hloop. simpl.
      by rewrite <- app_assoc.
    + rewrite Hk, dict_keys_set_fresh by (by rewrite Hrr). by rewrite <- app_assoc.
    + change (dict_keys ((section, question) :: todo)) with (section :: dict_keys todo).
      rewrite paused_between_cons.
      change (EvSection section :: ev1 ++ pause_after input section)
        with ([EvSection section] ++ ev1 ++ pause_after input section).
      rewrite !section_level_app, Hlvl, Hl. simpl. f_equal. f_equal.
      unfold pause_after. rewrite Hkeys, index_of_app_fresh by done.
      assert (length input = length done_ + S (length todo)) as ->.
      { rewrite Hin, length_app. done. }
      unfold dict_keys. rewrite length_fmap.
      destruct todo as [|item todo]; simpl.
      * assert ((length done_ <? length done_ + 1 - 1) = false) as ->
          by (apply Nat.ltb_ge; lia). done.
      * assert ((length done_ <? length done_ + S (S (length todo)) - 1) = true) as ->
          by (apply Nat.ltb_lt; lia). done.
    + intros k Hk'. change (dict_keys ((section, question) :: todo))
        with (section :: dict_keys todo) in Hk'.
      apply not_elem_of_cons in Hk' as [Hne Hk'].
      rewrite Hframe by done. by apply dict_get_set_ne.
    + intros s Hs Hun. change (dict_keys ((section, question) :: todo))
        with (section :: dict_keys todo) in Hs.
      apply elem_of_cons in Hs as [->|Hs].
      * rewrite Hframe by done. rewrite dict_get_set_eq. by rewrite Htext.
      * by apply Hempty.
Qed.

End ReportFacts.

(** C8, as the code has it.  [generate_report] never raises.  On a
    dictionary of sections it works through every section in order and
    pauses 5 seconds between consecutive sections.  A section that fails,
    which is a section without agents, gets the entry
    ["Error in <section>: No agents defined for section: <section>"] in the
    list of errors and the empty string as its content, and the loop goes
    on with the next section. *)
Theorem generate_report_never_aborts (env : Env) (input : dict string) (σ : State) :
  (∃ rep, returned (generate_report env input σ) = Ok rep) ∧
  (NoDup (dict_keys input) →
   ∃ rep σ' evs,
     generate_report env input σ = mkOutcome (Ok rep) σ' evs ∧
     dict_keys (report_data rep) = dict_keys input ∧
     section_level evs = paused_between 5 (dict_keys input) ∧
     errors rep = flat_map section_errors (dict_keys input) ∧
     (∀ s, s ∈ dict_keys input → agents_for s = [] →
           dict_get s (report_data rep) = Some (VStr ""))).
Proof.
  split.
  - destruct (report_loop_total env input input ([], []) σ) as [out Hout].
    destruct (report_loop env input input ([], []) σ) as [[o|e] σ' evs] eqn:Hloop;
      simpl in Hout; [|done].
    unfold generate_report. rewrite (bind_ok _ _ _ _ _ _ Hloop). simpl. by eexists.
  - intros Hnd.
    destruct (report_loop_outcome env input input [] [] [] σ eq_refl Hnd eq_refl)
      as (rr & σ' & evs & Hloop & Hk & Hl & _ & Hempty).
    unfold generate_report. rewrite (bind_ok _ _ _ _ _ _ Hloop). simpl.
    eexists _, _, _. split; [done|]. simpl. rewrite app_nil_r. by repeat split.
Qed.

Lemma generate_report_never_aborts_witness :
  ∃ rep σ' evs,
    generate_report calm_env
      [("executive_summary", "What happened?"); ("unknown_section", "Anything else?")]
      (started calm_env) = mkOutcome (Ok rep) σ' evs ∧
    dict_keys (report_data rep) = ["executive_summary"; "unknown_section"] ∧
    section_level evs = paused_between 5 ["executive_summary"; "unknown_section"] ∧
    errors rep = flat_map section_errors ["executive_summary"; "unknown_section"] ∧
    (∀ s, s ∈ ["executive_summary"; "unknown_section"] → agents_for s = [] →
          dict_get s (report_data rep) = Some (VStr "")).
Proof.
  apply (proj2 (generate_report_never_aborts calm_env
                  [("executive_summary", "What happened?");
                   ("unknown_section", "Anything else?")]
                  (started calm_env))).
  apply (bool_decide_unpack _). vm_compute. exact I.
Defined.

(** C8, as stated, fails: the report for a section without agents has the
    error in its list of errors, and the empty string, not a text
    ["Error generating content: ..."], as the content of the section. *)
Lemma report_content_counterexample :
  let o := generate_report calm_env
             [("executive_summary", "What happened?"); ("unknown_section", "Anything else?")]
             (started calm_env) in
  ∃ rep, returned o = Ok rep ∧
    report_data rep = [("executive_summary", VStr "## Section"); ("unknown_section", VStr "")] ∧
    errors rep =
      ["Error in unknown_section: No agents defined for section: unknown_section"] ∧
    dict_get "unknown_section" (report_data rep) ≠
      Some (VStr "Error generating content: No agents defined for section: unknown_section").
Proof. vm_compute. eexists. repeat split. discriminate. Qed.

(** ** The supervisor's graph *)

Lemma worker_event_node role ev : worker_event role ev → node_event role ev.
Proof. destruct ev as [| | | |[]| |]; simpl; tauto. Qed.

Lemma stores_app evs1 evs2 : stores (evs1 ++ evs2) = stores evs1 ++ stores evs2.
Proof. apply omap_app. Qed.

Lemma constructions_app evs1 evs2 :
  constructions (evs1 ++ evs2) = constructions evs1 ++ constructions evs2.
Proof. apply omap_app. Qed.

Lemma constructions_nodes roles evs : Forall (nodes_event roles) evs → constructions evs = [].
Proof.
  unfold constructions. induction 1 as [|ev evs (role & _ & Hev) _ IH]; [done|].
  destruct ev; simpl in *; done.
Qed.

Lemma compiled_nodes roles evs : Forall (nodes_event roles) evs → compiled evs = [].
Proof.
  unfold compiled. induction 1 as [|ev evs (role & _ & Hev) _ IH]; [done|].
  destruct ev; simpl in *; done.
Qed.

Lemma invocations_app evs1 evs2 :
  invocations (evs1 ++ evs2) = invocations evs1 ++ invocations evs2.
Proof. apply omap_app. Qed.

Lemma invocations_nodes roles evs role :
  Forall (nodes_event roles) evs → role ∈ invocations evs → role ∈ roles.
Proof.
  unfold invocations. induction 1 as [|ev evs (r & Hr & Hev) _ IH]; simpl.
  - intros H. by apply elem_of_nil in H.
  - destruct ev; simpl in *; try done.
    rewrite elem_of_cons. intros [->|H]; [by subst | by apply IH].
Qed.

Lemma stores_nodes roles evs role :
  Forall (nodes_event roles) evs → role ∈ stores evs → role ∈ roles.
Proof.
  unfold stores. induction 1 as [|ev evs (r & Hr & Hev) _ IH]; simpl.
  - intros H. by apply elem_of_nil in H.
  - destruct ev; simpl in *; try done.
    rewrite elem_of_cons. intros [->|H]; [by subst | by apply IH].
Qed.

Lemma node_key_not_section (n : node) : node_key n ≠ "current_section".
Proof. by destruct n. Qed.

Lemma node_key_inj (n m : node) : node_key n = node_key m → n = m.
Proof. by destruct n, m. Qed.

Lemma node_role_inj (n m : node) : node_role n = node_role m → n = m.
Proof. by destruct n, m. Qed.

Section GraphFacts.
Context (env : Env).

Lemma emits_current_question (P : event → Prop) state : emits P (current_question state).
Proof. unfold current_question. repeat case_match; emits_step. Qed.

Lemma emits_node_call self n state :
  emits (worker_event (node_role n)) (node_call env self n state).
Proof.
  destruct n; simpl; (emits_step; [try apply emits_current_question|]).
  - apply emits_call_agent.
  - emits_step.
  - emits_step; [destruct a; [apply emits_get_schema_info | emits_step]|].
    emits_step; [apply emits_current_question | apply emits_call_agent].
  - apply emits_ROIAgent_invoke.
  - apply emits_call_agent.
  - apply emits_KPIAgent_invoke.
  - emits_step; [apply emits_call_agent|]. repeat case_match; emits_step.
Qed.

(** A node whose role is not required does nothing. *)
Lemma run_node_skipped self n state σ :
  node_role n ∉ mapping_get (dict_get_default "current_section" (VStr "") state) →
  run_node env self n state σ = mkOutcome (Ok state) σ [].
Proof. intros H. unfold run_node. by rewrite bool_decide_eq_false_2. Qed.

(** A node whose role is required stores one entry under its own key. *)
Lemma run_node_required self n state σ :
  node_role n ∈ mapping_get (dict_get_default "current_section" (VStr "") state) →
  ∃ entry σ' evs,
    run_node env self n state σ =
      mkOutcome (Ok (dict_set (node_key n) entry state)) σ' evs ∧
    stores evs = [node_role n] ∧ Forall (node_event (node_role n)) evs.
Proof.
  intros H. unfold run_node. rewrite bool_decide_eq_true_2 by done.
  pose proof (emits_node_call self n state σ) as Hc.
  unfold try_catch, bind.
  destruct (node_call env self n state σ) as [[result|e] σ1 ev1]; simpl in *;
    (eexists _, _, _; split; [done|]; split;
     [ rewrite stores_app, (stores_worker _ _ Hc); done
     | apply Forall_app; split;
       [ eapply Forall_impl; [done|]; apply worker_event_node
       | by repeat constructor ] ]).
Qed.

Lemma node_function_run_node self n : node_function env self n = run_node env self n.
Proof. by destruct n. Qed.

Lemma run_nodes_outcome self (section : string) (order : list node) (state : dict value) :
  dict_get "current_section" state = Some (VStr section) →
  (∀ n, node_key n ∈ dict_keys state) →
  ∀ σ, ∃ writes σ' evs,
    run_nodes env self order state σ = mkOutcome (Ok writes) σ' evs ∧
    stores evs = node_role <$> filter (required section) order ∧
    Forall (nodes_event (agents_for section)) evs ∧
    Forall2 (λ n w, dict_keys w = dict_keys state ∧
                    ∀ k, (required section n → k ≠ node_key n) →
                         dict_get k w = dict_get k state)
      order writes.
Proof.
  intros Hsec Hkeys.
  assert (mapping_get (dict_get_default "current_section" (VStr "") state) =
          agents_for section) as Hmap.
  { unfold dict_get_default. by rewrite Hsec. }
  induction order as [|n order IH]; intros σ.
  - exists [], σ, []. simpl. unfold ret. repeat split; constructor.
  - destruct (decide (required section n)) as [Hin|Hnin].
    + destruct (run_node_required self n state σ) as (entry & σ1 & ev1 & Hn & Hs & Hf);
        [by rewrite Hmap|].
      destruct (IH σ1) as (writes & σ2 & ev2 & Hrest & Hs2 & Hf2 & Hw).
      exists (dict_set (node_key n) entry state :: writes), σ2, (ev1 ++ ev2).
      split; [|split; [|split]].
      * simpl. unfold bind. rewrite node_function_run_node, Hn, Hrest.
        simpl. by rewrite app_nil_r.
      * rewrite filter_cons_True by done. by rewrite stores_app, Hs, Hs2.
      * apply Forall_app. split; [|done].
        eapply Forall_impl; [done|]. intros ev Hev. by exists (node_role n).
      * constructor; [|done]. split.
        -- by rewrite dict_keys_set_present.
        -- intros k Hk. apply dict_get_set_ne. by apply Hk.
    + destruct (IH σ) as (writes & σ2 & ev2 & Hrest & Hs2 & Hf2 & Hw).
      exists (state :: writes), σ2, ev2. split; [|split; [|split]]; try done.
      * simpl. unfold bind.
        rewrite node_function_run_node, run_node_skipped by (by rewrite Hmap).
        rewrite Hrest. simpl. by rewrite app_nil_r.
      * by rewrite filter_cons_False.
      * by constructor.
Qed.

Lemma compile_results_outcome self state σ :
  compile_results env self state σ =
    mkOutcome (Ok (dict_set "final_answer" (compiled_text env state σ) state))
      (set_tick (S (tick σ)) σ) [EvCompile state].
Proof.
  unfold compile_results, try_catch, bind. rewrite compile_outcome. simpl. done.
Qed.

(** The end of a step has no effect but its exception. *)
Lemma apply_writes_outcome state writes σ :
  ∃ r, apply_writes env state writes σ = mkOutcome r σ [].
Proof.
  unfold apply_writes. destruct (filter _ _); by eexists.
Qed.

(** A step of one node always goes through. *)
Lemma apply_writes_single state w σ :
  apply_writes env state [w] σ = mkOutcome (Ok (update state w)) σ [].
Proof.
  unfold apply_writes.
  assert (filter (λ key, 1 < writers key [w]) ([w] ≫= dict_keys) = []) as ->; [|done].
  induction ([w] ≫= dict_keys) as [|key keys IH]; [done|].
  rewrite filter_cons_False; [done|]. unfold writers.
  rewrite filter_cons. destruct (decide _); simpl; lia.
Qed.

(** A step of two nodes or more that all return the keys of the state
    they were handed is refused at the first of these keys. *)
Lemma apply_writes_conflict state key keys (writes : list (dict value)) σ :
  2 ≤ length writes →
  Forall (λ w, dict_keys w = key :: keys) writes →
  apply_writes env state writes σ = mkOutcome (Exn (invalid_update env key)) σ [].
Proof.
  intros Hlen Hkeys. unfold apply_writes.
  assert (writers key writes = length writes) as Hall.
  { unfold writers. clear Hlen.
    induction Hkeys as [|w writes Hw _ IH]; [done|].
    rewrite filter_cons_True; [simpl; by rewrite IH|].
    destruct w as [|[k v] w]; [done|]. simpl in Hw. injection Hw as -> _.
    simpl. rewrite String.eqb_refl. by eexists. }
  destruct writes as [|w writes]; [simpl in Hlen; lia|].
  apply Forall_cons in Hkeys as [Hw _].
  simpl. rewrite Hw. simpl.
  rewrite filter_cons_True by (rewrite Hall; lia). done.
Qed.

End GraphFacts.

Section SupervisorFacts.
Context (env : Env).

Lemma initial_AgentState_update (question section : string) :
  update (initial_AgentState question section) (initial_AgentState question section) =
    initial_AgentState question section.
Proof. reflexivity. Qed.

(** The worker nodes on the state that [analyze] starts from. *)
Lemma fan_out_outcome self (order : list node) (question section : string) (σ : State) :
  ∃ writes σ' evs,
    run_nodes env self order (initial_AgentState question section) σ =
      mkOutcome (Ok writes) σ' evs ∧
    stores evs = node_role <$> filter (required section) order ∧
    Forall (nodes_event (agents_for section)) evs ∧
    length writes = length order ∧
    Forall (λ w, dict_keys w = dict_keys (initial_AgentState question section) ∧
                 ∀ n, ¬ required section n → dict_get (node_key n) w = Some (VDict []))
      writes.
Proof.
  destruct (run_nodes_outcome env self section order (initial_AgentState question section))
    with (σ := σ) as (writes & σ1 & evs & Hrun & Hs & Hf & Hw).
  { done. }
  { intros n. destruct n; vm_compute; set_solver. }
  exists writes, σ1, evs. split; [done|split; [done|split; [done|split]]].
  - symmetry. by eapply Forall2_length.
  - clear Hrun Hs Hf. induction Hw as [|n w order writes [Hk Hframe] _ IH]; constructor; [|done].
    split; [done|]. intros m Hm. rewrite Hframe; [by destruct m|].
    intros Hn. destruct (decide (n = m)) as [->|Hne]; [done|].
    intros Heq. apply node_key_inj in Heq. by subst.
Qed.

(** What an analysis emits, whatever the number of nodes: the events of
    the worker nodes, and behind them at most the one call of the
    compiler. *)
Lemma analyze_events self (order : list node) (question section : string) (σ : State) :
  ∃ evs tail,
    emitted (analyze env self order question section σ) = evs ++ tail ∧
    stores evs = node_role <$> filter (required section) order ∧
    Forall (nodes_event (agents_for section)) evs ∧
    (tail = [] ∨ ∃ state, tail = [EvCompile state]).
Proof.
  destruct (fan_out_outcome self order question section σ)
    as (writes & σ1 & evs & Hrun & Hs & Hf & _).
  unfold analyze, workflow_invoke, supervisor, try_catch, bind, ret.
  rewrite apply_writes_single, initial_AgentState_update.
  cbv beta iota. rewrite Hrun. cbv beta iota.
  destruct (apply_writes_outcome env (initial_AgentState question section) writes σ1)
    as [[state|e] ->]; cbv beta iota.
  - rewrite compile_results_outcome. cbv beta iota.
    rewrite apply_writes_single. simpl.
    exists evs, [EvCompile state]. rewrite app_nil_r. eauto 10.
  - simpl. exists evs, []. rewrite !app_nil_r. eauto 10.
Qed.

(** The six nodes return the whole state each, and the engine refuses
    their writes: the analysis ends in its handler. *)
Lemma analyze_outcome self (order : list node) (question section : string) (σ : State) :
  2 ≤ length order →
  analyze env self order question section σ =
    mkOutcome
      (Ok (AError ("Error in analysis: " +:+ invalid_update env "messages") section
             (Some (agents_for section))))
      (final (run_nodes env self order (initial_AgentState question section) σ))
      (emitted (run_nodes env self order (initial_AgentState question section) σ)).
Proof.
  intros Hlen.
  destruct (fan_out_outcome self order question section σ)
    as (writes & σ1 & evs & Hrun & Hs & Hf & Hl & Hw).
  unfold analyze, workflow_invoke, supervisor, try_catch, bind, ret.
  rewrite apply_writes_single, initial_AgentState_update.
  cbv beta iota. rewrite Hrun. cbv beta iota.
  rewrite (apply_writes_conflict env _ "messages"
             (tail (dict_keys (initial_AgentState question section)))).
  - simpl. by rewrite !app_nil_r.
  - lia.
  - eapply Forall_impl; [done|]. by intros w [-> _].
Qed.

(** For a section without agents every worker node is skipped. *)
Lemma fan_out_without_agents self (order : list node) (question section : string)
    (σ : State) :
  agents_for section = [] →
  ∃ writes,
    run_nodes env self order (initial_AgentState question section) σ =
      mkOutcome (Ok writes) σ [].
Proof.
  intros Hnone. induction order as [|n order [writes IH]]; [by eexists|].
  eexists. simpl. unfold bind.
  rewrite node_function_run_node, run_node_skipped, IH; [done|].
  simpl. rewrite Hnone. apply not_elem_of_nil.
Qed.

Lemma construct_outcome (role : string) (σ : State) :
  construct env role σ =
    match world env (tick σ) (CallConstruct role) with
    | Ok _ =>
        mkOutcome (Ok (next_id σ))
          (set_next_id (S (next_id σ)) (set_tick (S (tick σ)) σ)) [EvConstruct role]
    | Exn e => mkOutcome (Exn e) (set_tick (S (tick σ)) σ) [EvConstruct role]
    end.
Proof.
  unfold construct. mred. by destruct (world env (tick σ) (CallConstruct role)).
Qed.

Lemma emits_store_table (P : event → Prop) name df : emits P (store_table name df).
Proof.
  unfold store_table, update_instance. repeat first [ emits_step | case_match ].
Qed.

Lemma emits_load_tables (P : event → Prop) csv_files : emits P (load_tables env csv_files).
Proof.
  induction csv_files as [|file rest IH]; simpl; [emits_step|].
  destruct file; repeat first [ done | apply emits_store_table | emits_step ].
Qed.

Lemma emits_get_data_manager path :
  emits (λ ev, ∃ p, ev = EvLoad p) (get_data_manager env path).
Proof.
  unfold get_data_manager, DataManager_call, DataManager_new, DataManager_init,
    _load_data, update_instance.
  repeat first [ apply emits_store_table | apply emits_load_tables
               | emits_step | case_match | by eexists ].
Qed.

Lemma constructions_load evs :
  Forall (λ ev, ∃ p, ev = EvLoad p) evs → constructions evs = [].
Proof.
  unfold constructions. induction 1 as [|ev evs [p ->] _ IH]; [done|]. done.
Qed.

(** Creating the supervisor builds all seven agents. *)
Lemma SupervisorAgent_init_constructs path σ self σ' evs :
  SupervisorAgent_init env path σ = mkOutcome (Ok self) σ' evs →
  constructions evs = known_agents.
Proof.
  unfold SupervisorAgent_init, CompilerAgent_init.
  pose proof (emits_get_data_manager path σ) as Hdm.
  unfold bind at 1.
  destruct (get_data_manager env path σ) as [[id|e] σ0 ev0]; simpl in Hdm; [|done].
  apply constructions_load in Hdm.
  repeat (unfold bind at 1; rewrite construct_outcome;
          destruct (world env _ (CallConstruct _)); simpl; [|done]).
  mred. intros [= _ _ <-].
  rewrite constructions_app, Hdm. done.
Qed.

End SupervisorFacts.

(** ** Claims on the supervisor *)

(** C1, as the code has it.  (1) A worker node whose role the section does
    not require returns the state as it got it: no call, no store, no
    event, only the membership test.  (2) A whole analysis constructs
    nothing, and a role that the section does not require is neither
    invoked nor stored.  (3) The workers are all built before, whatever
    section is analysed later: creating the supervisor constructs the six
    workers and the compiler. *)
Theorem unrequired_nodes_are_skipped (env : Env) :
  (∀ self n state σ,
     node_role n ∉ mapping_get (dict_get_default "current_section" (VStr "") state) →
     run_node env self n state σ = mkOutcome (Ok state) σ []) ∧
  (∀ self order question section σ,
     let evs := emitted (analyze env self order question section σ) in
     constructions evs = [] ∧
     ∀ role, role ∉ agents_for section →
             (role ∉ invocations evs) ∧ (role ∉ stores evs)) ∧
  (∀ path σ self σ' evs,
     SupervisorAgent_init env path σ = mkOutcome (Ok self) σ' evs →
     constructions evs = known_agents).
Proof.
  split; [|split].
  - intros self n state σ. apply run_node_skipped.
  - intros self order question section σ.
    destruct (analyze_events env self order question section σ)
      as (evs & tail & Hrun & _ & Hf & Htail).
    rewrite Hrun. cbv zeta.
    assert (constructions tail = [] ∧ invocations tail = [] ∧ stores tail = [])
      as (Hc & Hi & Hst).
    { by destruct Htail as [->|[state ->]]. }
    split.
    + by rewrite constructions_app, (constructions_nodes _ _ Hf), Hc.
    + intros role Hrole. split; intros Hin; apply Hrole.
      * rewrite invocations_app, Hi, app_nil_r in Hin. by eapply invocations_nodes.
      * rewrite stores_app, Hst, app_nil_r in Hin. by eapply stores_nodes.
  - intros path σ self σ' evs. apply SupervisorAgent_init_constructs.
Qed.

Lemma unrequired_nodes_are_skipped_witness :
  run_node calm_env (mkSupervisor 1 2 3 4 5 6 7) sql
    (initial_AgentState "What is the total revenue for the year?" "executive_summary")
    initial_state =
    mkOutcome
      (Ok (initial_AgentState "What is the total revenue for the year?" "executive_summary"))
      initial_state [] ∧
  constructions (emitted (SupervisorAgent_init calm_env None initial_state)) = known_agents.
Proof.
  split.
  - apply (proj1 (unrequired_nodes_are_skipped calm_env)).
    apply (bool_decide_unpack _). vm_compute. exact I.
  - eapply (proj2 (proj2 (unrequired_nodes_are_skipped calm_env)) None initial_state).
    vm_compute. reflexivity.
Defined.

(** C1, as stated, fails: the run of [main] for [executive_summary], which
    does not require the SQL agent, has constructed it. *)
Lemma eager_construction_counterexample :
("sql_agent" ∉ agents_for "executive_summary") ∧
  "sql_agent" ∈ constructions (emitted (main calm_env all_nodes initial_state)).
Proof.
  split.
  - apply (bool_decide_unpack _). by vm_compute.
  - apply (bool_decide_unpack _). by vm_compute.
Qed.

(** ** The state handed to the compiler *)

Lemma result_key_node (role key : string) :
  result_key role = Some key → ∃ n, role = node_role n ∧ key = node_key n.
Proof.
  unfold result_key.
  repeat (destruct (String.eqb role _) eqn:E;
          [apply String.eqb_eq in E as ->; intros [= <-]|clear E]);
    [by exists exploration | by exists sql | by exists roi | by exists budget
    | by exists kpi | by exists market | done].
Qed.

Lemma result_key_inj (role role' key : string) :
  result_key role = Some key → result_key role' = Some key → role = role'.
Proof.
  intros (n & -> & ->)%result_key_node (m & -> & Hk)%result_key_node.
  apply node_key_inj in Hk. by subst.
Qed.

Lemma compilation_keys (results : dict value) :
  ∀ state : dict value,
    NoDup (dict_keys state ++ omap result_key (dict_keys results)) →
    dict_keys (fold_left add_result results state) =
      dict_keys state ++ omap result_key (dict_keys results).
Proof.
  induction results as [|[role v] results IH]; intros state Hnd; simpl.
  - by rewrite app_nil_r.
  - unfold add_result at 2. simpl in *.
    destruct (result_key role) as [key|] eqn:Hkey; simpl in *; [|by apply IH].
    assert (key ∉ dict_keys state) as Hfresh.
    { apply NoDup_app in Hnd as (_ & Hdisj & _). intros Hin.
      apply (Hdisj _ Hin). left. }
    rewrite IH; rewrite dict_keys_set_fresh by done; rewrite <- app_assoc; done.
Qed.

Lemma table_keys :
  Forall (λ row : string * list string,
            NoDup (["current_section"; "current_question"] ++ omap result_key row.2))
    section_agent_table.
Proof. apply (bool_decide_unpack _). by vm_compute. Qed.

Lemma compilation_state_keys (section question : string) (roles : list string)
    (results : dict value) :
  section_agent_mapping !! section = Some roles →
  dict_keys results = roles →
  dict_keys (compilation_state section question results) =
    ["current_section"; "current_question"] ++ omap result_key roles.
Proof.
  intros Hmap Hk. unfold compilation_state.
  pose proof table_keys as Hrows. rewrite Forall_forall in Hrows.
  specialize (Hrows _ (mapping_lookup _ _ Hmap)). simpl in Hrows.
  rewrite compilation_keys; rewrite Hk; done.
Qed.

(** C7, as the code has it.  Sequential scheduler: the state handed to the
    compiler holds the section, the question and one entry for each role
    of the section's list; each of these roles is written exactly once,
    and a worker role outside the list has no entry.  Supervisor's graph:
    the result of each required role that has a node in the schedule is
    stored exactly once, by its own node, and no result is stored for
    another role; but the graph state holds all six result keys from the
    start, and every worker node returns the whole of it: in the
    dictionary that a node returns, a role that the section does not
    require has the empty dictionary it was initialised with. *)
Theorem aggregated_state_entries (env : Env) :
  (∀ question section roles σ,
     section_agent_mapping !! section = Some roles →
     let evs := emitted (analyze_section env question section σ) in
     ∃ state,
       compiled evs = [state] ∧
       stores evs = roles ∧ NoDup roles ∧
       dict_keys state = ["current_section"; "current_question"] ++ omap result_key roles ∧
       ∀ role key, role ∉ roles → result_key role = Some key → dict_get key state = None) ∧
  (∀ self order question section σ,
     NoDup order →
     let evs := emitted (analyze env self order question section σ) in
     stores evs = node_role <$> filter (required section) order ∧
     NoDup (stores evs) ∧
     (∀ role, role ∈ stores evs → role ∈ agents_for section) ∧
     ∃ writes,
       returned (run_nodes env self order (initial_AgentState question section) σ) =
         Ok writes ∧
       length writes = length order ∧
       ∀ state, state ∈ writes →
         dict_keys state = dict_keys (initial_AgentState question section) ∧
         ∀ n, ¬ required section n → dict_get (node_key n) state = Some (VDict [])).
Proof.
  split.
  - intros question section roles σ Hmap.
    destruct (analyze_section_mapped env question section roles σ Hmap)
      as (results & σc & σ' & evs & evc & Hrun & Hk & Hs & Hf & Hfc).
    destruct (mapping_roles _ _ Hmap) as (_ & Hnd & _).
    rewrite Hrun. simpl. exists (compilation_state section question results).
    pose proof (compilation_state_keys section question roles results Hmap Hk) as Hkeys.
    split; [|split; [|split; [done|split; [done|]]]].
    + by rewrite !compiled_app, (compiled_turns _ _ Hf), (compiled_construct _ _ Hfc).
    + rewrite !stores_app, Hs, (stores_construct _ _ Hfc). simpl. by rewrite app_nil_r.
    + intros role key Hrole Hkey. apply dict_get_None. rewrite Hkeys.
      destruct (result_key_node _ _ Hkey) as (n & -> & ->).
      rewrite elem_of_app. intros [Hin|Hin].
      * destruct n; simpl in Hin;
          repeat (apply elem_of_cons in Hin as [Hin|Hin]; [done|]);
          by apply elem_of_nil in Hin.
      * apply list_elem_of_omap in Hin as (r & Hr & Hrk).
        apply Hrole. by rewrite (result_key_inj _ _ _ Hkey Hrk).
  - intros self order question section σ Hnd.
    destruct (analyze_events env self order question section σ)
      as (evs & tail & Hrun & Hs & Hf & Htail).
    rewrite Hrun. cbv zeta.
    assert (stores (evs ++ tail) = stores evs) as ->.
    { rewrite stores_app. destruct Htail as [->|[state ->]]; simpl; by rewrite app_nil_r. }
    split; [done|split; [|split]].
    + rewrite Hs. apply NoDup_fmap_2; [|by apply NoDup_filter].
      intros n m. apply node_role_inj.
    + intros role Hin. by eapply stores_nodes.
    + destruct (fan_out_outcome env self order question section σ)
        as (writes & σ1 & evs1 & Hfan & _ & _ & Hlen & Hw).
      exists writes. rewrite Hfan. split; [done|split; [done|]].
      intros state Hin. rewrite Forall_forall in Hw. by apply Hw.
Qed.

Lemma aggregated_state_entries_witness :
  (∃ state,
     compiled (emitted (analyze_section calm_env "What drove growth?" "performance_drivers"
                          (started calm_env))) = [state] ∧
     stores (emitted (analyze_section calm_env "What drove growth?" "performance_drivers"
                        (started calm_env))) = ["kpi_agent"; "sql_agent"] ∧
     NoDup ["kpi_agent"; "sql_agent"] ∧
     dict_keys state =
       ["current_section"; "current_question"] ++
       omap result_key ["kpi_agent"; "sql_agent"] ∧
     ∀ role key, role ∉ ["kpi_agent"; "sql_agent"] → result_key role = Some key →
                 dict_get key state = None) ∧
  (stores (emitted (analyze calm_env (mkSupervisor 1 2 3 4 5 6 7) all_nodes
                      "What drove growth?" "performance_drivers" (started calm_env)))
     = node_role <$> filter (required "performance_drivers") all_nodes ∧
   NoDup (stores (emitted (analyze calm_env (mkSupervisor 1 2 3 4 5 6 7) all_nodes
                      "What drove growth?" "performance_drivers" (started calm_env)))) ∧
   (∀ role, role ∈ stores (emitted (analyze calm_env (mkSupervisor 1 2 3 4 5 6 7) all_nodes
                      "What drove growth?" "performance_drivers" (started calm_env))) →
            role ∈ agents_for "performance_drivers") ∧
   ∃ writes,
     returned (run_nodes calm_env (mkSupervisor 1 2 3 4 5 6 7) all_nodes
                 (initial_AgentState "What drove growth?" "performance_drivers")
                 (started calm_env)) = Ok writes ∧
     length writes = length all_nodes ∧
     ∀ state, state ∈ writes →
       dict_keys state =
         dict_keys (initial_AgentState "What drove growth?" "performance_drivers") ∧
       ∀ n, ¬ required "performance_drivers" n →
            dict_get (node_key n) state = Some (VDict [])).
Proof.
  split.
  - apply (proj1 (aggregated_state_entries calm_env) "What drove growth?"
             "performance_drivers" ["kpi_agent"; "sql_agent"] (started calm_env)).
    reflexivity.
  - apply (proj2 (aggregated_state_entries calm_env) (mkSupervisor 1 2 3 4 5 6 7) all_nodes
             "What drove growth?" "performance_drivers" (started calm_env)).
    apply (bool_decide_unpack _). vm_compute. exact I.
Defined.

(** C7, as stated, fails for the supervisor's graph: in the run of [main]
    for [executive_summary], which does not require the SQL agent, each of
    the six worker nodes returns a state with an entry for it, the empty
    dictionary; and no state is handed to the compiler. *)
Lemma empty_entry_counterexample :
  ("sql_agent" ∉ agents_for "executive_summary") ∧
  compiled (emitted (main calm_env all_nodes initial_state)) = [] ∧
  ∃ self σ evs,
    SupervisorAgent_init calm_env None initial_state = mkOutcome (Ok self) σ evs ∧
    ∃ writes,
      returned (run_nodes calm_env self all_nodes
                  (initial_AgentState "What is the total revenue for the year?"
                     "executive_summary") σ) = Ok writes ∧
      length writes = 6 ∧
      Forall (λ state, dict_get "sql_results" state = Some (VDict [])) writes.
Proof.
  split; [apply (bool_decide_unpack _); by vm_compute|].
  split; [by vm_compute|].
  eexists _, _, _. split; [by vm_compute|].
  eexists. split; [by vm_compute|]. split; [done|].
  repeat constructor.
Qed.

(** * Further properties *)

(** ** What the prompt of the compiler holds *)

Lemma processed_truthy (v : value) : truthy (processed v) = true.
Proof. unfold processed. by destruct (truthy v) eqn:E. Qed.

Lemma processed_cases (v : value) :
  (truthy v = true ∧ processed v = v) ∨ (truthy v = false ∧ processed v = no_results).
Proof. unfold processed. destruct (truthy v); [left | right]; done. Qed.

Lemma prompt_results_nodes (state : dict value) :
  prompt_results state =
    (λ n, processed (dict_get_default (node_key n) (VDict []) state)) <$> all_nodes.
Proof. done. Qed.

(** X1. The prompt never carries an empty result.  Each of the six slots
    holds the entry stored under the node's key when that entry is
    non-empty, and the text ["No results available"] when the key is
    missing or its entry is empty ([None], [""], [[]], [{}]). *)
Theorem prompt_results_never_empty (state : dict value) :
  Forall2
    (λ n v,
       truthy v = true ∧
       match dict_get (node_key n) state with
       | Some entry => if truthy entry then v = entry else v = no_results
       | None => v = no_results
       end)
    all_nodes (prompt_results state).
Proof.
  rewrite prompt_results_nodes. apply Forall2_fmap_r, Forall_Forall2_diag, Forall_forall.
  intros n _. split; [apply processed_truthy|].
  unfold dict_get_default, processed.
  destruct (dict_get (node_key n) state) as [entry|]; [|done].
  by destruct (truthy entry).
Qed.

Lemma result_key_node_role (n : node) : result_key (node_role n) = Some (node_key n).
Proof. by destruct n. Qed.

Lemma add_results_other (results : dict value) :
  ∀ (state : dict value) (k : string),
    (∀ role, result_key role ≠ Some k) →
    dict_get k (fold_left add_result results state) = dict_get k state.
Proof.
  induction results as [|[role v] results IH]; intros state k Hk; simpl; [done|].
  rewrite IH by done. unfold add_result. simpl.
  destruct (result_key role) as [key|] eqn:Hkey; [|done].
  apply dict_get_set_ne. intros ->. by apply (Hk role).
Qed.

Lemma add_results_node (results : dict value) :
  ∀ (state : dict value) (n : node),
    NoDup (dict_keys results) →
    dict_get (node_key n) (fold_left add_result results state) =
      match dict_get (node_role n) results with
      | Some v => Some v
      | None => dict_get (node_key n) state
      end.
Proof.
  induction results as [|[role v] results IH]; intros state n Hnd; simpl; [done|].
  simpl in Hnd. apply NoDup_cons in Hnd as [Hfresh Hnd].
  rewrite IH by done. unfold add_result. simpl.
  destruct (String.eqb (node_role n) role) eqn:E.
  - apply String.eqb_eq in E as <-.
    apply dict_get_None in Hfresh. rewrite Hfresh.
    by rewrite result_key_node_role, dict_get_set_eq.
  - apply String.eqb_neq in E.
    destruct (dict_get (node_role n) results); [done|].
    destruct (result_key role) as [key|] eqn:Hkey; [|done].
    apply dict_get_set_ne. intros <-. apply E.
    eapply result_key_inj; [apply result_key_node_role | done].
Qed.

(** X2. What the sequential scheduler stored reaches the prompt.  For a
    dictionary of results (its keys are distinct, as in every Python
    dictionary) the merge call made on [compilation_state] carries the
    section and the question, and in the slot of each role the entry
    stored under the role's name when it is non-empty, a failure entry
    [{"error": ...}] included, and ["No results available"] for a role
    without entry or with an empty one.  Entries under other names
    (["compiler_agent"], say) reach no slot. *)
Theorem stored_results_reach_prompt (section question : string) (results : dict value) :
  NoDup (dict_keys results) →
  merge_call (compilation_state section question results) =
    CallLLM (VStr section) (VStr question)
      ((λ n, processed (dict_get_default (node_role n) (VDict []) results)) <$> all_nodes).
Proof.
  intros Hnd. unfold merge_call, compilation_state, dict_get_default.
  rewrite !add_results_other
    by (intros role (n & _ & Hn)%result_key_node; by destruct n).
  change "exploration_results" with (node_key exploration).
  change "sql_results" with (node_key sql).
  change "roi_results" with (node_key roi).
  change "budget_results" with (node_key budget).
  change "kpi_results" with (node_key kpi).
  change "market_results" with (node_key market).
  rewrite !add_results_node by done. simpl.
  by repeat (case_match; simplify_eq).
Qed.

Lemma stored_results_reach_prompt_witness :
  merge_call
    (compilation_state "marketing_roi" "What is the ROI?"
       [("roi_agent", VDict [("error", VStr "connection reset")]);
        ("sql_agent", VStr "")]) =
    CallLLM (VStr "marketing_roi") (VStr "What is the ROI?")
      ((λ n, processed
               (dict_get_default (node_role n) (VDict [])
                  [("roi_agent", VDict [("error", VStr "connection reset")]);
                   ("sql_agent", VStr "")])) <$> all_nodes).
Proof.
  apply (stored_results_reach_prompt "marketing_roi" "What is the ROI?"
           [("roi_agent", VDict [("error", VStr "connection reset")]);
            ("sql_agent", VStr "")]).
  apply (bool_decide_unpack _). vm_compute. exact I.
Defined.

(** ** The retry loop in every world *)

Section RetryBounds.
Context (env : Env) (name role : string) (max_attempts base_delay inst : nat)
  (query : string).

Lemma failed_attempts_S (first k : nat) :
  failed_attempts role inst base_delay first (S k) =
    EvInvoke role inst :: EvSleep RetryBackoff (base_delay * first) ::
      failed_attempts role inst base_delay (S first) k.
Proof. done. Qed.

Lemma retry_loop_shape :
  ∀ fuel attempt σ,
    attempt < max_attempts → max_attempts ≤ attempt + fuel →
    ∃ k v,
      attempt + k < max_attempts ∧
      retry_loop env name role max_attempts base_delay inst query fuel attempt σ =
        mkOutcome (Ok v) (set_tick (tick σ + k + 1) σ)
          (failed_attempts role inst base_delay (S attempt) k ++ [EvInvoke role inst]) ∧
      (∀ i, i < k → ∃ e, world env (tick σ + i) (CallExecutor role inst query) = Exn e) ∧
      match world env (tick σ + k) (CallExecutor role inst query) with
      | Ok r => v = r
      | Exn e => attempt + k + 1 = max_attempts ∧ v = VStr (retry_error name max_attempts e)
      end.
Proof.
  induction fuel as [|fuel IH]; intros attempt σ Hlt Hfuel; [lia|].
  simpl. assert ((attempt <? max_attempts) = true) as -> by (apply Nat.ltb_lt; lia).
  destruct (world env (tick σ) (CallExecutor role inst query)) as [r|e] eqn:Hw.
  - exists 0, r. rewrite !Nat.add_0_r, Hw. split; [lia|]. split; [|split; [lia|done]].
    mred. rewrite Hw. simpl. do 2 f_equal. lia.
  - destruct (S attempt <? max_attempts) eqn:Hnext.
    + apply Nat.ltb_lt in Hnext.
      destruct (IH (S attempt) (set_tick (S (tick σ)) σ)) as (k & v & Hk & Hrun & Hfail & Hlast);
        [lia | lia |].
      exists (S k), v. split; [lia|]. split; [|split].
      * rewrite failed_attempts_S. mred. rewrite Hw. simpl.
        rewrite Hrun. simpl. rewrite set_tick_set_tick. do 2 f_equal. lia.
      * intros [|i] Hi; [rewrite Nat.add_0_r; by eexists|].
        destruct (Hfail i ltac:(lia)) as [e' He']. exists e'.
        simpl in He'. by replace (tick σ + S i) with (S (tick σ + i)) by lia.
      * simpl in Hlast. replace (tick σ + S k) with (S (tick σ + k)) by lia.
        destruct (world env (S (tick σ + k)) _); [done|].
        destruct Hlast as [? ?]. split; [lia|done].
    + apply Nat.ltb_ge in Hnext.
      exists 0, (VStr (retry_error name max_attempts e)).
      rewrite !Nat.add_0_r, Hw. split; [lia|]. split; [|split; [lia|split; [lia|done]]].
      mred. rewrite Hw. simpl. do 2 f_equal. lia.
Qed.

End RetryBounds.

(** X3. The retry loop of [ROIAgent.invoke] and [KPIAgent.invoke] in every
    world.  With [max_attempts > 0] the call never raises.  It makes
    [k + 1] attempts for some [k < max_attempts]: the first [k] raise and
    are each followed by a wait of [base_delay * j] after the [j]-th
    failure, the last one is followed by no wait.  The result is the answer
    of the last attempt, or, when that one raised too, all [max_attempts]
    attempts are used up and the result is the error text with the last
    exception.  So there are at most [max_attempts] attempts, and the waits
    add up to at most [base_delay * (1 + ... + (max_attempts - 1))]. *)
Theorem retry_attempts_bounded
    (env : Env) (name role : string) (max_attempts base_delay inst : nat)
    (query : string) (σ : State) :
  0 < max_attempts →
  let o := call_with_retry env name role max_attempts base_delay inst query σ in
  ∃ k v,
    k < max_attempts ∧
    returned o = Ok v ∧
    emitted o = failed_attempts role inst base_delay 1 k ++ [EvInvoke role inst] ∧
    tick (final o) = tick σ + k + 1 ∧
    (∀ i, i < k → ∃ e, world env (tick σ + i) (CallExecutor role inst query) = Exn e) ∧
    match world env (tick σ + k) (CallExecutor role inst query) with
    | Ok r => v = r
    | Exn e => k + 1 = max_attempts ∧ v = VStr (retry_error name max_attempts e)
    end ∧
    length (invocations (emitted o)) ≤ max_attempts ∧
    2 * sum_list (backoffs (emitted o)) ≤ base_delay * (max_attempts * (max_attempts - 1)).
Proof.
  intros Hpos o. subst o. unfold call_with_retry.
  destruct (retry_loop_shape env name role max_attempts base_delay inst query
              max_attempts 0 σ) as (k & v & Hk & Hrun & Hfail & Hlast); [lia | lia |].
  exists k, v. rewrite Hrun. simpl.
  split; [done|]. split; [done|]. split; [done|]. split; [done|]. split; [done|].
  split; [done|].
  rewrite invocations_failed_attempts, backoffs_failed_attempts, length_replicate.
  split; [lia|].
  pose proof (sum_linear base_delay 1 k) as Hsum.
  destruct max_attempts as [|m]; [lia|].
  replace (S m - 1) with m by lia.
  assert (k ≤ m) as Hkm by lia.
  assert (k * (k + 1) ≤ S m * m) by nia.
  nia.
Qed.

Lemma retry_attempts_bounded_witness :
  let o := call_with_retry down_env "KPI" "kpi_agent" 3 20 7 "q" initial_state in
  ∃ k v,
    k < 3 ∧
    returned o = Ok v ∧
    emitted o = failed_attempts "kpi_agent" 7 20 1 k ++ [EvInvoke "kpi_agent" 7] ∧
    tick (final o) = tick initial_state + k + 1 ∧
    (∀ i, i < k →
       ∃ e, world down_env (tick initial_state + i) (CallExecutor "kpi_agent" 7 "q") = Exn e) ∧
    match world down_env (tick initial_state + k) (CallExecutor "kpi_agent" 7 "q") with
    | Ok r => v = r
    | Exn e => k + 1 = 3 ∧ v = VStr (retry_error "KPI" 3 e)
    end ∧
    length (invocations (emitted o)) ≤ 3 ∧
    2 * sum_list (backoffs (emitted o)) ≤ 20 * (3 * (3 - 1)).
Proof.
  apply (retry_attempts_bounded down_env "KPI" "kpi_agent" 3 20 7 "q" initial_state).
  lia.
Defined.

(** ** The executor of the ROI agent *)

Section ExecutorFacts.
Context (env : Env).

Lemma call_with_retry_state (name role : string) (max_attempts base_delay inst : nat)
    (query : string) (σ : State) :
  0 < max_attempts →
  ∃ v k,
    call_with_retry env name role max_attempts base_delay inst query σ =
      mkOutcome (Ok v) (set_tick (tick σ + k + 1) σ)
        (failed_attempts role inst base_delay 1 k ++ [EvInvoke role inst]).
Proof.
  intros Hpos. unfold call_with_retry.
  destruct (retry_loop_shape env name role max_attempts base_delay inst query
              max_attempts 0 σ) as (k & v & _ & Hrun & _); [lia | lia |].
  by exists v, k.
Qed.

Lemma ROIAgent_invoke_outcome (inst : nat) (query : string) (σ : State) :
  ROIAgent_invoke env inst query σ =
    if bool_decide (inst ∈ executors σ) then
      call_with_retry env "ROI" "roi_agent" 2 5 inst query σ
    else
      match world env (tick σ) (CallCreateExecutor inst) with
      | Ok _ =>
          call_with_retry env "ROI" "roi_agent" 2 5 inst query
            (set_executors ({[inst]} ∪ executors σ) (set_tick (S (tick σ)) σ))
      | Exn e => mkOutcome (Exn e) (set_tick (S (tick σ)) σ) []
      end.
Proof.
  unfold ROIAgent_invoke, bind, gets, ret, modify, ext. cbn beta iota.
  case_bool_decide.
  - by rewrite !prepend_nil.
  - destruct (world env (tick σ) (CallCreateExecutor inst)) as [ex|e]; [|done].
    cbn beta iota. by rewrite !prepend_nil.
Qed.

End ExecutorFacts.

(** X4. [ROIAgent.invoke] creates its executor on first use only.  The
    call raises exactly when the object has no executor yet and creating
    it raises; then no attempt at the analysis is made, nothing is waited
    for, and the object still has no executor.  In every other case the
    call returns, the object has its executor afterwards, and no other
    object gains or loses one. *)
Theorem roi_executor_on_first_use (env : Env) (inst : nat) (query : string) (σ : State) :
  let o := ROIAgent_invoke env inst query σ in
  match returned o with
  | Exn e =>
      (inst ∉ executors σ) ∧
      world env (tick σ) (CallCreateExecutor inst) = Exn e ∧
      emitted o = [] ∧
      executors (final o) = executors σ
  | Ok _ =>
      (inst ∈ executors σ ∨ ∃ ex, world env (tick σ) (CallCreateExecutor inst) = Ok ex) ∧
      executors (final o) = {[inst]} ∪ executors σ ∧
      invocations (emitted o) ≠ []
  end.
Proof.
  intros o. subst o. rewrite ROIAgent_invoke_outcome.
  case_bool_decide as Hin.
  - destruct (call_with_retry_state env "ROI" "roi_agent" 2 5 inst query σ)
      as (v & k & Hrun); [lia|].
    rewrite Hrun. simpl.
    split; [by left|]. split.
    { symmetry. apply subseteq_union_1_L. by apply singleton_subseteq_l. }
    rewrite invocations_failed_attempts. done.
  - destruct (world env (tick σ) (CallCreateExecutor inst)) as [ex|e] eqn:Hw; [|done].
    destruct (call_with_retry_state env "ROI" "roi_agent" 2 5 inst query
                (set_executors ({[inst]} ∪ executors σ) (set_tick (S (tick σ)) σ)))
      as (v & k & Hrun); [lia|].
    rewrite Hrun. simpl.
    split; [right; by eexists|]. split; [done|].
    rewrite invocations_failed_attempts. done.
Qed.

(** ** The numbers of the report *)

Lemma section_errors_length (sections : list string) :
  length (flat_map section_errors sections) =
    length (filter (λ s, agents_for s = []) sections).
Proof.
  induction sections as [|s sections IH]; [done|].
  simpl. rewrite length_app, IH. unfold section_errors.
  destruct (agents_for s) as [|role rest] eqn:Hs.
  - rewrite filter_cons_True by done. done.
  - rewrite filter_cons_False by (by rewrite Hs). done.
Qed.

Lemma filter_split_length (sections : list string) :
  length sections =
    length (filter (λ s, agents_for s ≠ []) sections) +
    length (filter (λ s, agents_for s = []) sections).
Proof.
  induction sections as [|s sections IH]; [done|].
  destruct (decide (agents_for s = [])) as [Hs|Hs].
  - rewrite (filter_cons_True (λ s, agents_for s = [])) by done.
    rewrite (filter_cons_False (λ s, agents_for s ≠ [])) by (by intros ?).
    simpl. lia.
  - rewrite (filter_cons_False (λ s, agents_for s = [])) by done.
    rewrite (filter_cons_True (λ s, agents_for s ≠ [])) by done.
    simpl. lia.
Qed.

(** X5. The numbers in the metadata of a report depend on the table of
    sections only, not on what the workers or the LLM did.
    [total_sections] is the number of sections asked for,
    [successful_sections] the number of those that have agents in
    [section_agent_mapping], and the list of errors has one entry for each
    of the others.  A section whose workers all failed and whose merge
    call raised still counts as successful. *)
Theorem report_counts_mapped_sections (env : Env) (input : dict string) (σ : State) :
  NoDup (dict_keys input) →
  ∃ rep,
    returned (generate_report env input σ) = Ok rep ∧
    total_sections rep = length input ∧
    successful_sections rep =
      Z.of_nat (length (filter (λ s, agents_for s ≠ []) (dict_keys input))) ∧
    length (errors rep) = length (filter (λ s, agents_for s = []) (dict_keys input)).
Proof.
  intros Hnd.
  destruct (report_loop_outcome env input input [] [] [] σ eq_refl Hnd eq_refl)
    as (rr & σ' & evs & Hloop & _).
  unfold generate_report. rewrite (bind_ok _ _ _ _ _ _ Hloop). simpl.
  eexists. split; [done|]. simpl.
  rewrite section_errors_length.
  pose proof (filter_split_length (dict_keys input)) as Hsplit.
  unfold dict_keys in Hsplit at 1. rewrite length_fmap in Hsplit.
  split; [done|]. split; [lia|done].
Qed.

Lemma report_counts_mapped_sections_witness :
  ∃ rep,
    returned
      (generate_report blackout_env
         [("marketing_roi", "What is the ROI?"); ("appendix", "Anything else?")]
         (started blackout_env)) = Ok rep ∧
    total_sections rep =
      length [("marketing_roi", "What is the ROI?"); ("appendix", "Anything else?")] ∧
    successful_sections rep =
      Z.of_nat (length (filter (λ s, agents_for s ≠ []) ["marketing_roi"; "appendix"])) ∧
    length (errors rep) =
      length (filter (λ s, agents_for s = []) ["marketing_roi"; "appendix"]).
Proof.
  apply (report_counts_mapped_sections blackout_env
           [("marketing_roi", "What is the ROI?"); ("appendix", "Anything else?")]
           (started blackout_env)).
  apply (bool_decide_unpack _). vm_compute. exact I.
Defined.

(** ** The nodes of the graph *)

(** X6. A worker node of the supervisor's graph never raises, whatever
    its agent does, and writes under its own key only: every other entry
    of the state it returns is the one it was given, and when its key is
    present, as it is in the state that [analyze] starts from, the state
    keeps its keys in their order. *)
Theorem node_writes_its_own_key (env : Env) (self : SupervisorAgent) (n : node)
    (state : dict value) (σ : State) :
  ∃ state',
    returned (node_function env self n state σ) = Ok state' ∧
    (∀ k, k ≠ node_key n → dict_get k state' = dict_get k state) ∧
    (node_key n ∈ dict_keys state → dict_keys state' = dict_keys state) ∧
    (dict_get (node_key n) state' = dict_get (node_key n) state ∨
     stores (emitted (node_function env self n state σ)) = [node_role n]).
Proof.
  rewrite node_function_run_node.
  destruct (decide (node_role n ∈
              mapping_get (dict_get_default "current_section" (VStr "") state))) as [Hin|Hnin].
  - destruct (run_node_required env self n state σ Hin) as (entry & σ' & evs & Hrun & Hs & _).
    rewrite Hrun. simpl. eexists. split; [done|]. split; [|split].
    + intros k Hk. by apply dict_get_set_ne.
    + apply dict_keys_set_present.
    + by right.
  - rewrite run_node_skipped by done. simpl. eexists. split; [done|].
    split; [done|]. split; [done|]. by left.
Qed.

(** X7. An analysis of the supervisor never reaches the compiler.  The
    six worker nodes run in one step and each returns the whole state
    dictionary; [AgentState] declares no reducer, so the graph engine
    refuses their writes at the first key, [messages], and [analyze]
    answers from its handler with the error dictionary: for every section
    and question and in every world, after the required workers have done
    their work and stored it, and with no state handed to the compiler.
    For a section without agents, where [analyze_section] of the
    sequential scheduler answers ["No agents defined for section: ..."],
    the supervisor gives the engine's error all the same, without a call
    or an event. *)
Theorem supervisor_never_reaches_the_compiler (env : Env) (self : SupervisorAgent)
    (order : list node) (question section : string) (σ : State) :
  order ≡ₚ all_nodes →
  let o := analyze env self order question section σ in
  returned o =
    Ok (AError ("Error in analysis: " +:+ invalid_update env "messages") section
          (Some (agents_for section))) ∧
  compiled (emitted o) = [] ∧
  stores (emitted o) = node_role <$> filter (required section) order ∧
  (agents_for section = [] →
   final o = σ ∧ emitted o = [] ∧
   analyze_section env question section σ =
     mkOutcome (Ok (AError ("No agents defined for section: " +:+ section) section None))
       σ []).
Proof.
  intros Hperm. cbv zeta.
  rewrite analyze_outcome by (rewrite (Permutation_length Hperm); simpl; lia).
  destruct (fan_out_outcome env self order question section σ)
    as (writes & σ1 & evs & Hrun & Hs & Hf & _).
  rewrite Hrun. simpl. split; [done|]. split; [by eapply compiled_nodes|].
  split; [done|]. intros Hnone.
  destruct (fan_out_without_agents env self order question section σ Hnone) as [ws Hws].
  rewrite Hws in Hrun. injection Hrun as _ <- <-.
  split; [done|]. split; [done|]. by apply analyze_section_unmapped.
Qed.

Lemma supervisor_never_reaches_the_compiler_witness :
  let o := analyze calm_env (mkSupervisor 1 2 3 4 5 6 7) all_nodes "Anything else?" "appendix"
             (started calm_env) in
  returned o =
    Ok (AError ("Error in analysis: " +:+ invalid_update calm_env "messages") "appendix"
          (Some (agents_for "appendix"))) ∧
  compiled (emitted o) = [] ∧
  stores (emitted o) = node_role <$> filter (required "appendix") all_nodes ∧
  (agents_for "appendix" = [] →
   final o = started calm_env ∧ emitted o = [] ∧
   analyze_section calm_env "Anything else?" "appendix" (started calm_env) =
     mkOutcome
       (Ok (AError ("No agents defined for section: " +:+ "appendix") "appendix" None))
       (started calm_env) []).
Proof.
  apply (supervisor_never_reaches_the_compiler calm_env (mkSupervisor 1 2 3 4 5 6 7)
           all_nodes "Anything else?" "appendix" (started calm_env)).
  reflexivity.
Defined.

(** ** The table of agents over a whole report *)

Section Quiet.
Context {A B : Type}.

Lemma quiet_ret (a : A) : quiet (ret a).
Proof. by intros σ. Qed.

Lemma quiet_raise (msg : string) : quiet (raise (A := A) msg).
Proof. by intros σ. Qed.

Lemma quiet_gets (f : State → A) : quiet (gets f).
Proof. by intros σ. Qed.

Lemma quiet_modify (f : State → State) :
  (∀ σ, _agents (f σ) = _agents σ) → quiet (modify f).
Proof. intros Hf σ. by split; [|apply Hf]. Qed.

Lemma quiet_fresh : quiet fresh.
Proof. by intros σ. Qed.

Lemma quiet_ext (env : Env) (c : ext_call) : quiet (ext env c).
Proof. by intros σ. Qed.

Lemma quiet_log (ev : event) : constructions [ev] = [] → quiet (log ev).
Proof. by intros Hev σ. Qed.

Lemma quiet_bind (m : M A) (k : A → M B) :
  quiet m → (∀ a, quiet (k a)) → quiet (bind m k).
Proof.
  intros Hm Hk σ. unfold bind. destruct (Hm σ) as [Hc Ha].
  destruct (m σ) as [[a|e] σ' evs]; simpl in *; [|done].
  destruct (Hk a σ') as [Hc' Ha'].
  rewrite emitted_prepend, final_prepend, constructions_app, Hc, Hc', Ha', Ha. done.
Qed.

Lemma quiet_try_catch (m : M A) (h : string → M A) :
  quiet m → (∀ e, quiet (h e)) → quiet (try_catch m h).
Proof.
  intros Hm Hh σ. unfold try_catch. destruct (Hm σ) as [Hc Ha].
  destruct (m σ) as [[a|e] σ' evs]; simpl in *; [done|].
  destruct (Hh e σ') as [Hc' Ha'].
  rewrite emitted_prepend, final_prepend, constructions_app, Hc, Hc', Ha', Ha. done.
Qed.

Lemma quiet_builds_missing (m : M A) : quiet m → builds_missing m.
Proof.
  intros Hm σ. destruct (Hm σ) as [Hc Ha]. simpl. rewrite Hc, Ha.
  split; [constructor|]. split; [|done].
  intros role Hin. by apply elem_of_nil in Hin.
Qed.

Lemma builds_missing_bind (m : M A) (k : A → M B) :
  builds_missing m → (∀ a, builds_missing (k a)) → builds_missing (bind m k).
Proof.
  intros Hm Hk σ. unfold bind. destruct (Hm σ) as (Hnd & Hb & Hmono).
  destruct (m σ) as [[a|e] σ' evs]; simpl in *; [|done].
  destruct (Hk a σ') as (Hnd' & Hb' & Hmono'). simpl in *.
  rewrite emitted_prepend, final_prepend, constructions_app.
  split; [|split].
  - apply NoDup_app. split; [done|]. split; [|done].
    intros role Hin Hin'. destruct (Hb role Hin) as (_ & _ & Hsome).
    destruct (Hb' role Hin') as (_ & Hnone & _). rewrite Hnone in Hsome.
    by destruct Hsome.
  - intros role [Hin|Hin]%elem_of_app.
    + destruct (Hb role Hin) as (Hk1 & Hnone & Hsome). auto.
    + destruct (Hb' role Hin) as (Hk1 & Hnone & Hsome).
      split; [done|]. split; [|done].
      destruct (_agents σ !! role) eqn:Hσ; [|done].
      specialize (Hmono role ltac:(by eexists)). rewrite Hnone in Hmono.
      by destruct Hmono.
  - auto.
Qed.

Lemma builds_missing_try_catch (m : M A) (h : string → M A) :
  builds_missing m → (∀ e, builds_missing (h e)) → builds_missing (try_catch m h).
Proof.
  intros Hm Hh σ. unfold try_catch. destruct (Hm σ) as (Hnd & Hb & Hmono).
  destruct (m σ) as [[a|e] σ' evs]; simpl in *; [done|].
  destruct (Hh e σ') as (Hnd' & Hb' & Hmono'). simpl in *.
  rewrite emitted_prepend, final_prepend, constructions_app.
  split; [|split].
  - apply NoDup_app. split; [done|]. split; [|done].
    intros role Hin Hin'. destruct (Hb role Hin) as (_ & _ & Hsome).
    destruct (Hb' role Hin') as (_ & Hnone & _). rewrite Hnone in Hsome.
    by destruct Hsome.
  - intros role [Hin|Hin]%elem_of_app.
    + destruct (Hb role Hin) as (Hk1 & Hnone & Hsome). auto.
    + destruct (Hb' role Hin) as (Hk1 & Hnone & Hsome).
      split; [done|]. split; [|done].
      destruct (_agents σ !! role) eqn:Hσ; [|done].
      specialize (Hmono role ltac:(by eexists)). rewrite Hnone in Hmono.
      by destruct Hmono.
  - auto.
Qed.

End Quiet.

Ltac quiet_step :=
  first
    [ apply quiet_ret | apply quiet_raise | apply quiet_gets | apply quiet_fresh
    | apply quiet_ext
    | apply quiet_log; reflexivity
    | apply quiet_modify; intros ?; reflexivity
    | apply quiet_bind; [|intros ?]
    | apply quiet_try_catch; [|intros ?] ].

Section RegistryOverReport.
Context (env : Env).

Lemma quiet_retry_loop name role max_attempts base_delay inst q fuel attempt :
  quiet (retry_loop env name role max_attempts base_delay inst q fuel attempt).
Proof.
  revert attempt. induction fuel as [|fuel IH]; intros attempt; simpl.
  - quiet_step.
  - destruct (attempt <? max_attempts)%nat; [|quiet_step].
    quiet_step; [repeat quiet_step|].
    destruct (S attempt <? max_attempts)%nat; [|quiet_step].
    unfold sleep. quiet_step; [quiet_step | apply IH].
Qed.

Lemma quiet_invoke_pattern role agent q : quiet (invoke_pattern env role agent q).
Proof.
  unfold invoke_pattern, agent_invoke, call_agent, compile_str, get_schema_info,
    ROIAgent_invoke, KPIAgent_invoke, call_with_retry.
  repeat first [ apply quiet_retry_loop | quiet_step | case_match ].
Qed.

Lemma quiet_compile state : quiet (compile env state).
Proof. unfold compile. repeat quiet_step. Qed.

Lemma builds_missing_get_agent role :
  factories_succeed env → builds_missing (_get_agent env role).
Proof.
  intros Hfact σ. unfold _get_agent, bind, gets. simpl.
  destruct (_agents σ !! role) as [agent|] eqn:Hrole; simpl.
  { split; [constructor|]. split; [|done]. intros r Hr. by apply elem_of_nil in Hr. }
  unfold build_agent. case_bool_decide as Hw.
  - rewrite construct_outcome. destruct (Hfact (tick σ) role) as [agent ->]. simpl.
    split; [apply NoDup_singleton|]. split.
    + intros r ->%list_elem_of_singleton.
      split; [apply elem_of_app; by left|]. split; [done|].
      rewrite lookup_insert_eq. by eexists.
    + intros r Hr. destruct (decide (r = role)) as [->|Hne].
      * rewrite lookup_insert_eq. by eexists.
      * by rewrite lookup_insert_ne.
  - destruct (String.eqb role "compiler_agent") eqn:E; simpl.
    + apply String.eqb_eq in E as ->. unfold CompilerAgent_init. mred.
      split; [apply NoDup_singleton|]. split.
      * intros r ->%list_elem_of_singleton.
        split; [apply elem_of_app; right; by left|]. split; [done|].
        rewrite lookup_insert_eq. by eexists.
      * intros r Hr. destruct (decide (r = "compiler_agent")) as [->|Hne].
        -- rewrite lookup_insert_eq. by eexists.
        -- by rewrite lookup_insert_ne.
    + split; [constructor|]. split; [|done].
      intros r Hr. by apply elem_of_nil in Hr.
Qed.

Lemma builds_missing_run_agents question roles :
  factories_succeed env →
  ∀ results, builds_missing (run_agents env question roles results).
Proof.
  intros Hfact. induction roles as [|role roles IH]; intros results; simpl.
  - apply quiet_builds_missing. quiet_step.
  - apply builds_missing_bind; [|done].
    unfold run_agent. apply builds_missing_try_catch.
    + apply builds_missing_bind; [by apply builds_missing_get_agent|].
      intros agent. apply quiet_builds_missing.
      unfold sleep. quiet_step; [apply quiet_invoke_pattern|]. repeat quiet_step.
    + intros e. apply quiet_builds_missing. repeat quiet_step.
Qed.

Lemma builds_missing_analyze_section question section :
  factories_succeed env → builds_missing (analyze_section env question section).
Proof.
  intros Hfact. unfold analyze_section. apply builds_missing_try_catch.
  - destruct (agents_for section) as [|role roles].
    + apply quiet_builds_missing. quiet_step.
    + apply builds_missing_bind; [by apply builds_missing_run_agents|].
      intros results. apply builds_missing_bind; [by apply builds_missing_get_agent|].
      intros compiler. apply quiet_builds_missing.
      quiet_step; [apply quiet_compile | quiet_step].
  - intros e. apply quiet_builds_missing. quiet_step.
Qed.

Lemma builds_missing_report_loop input todo :
  factories_succeed env →
  ∀ acc, builds_missing (report_loop env input todo acc).
Proof.
  intros Hfact. induction todo as [|[section question] todo IH]; intros [rr errs]; simpl.
  - apply quiet_builds_missing. quiet_step.
  - apply builds_missing_bind; [|intros acc; apply IH].
    apply builds_missing_bind; [apply quiet_builds_missing; quiet_step|].
    intros _. apply builds_missing_try_catch.
    + apply builds_missing_bind; [by apply builds_missing_analyze_section|].
      intros result. apply quiet_builds_missing.
      quiet_step; [|quiet_step].
      case_match; [unfold sleep|]; quiet_step.
    + intros e. apply quiet_builds_missing. quiet_step.
Qed.

End RegistryOverReport.

(** X8. Over a whole report the sequential scheduler builds each agent at
    most once.  When no factory raises, the agents built during
    [generate_report] are pairwise distinct, so at most seven; each of
    them was missing from the table when the report started and is in it
    when the report ends, and an agent that was in the table is never
    built again, however many sections use it. *)
Theorem report_builds_each_agent_once (env : Env) (input : dict string) (σ : State) :
  factories_succeed env →
  let o := generate_report env input σ in
  NoDup (constructions (emitted o)) ∧
  length (constructions (emitted o)) ≤ 7 ∧
  (∀ role, role ∈ constructions (emitted o) →
     role ∈ known_agents ∧ _agents σ !! role = None ∧ is_Some (_agents (final o) !! role)) ∧
  (∀ role, is_Some (_agents σ !! role) →
     (role ∉ constructions (emitted o)) ∧ is_Some (_agents (final o) !! role)).
Proof.
  intros Hfact o.
  assert (builds_missing (generate_report env input)) as Hgen.
  { unfold generate_report. apply builds_missing_bind.
    - by apply builds_missing_report_loop.
    - intros out. apply quiet_builds_missing. quiet_step. }
  destruct (Hgen σ) as (Hnd & Hb & Hmono). fold o in Hnd, Hb, Hmono.
  split; [done|]. split; [|split; [done|]].
  - change 7 with (length known_agents). apply submseteq_length.
    apply NoDup_submseteq; [done|]. intros role Hin. by apply Hb.
  - intros role Hsome. split; [|by apply Hmono].
    intros Hin. destruct (Hb role Hin) as (_ & Hnone & _). rewrite Hnone in Hsome.
    by destruct Hsome.
Qed.

Lemma report_builds_each_agent_once_witness :
  let o := generate_report calm_env
             [("marketing_performance", "What worked?"); ("marketing_roi", "What is the ROI?")]
             (started calm_env) in
  NoDup (constructions (emitted o)) ∧
  length (constructions (emitted o)) ≤ 7 ∧
  (∀ role, role ∈ constructions (emitted o) →
     role ∈ known_agents ∧ _agents (started calm_env) !! role = None ∧
     is_Some (_agents (final o) !! role)) ∧
  (∀ role, is_Some (_agents (started calm_env) !! role) →
     (role ∉ constructions (emitted o)) ∧ is_Some (_agents (final o) !! role)).
Proof.
  apply (report_builds_each_agent_once calm_env
           [("marketing_performance", "What worked?"); ("marketing_roi", "What is the ROI?")]
           (started calm_env)).
  intros n role. exists (VStr "ok"). reflexivity.
Defined.

(** ** The budget agent *)

Section BudgetFacts.
Context (env : Env) (table_match : string → option string).

Lemma budget_tables_outcome (σ : State) :
  tick (final (budget_tables σ)) = tick σ ∧ emitted (budget_tables σ) = [] ∧
  ∀ tables, returned (budget_tables σ) = Ok tables →
    ∃ dm frames, _instance σ = Some dm ∧ dataframes dm = VDict frames ∧
                 tables = dict_keys frames.
Proof.
  unfold budget_tables, bind, gets. simpl.
  destruct (_instance σ) as [dm|]; simpl; [|done].
  destruct (dataframes dm) as [| | |frames] eqn:Hf; simpl; try done.
  split; [done|]. split; [done|]. intros tables [= <-]. by exists dm, frames.
Qed.

End BudgetFacts.



(** X10. [BudgetAgent.invoke] never raises, whatever the data and the
    analysis do: every exception becomes the text of the result.  The
    analysis with pandas is run at most once, and only for a query that
    contains the word [table] and for a table, the one named in the query
    or else [Master], that the data manager has loaded. *)
Theorem budget_agent_never_raises (env : Env) (table_match : string → option string)
    (inst : nat) (query : string) (σ : State) :
  let o := BudgetAgent_invoke env table_match inst query σ in
  (∃ v, returned o = Ok v) ∧
  emitted o = [EvInvoke "budget_agent" inst] ∧
  tick (final o) ≤ S (tick σ) ∧
  (tick (final o) = S (tick σ) →
   contains "table" (lower query) = true ∧
   ∃ dm frames,
     _instance σ = Some dm ∧ dataframes dm = VDict frames ∧
     default "Master" (table_match query) ∈ dict_keys frames).
Proof.
  intros o.
  assert (∃ v σ',
            o = mkOutcome (Ok v) σ' [EvInvoke "budget_agent" inst] ∧
            (σ' = σ ∨
             (σ' = set_tick (S (tick σ)) σ ∧ contains "table" (lower query) = true ∧
              ∃ dm frames,
                _instance σ = Some dm ∧ dataframes dm = VDict frames ∧
                default "Master" (table_match query) ∈ dict_keys frames))) as Ho.
  { subst o. unfold BudgetAgent_invoke.
    destruct (contains "table" (lower query)) eqn:Hq; simpl;
      [|mred; eexists _, _; split; [done|by left]].
    unfold bind at 1. unfold log at 1. simpl. unfold try_catch, bind at 1.
    unfold budget_tables, bind, gets. simpl.
    destruct (_instance σ) as [dm|] eqn:Hi; simpl;
      [|eexists _, _; split; [done|by left]].
    destruct (dataframes dm) as [| | |frames] eqn:Hf; simpl;
      try (eexists _, _; split; [done|by left]).
    case_bool_decide as Hin; simpl; [|eexists _, _; split; [done|by left]].
    unfold ext.
    destruct (world env (tick σ) _) as [v|e]; simpl;
      (eexists _, _; split; [done|]; right; split; [done|]; split; [done|]);
      exists dm, frames; (split; [done|]); (split; [done|]);
      by destruct (table_match query). }
  destruct Ho as (v & σ' & -> & Hσ'). simpl.
  split; [by eexists|]. split; [done|].
  destruct Hσ' as [->|(-> & Hq & Hdm)]; simpl.
  - split; lia.
  - done.
Qed.

(** ** The choice of sections *)

Lemma split_nonempty (sep : ascii) (s : string) : split sep s ≠ [].
Proof.
  destruct s as [|c s]; simpl; [done|].
  destruct (Ascii.eqb c sep); [done|]. by destruct (split sep s).
Qed.

Lemma py_index_elem_of {A} (l : list A) (i : Z) (x : A) :
  py_index l i = Some x → x ∈ l.
Proof.
  unfold py_index. repeat case_match; try done; apply list_elem_of_lookup_2.
Qed.

Lemma mapM_nonempty {A B} (f : A → option B) (l : list A) (k : list B) :
  mapM f l = Some k → l ≠ [] → k ≠ [].
Proof.
  intros Hm Hl Hk. apply length_mapM in Hm. subst k. by destruct l.
Qed.

(** X11. [get_user_selected_sections] never returns an empty selection,
    and it returns names of [section_questions] only: whatever the user
    typed, and whatever [strip] and [int] make of it, the sections to
    generate are known sections, at least one of them. *)
Theorem selection_is_known_and_not_empty (strip : string → string)
    (int : string → option Z) (line : string) :
  get_user_selected_sections strip int line ≠ [] ∧
  Forall (λ section, section ∈ dict_keys section_questions)
    (get_user_selected_sections strip int line).
Proof.
  assert (Forall (λ section, section ∈ dict_keys section_questions)
            (dict_keys section_questions)) as Hall by (by apply Forall_forall).
  unfold get_user_selected_sections.
  destruct (String.eqb (lower (strip line)) "all"); [done|].
  destruct (mapM (λ idx, int (strip idx)) (split "," (strip line)))
    as [selected_indices|] eqn:Hints; [|done].
  destruct (mapM _ selected_indices) as [selected_sections|] eqn:Hsecs; [|done].
  split.
  - eapply mapM_nonempty; [done|]. eapply mapM_nonempty; [done|]. apply split_nonempty.
  - apply mapM_Some in Hsecs. clear -Hsecs.
    induction Hsecs as [|i section indices sections Hi _ IH]; constructor; [|done].
    by eapply py_index_elem_of.
Qed.

Lemma py_index_sections (i : Z) :
  py_index (dict_keys section_questions) (i - 1) =
    if bool_decide (-6 ≤ i ≤ 7)%Z
    then dict_keys section_questions !! Z.to_nat ((i - 1) `mod` 7)
    else None.
Proof.
  case_bool_decide as Hi.
  - assert (∃ n, n < 14 ∧ i = (Z.of_nat n - 6)%Z) as (n & Hn & ->).
    { exists (Z.to_nat (i + 6)). lia. }
    do 14 (destruct n as [|n]; [reflexivity|]). lia.
  - unfold py_index. simpl.
    destruct (0 <=? i - 1)%Z eqn:E1.
    + apply Z.leb_le in E1. apply lookup_ge_None_2. simpl. lia.
    + apply Z.leb_gt in E1. destruct (- Z.of_nat 7 <=? i - 1)%Z eqn:E2; [|done].
      apply Z.leb_le in E2. lia.
Qed.

(** X12. The numbers of a selection are list indices of Python.  When
    the line is not ["all"] and every piece between commas is a number, a
    number from 1 to 7 selects the section at that place, 0 selects the
    last section and [-k] the section [k] places before the last: the
    number [i] selects the section at place [(i - 1) mod 7].  A number
    outside [-6 .. 7] makes the selection all seven sections. *)
Theorem selection_numbers_wrap_around (strip : string → string)
    (int : string → option Z) (line : string) (numbers : list Z) :
  lower (strip line) ≠ "all" →
  mapM (λ idx, int (strip idx)) (split "," (strip line)) = Some numbers →
  get_user_selected_sections strip int line =
    if bool_decide (Forall (λ i, -6 ≤ i ≤ 7)%Z numbers)
    then (λ i, default "" (dict_keys section_questions !! Z.to_nat ((i - 1) `mod` 7)))
           <$> numbers
    else dict_keys section_questions.
Proof.
  intros Hall Hnum. unfold get_user_selected_sections.
  apply String.eqb_neq in Hall. rewrite Hall, Hnum. clear.
  case_bool_decide as Hr.
  - assert (mapM (λ idx, py_index (dict_keys section_questions) (idx - 1)%Z) numbers =
            Some ((λ i, default "" (dict_keys section_questions !!
                                      Z.to_nat ((i - 1) `mod` 7))) <$> numbers)) as ->; [|done].
    apply mapM_Some. induction Hr as [|i indices Hi _ IH]; constructor; [|done].
    rewrite py_index_sections, bool_decide_eq_true_2 by done.
    destruct (dict_keys section_questions !! Z.to_nat ((i - 1) `mod` 7)) eqn:E; [done|].
    apply lookup_ge_None_1 in E.
    change (length (dict_keys section_questions)) with 7 in E.
    pose proof (Z.mod_pos_bound (i - 1) 7 ltac:(lia)). lia.
  - destruct (mapM _ numbers) as [sections|] eqn:Hm; [|done].
    exfalso. apply Hr. clear Hr. apply mapM_Some in Hm.
    induction Hm as [|i x indices k Hi _ IH]; constructor; [|done].
    rewrite py_index_sections in Hi. by case_bool_decide.
Qed.

Lemma selection_numbers_wrap_around_witness :
  get_user_selected_sections (λ s, s)
    (λ s, if String.eqb s "0" then Some 0%Z else if String.eqb s "2" then Some 2%Z else None)
    "0,2" =
    if bool_decide (Forall (λ i, -6 ≤ i ≤ 7)%Z [0%Z; 2%Z])
    then (λ i, default "" (dict_keys section_questions !! Z.to_nat ((i - 1) `mod` 7)))
           <$> [0%Z; 2%Z]
    else dict_keys section_questions.
Proof.
  apply (selection_numbers_wrap_around (λ s, s)
           (λ s, if String.eqb s "0" then Some 0%Z
                 else if String.eqb s "2" then Some 2%Z else None)
           "0,2" [0%Z; 2%Z]).
  - vm_compute. discriminate.
  - reflexivity.
Defined.

(** ** The drivers *)

Section KpiDriver.
Context (env : Env).

Lemma KPIAgent_invoke_outcome (agent : nat) (query : string) (σ : State) :
  ∃ v k,
    k < 3 ∧
    KPIAgent_invoke env agent query σ =
      mkOutcome (Ok v) (set_tick (tick σ + k + 1) σ)
        (failed_attempts "kpi_agent" agent 20 1 k ++ [EvInvoke "kpi_agent" agent]).
Proof.
  unfold KPIAgent_invoke, call_with_retry.
  destruct (retry_loop_shape env "KPI" "kpi_agent" 3 20 agent query 3 0 σ)
    as (k & v & Hk & Hrun & _); [lia | lia |].
  exists v, k. split; [lia|done].
Qed.

Lemma run_analyses_outcome (agent : nat) (analyses : list string) :
  ∀ (todo : list string) (i : nat) (d : Desk) (σ : State),
    i + length todo = length analyses →
    ∃ σ' evs,
      run_analyses env agent i todo analyses d σ =
        (mkOutcome (Ok tt) σ' evs,
         set_naps (naps d ++ replicate (length todo - 1) 30) d) ∧
      Forall (worker_event "kpi_agent") evs ∧
      length todo ≤ length (invocations evs) ≤ 3 * length todo.
Proof.
  induction todo as [|analysis todo IH]; intros i d σ Hlen.
  - exists σ, []. simpl. rewrite app_nil_r. destruct d.
    split; [done|]. split; [constructor|]. simpl. lia.
  - destruct (KPIAgent_invoke_outcome agent analysis σ) as (v & k & Hk & Hrun).
    pose proof (emits_KPIAgent_invoke env agent analysis σ) as Hev.
    destruct (IH (S i)
                (if i <? length analyses - 1 then set_naps (naps d ++ [30]) d else d)
                (set_tick (tick σ + k + 1) σ)) as (σ' & evs & Hrest & Hf & Hn).
    { simpl in Hlen. lia. }
    rewrite Hrun in Hev. simpl in Hev.
    eexists σ', (_ ++ evs). split; [|split].
    + simpl. unfold dbind at 1, dtry, dbind at 1, lift. rewrite Hrun. simpl.
      destruct (i <? length analyses - 1) eqn:Hi; unfold nap, dmodify, dret;
        simpl; rewrite ?app_nil_r; rewrite Hrest; simpl.
      * apply Nat.ltb_lt in Hi. f_equal. destruct d as [fs ns rd sc].
        unfold set_naps. simpl. f_equal. rewrite Nat.sub_0_r.
        destruct (length todo) as [|n] eqn:Hn'; [simpl in Hlen; lia|].
        simpl. by rewrite Nat.sub_0_r, <- app_assoc.
      * apply Nat.ltb_ge in Hi. f_equal.
        destruct (length todo) as [|n] eqn:Hn'; [|simpl in Hlen; lia].
        simpl. by rewrite !app_nil_r.
    + apply Forall_app. split; [done|done].
    + rewrite invocations_app, length_app, invocations_failed_attempts, length_replicate.
      simpl. lia.
Qed.

End KpiDriver.

(** X13. [run_all_analyses] of the KPI agent never takes its error path.
    Because [KPIAgent.invoke] turns every failure into a text, the three
    analyses are always all run, the driver waits 30 seconds after the
    first and after the second and never the 45 seconds of its [except]
    branch, and it returns without raising; the agent's executor is called
    between three and nine times. *)
Theorem kpi_run_all_never_waits_for_an_error (env : Env) (agent : nat)
    (d : Desk) (σ : State) :
  ∃ σ' evs,
    run_all_analyses env agent d σ =
      (mkOutcome (Ok tt) σ' evs, set_naps (naps d ++ [30; 30]) d) ∧
    Forall (worker_event "kpi_agent") evs ∧
    3 ≤ length (invocations evs) ≤ 9.
Proof.
  destruct (run_analyses_outcome env agent kpi_analyses kpi_analyses 0 d σ eq_refl)
    as (σ' & evs & Hrun & Hf & Hn).
  exists σ', evs. split; [done|]. split; [done|]. simpl in Hn. lia.
Qed.

(** ** Strings and the desk *)

Lemma append_assoc (s1 s2 s3 : string) : (s1 +:+ s2) +:+ s3 = s1 +:+ (s2 +:+ s3).
Proof.
  induction s1 as [|c s1 IH]; [done|].
  change (String c ((s1 +:+ s2) +:+ s3) = String c (s1 +:+ (s2 +:+ s3))).
  by rewrite IH.
Qed.

Lemma append_nil_r (s : string) : s +:+ "" = s.
Proof.
  induction s as [|c s IH]; [done|].
  change (String c (s +:+ "") = String c s). by rewrite IH.
Qed.

Lemma extends_refl (p : path) (d : Desk) : extends p "" [] d d.
Proof. unfold extends. by rewrite append_nil_r, app_nil_r. Qed.

Lemma extends_trans (p : path) (t1 t2 : string) (n1 n2 : list nat) (d d1 d2 : Desk) :
  extends p t1 n1 d d1 → extends p t2 n2 d1 d2 → extends p (t1 +:+ t2) (n1 ++ n2) d d2.
Proof.
  intros (Hc1 & Hf1 & Hn1) (Hc2 & Hf2 & Hn2). split; [|split].
  - by rewrite Hc2, Hc1, append_assoc.
  - intros q Hq. by rewrite Hf2, Hf1.
  - by rewrite Hn2, Hn1, app_assoc.
Qed.

Lemma extends_readings (p : path) (t : string) (n : list nat) (d d' : Desk) (k : nat) :
  extends p t n d d' → extends p t n d (set_readings k d').
Proof. done. Qed.

Lemma rendered_app (rd1 rd2 : dict string) :
  rendered (rd1 ++ rd2) = rendered rd1 +:+ rendered rd2.
Proof.
  induction rd1 as [|[s c] rd1 IH]; [done|].
  simpl. by rewrite IH, !append_assoc.
Qed.

Section SelectedSections.
Context (env : Env) (rss : nat → N) (json_dumps : dict string → string).
Context (google_api_key : option string) (llm : BaseChatModel).

Lemma SequentialGenerator_init_outcome (data_path : option string) (σ : State) :
  ∃ σ' evs,
    SequentialGenerator_init env data_path σ = mkOutcome (Ok tt) σ' evs ∧
    _agents σ' = ∅ ∧ constructions evs = [].
Proof.
  unfold SequentialGenerator_init, bind.
  destruct (get_data_manager_first env σ data_path) as (dm & _ & _ & Hret).
  pose proof (emits_get_data_manager env data_path σ) as Hev.
  destruct (get_data_manager env data_path σ) as [[id|e] σ0 ev0]; simpl in *; [|done].
  unfold modify. simpl. eexists _, _. split; [done|]. split; [done|].
  rewrite app_nil_r. by apply constructions_load.
Qed.

(** The constructor that is given an [llm]. *)
Lemma SequentialGenerator_outcome (data_path : option string) (σ : State) :
  ∃ σ' evs,
    SequentialGenerator env google_api_key (Some llm) data_path σ =
      mkOutcome (Ok tt) σ' evs ∧
    _agents σ' = ∅ ∧ constructions evs = [].
Proof.
  destruct (SequentialGenerator_init_outcome data_path σ) as (σ' & evs & Hinit & Hag & Hc).
  exists σ', evs. split; [|done].
  unfold SequentialGenerator, bind, ret. by rewrite Hinit.
Qed.

(** The constructor that is given none, where the environment has no key. *)
Lemma SequentialGenerator_without_key (data_path : option string) (σ : State) :
  google_api_key = None ∨ google_api_key = Some "" →
  SequentialGenerator env google_api_key None data_path σ =
    mkOutcome (Exn "GOOGLE_API_KEY environment variable not set") σ [].
Proof. by intros [-> | ->]. Qed.

Lemma process_question_outcome (rp : path) (data_path : option string)
    (section : string) (i : nat) (question : string) (d : Desk) (σ : State) :
  ∃ σ' evs text d',
    process_question env rss google_api_key rp (Some llm) data_path section i question d σ =
      (mkOutcome (Ok tt) σ' evs, d') ∧
    extends rp text [] d d' ∧
    section_content d' = section_content d +:+ text ∧
    constructions evs = constructions (emitted (analyze_section env question section σ)).
Proof.
  destruct (analyze_section_outcome env question section σ) as (a & σ1 & ev1 & Hrun & _ & _).
  rewrite Hrun. simpl.
  unfold process_question.
  unfold dbind at 1. unfold dtry. unfold dbind at 1. unfold lift at 1. rewrite Hrun.
  destruct d as [fs ns rd sc].
  destruct (SequentialGenerator_outcome data_path σ1) as (σ2 & ev2 & Hinit & _ & Hc2).
  remember (SequentialGenerator env google_api_key (Some llm) data_path) as init eqn:Hdef.
  destruct a as [[| text | items | kvs] s roles | e s attempted].
  2, 5:
    unfold dbind, append_file, add_content, force_gc, log_memory_usage, dmodify, dgets, dret;
    simpl;
    destruct (4000 * 1024 * 1024 <? rss (S (S rd)))%N; simpl;
    [ unfold lift; rewrite Hinit; simpl | ];
    (eexists _, _, (_ +:+ separator), _; split; [reflexivity|]; split; [|split];
     [ unfold extends, content; simpl; rewrite !lookup_insert_eq; split; [|split];
       [ by rewrite append_assoc
       | intros q Hq; by rewrite !lookup_insert_ne
       | by rewrite app_nil_r ]
     | simpl; by rewrite append_assoc
     | rewrite ?app_nil_r, ?constructions_app, ?Hc2, ?app_nil_r; done ]).
  all: unfold dbind, draise, append_file, add_content, force_gc, log_memory_usage,
         dmodify, dgets, dret; simpl;
       (eexists _, _, _, _; split; [reflexivity|]; split; [|split];
        [ unfold extends, content; simpl; rewrite !lookup_insert_eq; split; [|split];
          [ reflexivity
          | intros q Hq; by rewrite !lookup_insert_ne
          | by rewrite app_nil_r ]
        | reflexivity
        | by rewrite ?app_nil_r ]).
Qed.

Lemma run_agent_builds (question : string) (results : dict value) (role : string)
    (σ : State) :
  role ∈ worker_agents → _agents σ !! role = None →
  constructions (emitted (run_agent env question results role σ)) = [role] ∧
  ∀ r, r ≠ role →
    _agents (final (run_agent env question results role σ)) !! r = _agents σ !! r.
Proof.
  intros Hw Hnone.
  assert (_get_agent env role σ =
          match world env (tick σ) (CallConstruct role) with
          | Ok _ =>
              mkOutcome (Ok (next_id σ))
                (set_agents (<[role := next_id σ]> (_agents σ))
                   (set_next_id (S (next_id σ)) (set_tick (S (tick σ)) σ)))
                [EvConstruct role]
          | Exn e => mkOutcome (Exn e) (set_tick (S (tick σ)) σ) [EvConstruct role]
          end) as Hg.
  { unfold _get_agent, bind, gets. simpl. rewrite Hnone. simpl.
    unfold build_agent. rewrite bool_decide_eq_true_2 by done.
    rewrite construct_outcome.
    by destruct (world env (tick σ) (CallConstruct role)). }
  unfold run_agent, try_catch, bind. rewrite Hg.
  destruct (world env (tick σ) (CallConstruct role)) as [v|e]; simpl; [|done].
  match goal with |- context [invoke_pattern env role ?a question ?s] =>
    destruct (quiet_invoke_pattern env role a question s) as [Hc Ha];
    destruct (invoke_pattern env role a question s) as [[result|e] σ2 ev2]
  end; simpl in *.
  - unfold log, sleep, ret. simpl. rewrite constructions_app, Hc.
    split; [done|]. intros r Hr. by rewrite Ha, lookup_insert_ne.
  - unfold log, ret. simpl. rewrite constructions_app, Hc.
    split; [done|]. intros r Hr. by rewrite Ha, lookup_insert_ne.
Qed.

Lemma run_agents_build (question : string) (roles : list string) :
  ∀ (results : dict value) (σ : State),
    NoDup roles → Forall (λ r, r ∈ worker_agents) roles →
    (∀ r, r ∈ roles → _agents σ !! r = None) →
    constructions (emitted (run_agents env question roles results σ)) = roles ∧
    ∀ r, r ∉ roles →
      _agents (final (run_agents env question roles results σ)) !! r = _agents σ !! r.
Proof.
  induction roles as [|role roles IH]; intros results σ Hnd Hw Hnone; [done|].
  apply NoDup_cons in Hnd as [Hfresh Hnd]. apply Forall_cons in Hw as [Hrole Hw].
  destruct (run_agent_builds question results role σ Hrole) as [Hc Ha];
    [apply Hnone; left|].
  destruct (run_agent_outcome env question results role σ) as (entry & σ1 & ev1 & Hrun & _).
  rewrite Hrun in Hc, Ha. simpl in Hc, Ha.
  simpl. unfold bind. rewrite Hrun.
  destruct (IH (dict_set role entry results) σ1 Hnd Hw) as [Hc' Ha'].
  { intros r Hr. rewrite Ha; [apply Hnone; by right|]. by intros ->. }
  destruct (run_agents env question roles (dict_set role entry results) σ1)
    as [[results'|e] σ2 ev2]; simpl in *.
  - split; [by rewrite constructions_app, Hc, Hc'|].
    intros r [Hne Hr]%not_elem_of_cons. by rewrite Ha', Ha.
  - split; [by rewrite constructions_app, Hc, Hc'|].
    intros r [Hne Hr]%not_elem_of_cons. by rewrite Ha', Ha.
Qed.

(** A generator whose table is empty builds every agent of the section,
    and the compiler. *)
Lemma analyze_section_builds (question section : string) (roles : list string) (σ : State) :
  section_agent_mapping !! section = Some roles →
  _agents σ = ∅ →
  constructions (emitted (analyze_section env question section σ)) =
    roles ++ ["compiler_agent"].
Proof.
  intros Hmap Hempty. destruct (mapping_roles _ _ Hmap) as (Hne & Hnd & Hw).
  destruct (run_agents_build question roles [] σ Hnd Hw) as [Hc Ha].
  { intros r _. by rewrite Hempty. }
  destruct (run_agents_outcome env question roles [] σ) as (results & σ1 & ev1 & Hrun & _).
  rewrite Hrun in Hc, Ha. simpl in Hc, Ha.
  unfold analyze_section. rewrite (agents_for_mapped _ _ Hmap).
  destruct roles as [|role rest]; [done|].
  unfold try_catch, bind. rewrite Hrun.
  assert (_agents σ1 !! "compiler_agent" = None) as Hcomp.
  { rewrite Ha; [by rewrite Hempty|].
    intros Hin. rewrite Forall_forall in Hw. specialize (Hw _ Hin).
    revert Hw. apply (bool_decide_unpack _). by vm_compute. }
  unfold _get_agent, bind, gets. simpl. rewrite Hcomp. simpl.
  unfold build_agent, CompilerAgent_init. simpl. unfold bind, log, fresh, modify, ret. simpl.
  rewrite compile_outcome. simpl.
  rewrite !constructions_app, Hc. simpl. done.
Qed.

Lemma dict_get_elem_of {V} (k : string) (d : dict V) (v : V) :
  dict_get k d = Some v → (k, v) ∈ d.
Proof.
  induction d as [|[k' v'] d IH]; simpl; [done|].
  destruct (String.eqb k k') eqn:E.
  - apply String.eqb_eq in E as ->. intros [= ->]. left.
  - intros H. right. by apply IH.
Qed.

Lemma section_questions_rows :
  Forall (λ row : string * list string,
            length row.2 = 1 ∧ is_Some (section_agent_mapping !! row.1))
    section_questions.
Proof. apply (bool_decide_unpack _). by vm_compute. Qed.

Lemma known_section (section : string) (questions : list string) :
  dict_get section section_questions = Some questions →
  (∃ question, questions = [question]) ∧
  section_agent_mapping !! section = Some (agents_for section).
Proof.
  intros Hget%dict_get_elem_of.
  pose proof section_questions_rows as Hrows. rewrite Forall_forall in Hrows.
  destruct (Hrows _ Hget) as [Hlen [roles Hroles]]. simpl in *.
  split.
  - destruct questions as [|q [|q' qs]]; simpl in Hlen; try done. by exists q.
  - by rewrite Hroles, (agents_for_mapped _ _ Hroles).
Qed.

Lemma process_section_known (rp : path) (data_path : option string)
    (acc : dict string * list string) (section : string) (questions : list string)
    (d : Desk) (σ : State) :
  dict_get section section_questions = Some questions →
  ∃ σ' evs entry d',
    process_section env rss google_api_key rp (Some llm) data_path acc section d σ =
      (mkOutcome
         (Ok (dict_set section entry acc.1,
              if bool_decide (section ∈ acc.2) then acc.2 else (acc.2 ++ [section])%list))
         σ' evs, d') ∧
    extends rp (entry +:+ nl +:+ nl) [5] d d' ∧
    constructions evs = agents_for section ++ ["compiler_agent"].
Proof.
  intros Hget. destruct (known_section _ _ Hget) as [[question ->] Hmap].
  unfold process_section. rewrite Hget.
  destruct (SequentialGenerator_outcome data_path σ) as (σ1 & ev1 & Hinit & Hempty & Hc1).
  unfold dbind at 1. unfold lift at 1. rewrite Hinit.
  pose proof (analyze_section_builds question section _ σ1 Hmap Hempty) as Hbuilt.
  remember (process_question env rss google_api_key rp (Some llm) data_path section 0 question) as pq eqn:Hpq.
  destruct d as [fs ns rd sc].
  unfold questions_loop, dbind, log_memory_usage, append_file, force_gc, nap, dmodify, dgets,
    dret. simpl.
  subst pq.
  match goal with |- context [process_question env rss google_api_key rp (Some llm) data_path section 0 question ?D ?S] =>
    destruct (process_question_outcome rp data_path section 0 question D S)
      as (σ2 & ev2 & text & dq & Hrun & Hext & Hsc & Hc2)
  end.
  rewrite Hrun. clear Hget Hrun. destruct dq as [fq nq rq scq].
  eexists _, _, _, _. split; [reflexivity|].
  unfold extends, content in *. simpl in *.
  destruct Hext as (Hcont & Hother & Hnaps).
  rewrite lookup_insert_eq in Hcont.
  split; [split; [|split]|].
  - rewrite lookup_insert_eq, Hcont, Hsc. by rewrite !append_assoc.
  - intros q Hq. rewrite lookup_insert_ne by done. rewrite Hother by done.
    by rewrite lookup_insert_ne.
  - rewrite Hnaps. by rewrite app_nil_r.
  - rewrite !app_nil_r, constructions_app, Hc1, Hc2. done.
Qed.

Lemma process_section_unknown (rp : path) (given : option BaseChatModel)
    (data_path : option string) (acc : dict string * list string) (section : string)
    (d : Desk) (σ : State) :
  dict_get section section_questions = None →
  process_section env rss google_api_key rp given data_path acc section d σ =
    (mkOutcome (Ok acc) σ [], d).
Proof. intros Hget. unfold process_section. by rewrite Hget. Qed.

Lemma dict_keys_set_elem_of {V} (k k' : string) (v : V) (d : dict V) :
  k' ∈ dict_keys (dict_set k v d) ↔ k' = k ∨ k' ∈ dict_keys d.
Proof.
  destruct (decide (k ∈ dict_keys d)) as [Hin|Hnin].
  - rewrite dict_keys_set_present by done. split; [by right|]. by intros [->|?].
  - rewrite dict_keys_set_fresh by done. rewrite elem_of_app, list_elem_of_singleton. tauto.
Qed.

Lemma dict_keys_set_metadata {V} (k : string) (v : V) (d : dict V) :
  dict_keys (dict_set k v d) =
    if bool_decide (k ∈ dict_keys d) then dict_keys d else dict_keys d ++ [k].
Proof.
  case_bool_decide; [by apply dict_keys_set_present | by apply dict_keys_set_fresh].
Qed.

Lemma sections_loop_outcome (rp : path) (data_path : option string) :
  ∀ (todo : list string) (acc : dict string * list string) (d : Desk) (σ : State),
    ∃ σ' evs out d' text,
      sections_loop env rss google_api_key rp (Some llm) data_path todo acc d σ =
        (mkOutcome (Ok out) σ' evs, d') ∧
      extends rp text
        (replicate (length (filter (λ s, s ∈ dict_keys section_questions) todo)) 5) d d' ∧
      constructions evs =
        flat_map (λ s, agents_for s ++ ["compiler_agent"])
          (filter (λ s, s ∈ dict_keys section_questions) todo) ∧
      (∀ s, s ∈ dict_keys out.1 ↔
            s ∈ dict_keys acc.1 ∨ (s ∈ todo ∧ s ∈ dict_keys section_questions)) ∧
      (dict_keys acc.1 = acc.2 → dict_keys out.1 = out.2) ∧
      (NoDup (dict_keys acc.1 ++ todo) →
       ∃ new, out.1 = acc.1 ++ new ∧
              dict_keys new = filter (λ s, s ∈ dict_keys section_questions) todo ∧
              text = rendered new).
Proof.
  induction todo as [|section todo IH]; intros acc d σ.
  - exists σ, [], acc, d, "". simpl. split; [done|]. split; [apply extends_refl|].
    split; [done|]. split; [|split; [done|]].
    + intros s. split; [by left|]. intros [?|[Hin _]]; [done|]. by apply elem_of_nil in Hin.
    + intros _. exists []. by rewrite app_nil_r.
  - destruct (dict_get section section_questions) as [questions|] eqn:Hget.
    + assert (section ∈ dict_keys section_questions) as Hknown.
      { destruct (decide (section ∈ dict_keys section_questions)) as [?|Hn]; [done|].
        apply dict_get_None in Hn. congruence. }
      destruct (process_section_known rp data_path acc section questions d σ Hget)
        as (σ1 & ev1 & entry & d1 & Hrun & Hext & Hc).
      destruct (IH (dict_set section entry acc.1,
                    if bool_decide (section ∈ acc.2) then acc.2 else (acc.2 ++ [section])%list)
                  d1 σ1)
        as (σ2 & ev2 & out & d2 & text & Hrest & Hext2 & Hc2 & Hmem & Hmeta & Hnd).
      exists σ2, (ev1 ++ ev2), out, d2, ((entry +:+ nl +:+ nl) +:+ text).
      split; [|split; [|split; [|split; [|split]]]].
      * simpl. unfold dbind. by rewrite Hrun, Hrest.
      * rewrite filter_cons_True by done.
        apply (extends_trans rp _ _ [5] _ d d1 d2 Hext Hext2).
      * rewrite filter_cons_True by done.
        rewrite constructions_app, Hc, Hc2. simpl. by rewrite <- app_assoc.
      * cbn [fst snd] in Hmem. intros s. split.
        -- intros Hs. apply Hmem in Hs as [Hs|[Hs Hk]].
           ++ apply dict_keys_set_elem_of in Hs as [->|Hs]; [|by left].
              right. split; [left|done].
           ++ right. split; [by right|done].
        -- intros [Hs|[Hs Hk]]; apply Hmem.
           ++ left. apply dict_keys_set_elem_of. by right.
           ++ apply elem_of_cons in Hs as [->|Hs]; [|by right].
              left. apply dict_keys_set_elem_of. by left.
      * intros Hacc. apply Hmeta. cbn [fst snd]. by rewrite dict_keys_set_metadata, Hacc.
      * intros Hnodup. cbn [fst snd] in Hnd.
        assert (section ∉ dict_keys acc.1) as Hfresh.
        { apply NoDup_app in Hnodup as (_ & Hdisj & _). intros Hin.
          apply (Hdisj _ Hin). left. }
        assert (dict_set section entry acc.1 = acc.1 ++ [(section, entry)]) as Hset
          by (by apply dict_set_fresh).
        destruct Hnd as (new & Hout & Hkeys & Htext).
        { rewrite Hset. unfold dict_keys in *. rewrite fmap_app, <- app_assoc. done. }
        exists ((section, entry) :: new). split; [|split].
        -- rewrite Hout, Hset. by rewrite <- app_assoc.
        -- rewrite filter_cons_True by done. by rewrite <- Hkeys.
        -- simpl. by rewrite Htext, !append_assoc.
    + assert (section ∉ dict_keys section_questions) as Hunknown
        by (by apply dict_get_None).
      destruct (IH acc d σ)
        as (σ2 & ev2 & out & d2 & text & Hrest & Hext2 & Hc2 & Hmem & Hmeta & Hnd).
      exists σ2, ev2, out, d2, text.
      split; [|split; [|split; [|split; [|split]]]].
      * simpl. unfold dbind. rewrite process_section_unknown by done. rewrite Hrest.
        by destruct d2.
      * by rewrite filter_cons_False.
      * by rewrite filter_cons_False.
      * intros s. split.
        -- intros Hs. apply Hmem in Hs as [Hs|[Hs Hk]]; [by left|].
           right. split; [by right|done].
        -- intros [Hs|[Hs Hk]]; apply Hmem; [by left|].
           apply elem_of_cons in Hs as [->|Hs]; [done|]. by right.
      * done.
      * intros Hnodup. rewrite filter_cons_False by done. apply Hnd.
        apply NoDup_app in Hnodup as (Hn1 & Hdisj & Hn2).
        apply NoDup_cons in Hn2 as [_ Hn2].
        apply NoDup_app. split; [done|]. split; [|done].
        intros x Hx Hx'. apply (Hdisj x Hx). by right.
Qed.

Lemma generate_selected_sections_outcome (selected_sections : list string)
    (output_dir data_path : option string) (d : Desk) (σ : State) :
  let dir := match output_dir with
             | None => project_root env +:+ "/reports"
             | Some dir => dir
             end in
  let known := filter (λ s, s ∈ dict_keys section_questions) selected_sections in
  ∃ σ' evs rep d' text,
    generate_selected_sections env rss json_dumps google_api_key selected_sections output_dir
      (Some llm) data_path d σ =
      (mkOutcome (Ok rep) σ' evs, d') ∧
    rep = mkSelectionReport (dir, "report.md") (dir, "report_dict.json")
            (report_dict rep) selected_sections (dict_keys (report_dict rep)) ∧
    (∀ s, s ∈ dict_keys (report_dict rep) ↔
          s ∈ selected_sections ∧ s ∈ dict_keys section_questions) ∧
    naps d' = naps d ++ replicate (length known) 5 ∧
    content d' (dir, "report.md") =
      match files d !! (dir, "report.md") with
      | Some old => old
      | None => "# Marketing Report" +:+ nl +:+ nl
      end +:+ text ∧
    files d' !! (dir, "report_dict.json") = Some (json_dumps (report_dict rep)) ∧
    (∀ p, p ≠ (dir, "report.md") → p ≠ (dir, "report_dict.json") →
          files d' !! p = files d !! p) ∧
    constructions evs = flat_map (λ s, agents_for s ++ ["compiler_agent"]) known ∧
    (NoDup selected_sections →
     dict_keys (report_dict rep) = known ∧ text = rendered (report_dict rep)).
Proof.
  intros dir known. unfold generate_selected_sections. fold dir.
  remember (sections_loop env rss google_api_key (dir, "report.md") (Some llm) data_path
              selected_sections) as loop eqn:Hloop.
  destruct d as [fs ns rd sc].
  unfold dbind, log_memory_usage, file_exists, read_file, write_file, dtry, dmodify, dgets,
    dret, draise. simpl. unfold path in *.
  destruct (fs !! (dir, "report.md")) as [old|] eqn:Hold; simpl.
  - rewrite ?bool_decide_eq_true_2 by by eexists. simpl. rewrite ?Hold. simpl.
    subst loop.
    match goal with
    |- context [sections_loop env rss google_api_key ?P (Some llm) data_path
                  selected_sections ?A ?D ?S] =>
      destruct (sections_loop_outcome P data_path selected_sections A D S)
        as (σ2 & ev2 & out & d2 & text & Hrun & Hext & Hc & Hmem & Hmeta & Hnd)
    end.
    rewrite Hrun. clear Hrun. destruct d2 as [f2 n2 r2 s2]. simpl.
    destruct Hext as (Hcont & Hother & Hnaps). unfold content, path in *. simpl in *.
    rewrite Hold in Hcont.
    eexists _, _, _, _, text. split; [reflexivity|]. simpl.
    split; [by rewrite Hmeta|]. split.
    { intros s. rewrite Hmem. split; [intros [Hin|?]; [by apply elem_of_nil in Hin|done]|auto]. }
    split; [done|]. split.
    { rewrite lookup_insert_ne by (intros [= ?]; done). done. }
    split; [by rewrite lookup_insert_eq|]. split.
    { intros p Hp Hp'. rewrite lookup_insert_ne by done. by apply Hother. }
    split; [by rewrite !app_nil_r|].
    intros Hnodup. destruct (Hnd Hnodup) as (new & -> & Hk & ->). done.
  - rewrite ?bool_decide_eq_false_2 by (by intros [? ?]). simpl.
    subst loop.
    match goal with
    |- context [sections_loop env rss google_api_key ?P (Some llm) data_path
                  selected_sections ?A ?D ?S] =>
      destruct (sections_loop_outcome P data_path selected_sections A D S)
        as (σ2 & ev2 & out & d2 & text & Hrun & Hext & Hc & Hmem & Hmeta & Hnd)
    end.
    rewrite Hrun. clear Hrun. destruct d2 as [f2 n2 r2 s2]. simpl.
    destruct Hext as (Hcont & Hother & Hnaps). unfold content, path in *. simpl in *.
    rewrite lookup_insert_eq in Hcont.
    eexists _, _, _, _, text. split; [reflexivity|]. simpl.
    split; [by rewrite Hmeta|]. split.
    { intros s. rewrite Hmem. split; [intros [Hin|?]; [by apply elem_of_nil in Hin|done]|auto]. }
    split; [done|]. split.
    { rewrite lookup_insert_ne by (intros [= ?]; done). done. }
    split; [by rewrite lookup_insert_eq|]. split.
    { intros p Hp Hp'. rewrite lookup_insert_ne by done. rewrite Hother by done.
      by rewrite lookup_insert_ne. }
    split; [by rewrite !app_nil_r|].
    intros Hnodup. destruct (Hnd Hnodup) as (new & -> & Hk & ->). done.
Qed.

(** Without an [llm] and without a key the loop raises at the first
    selected section that has questions, before it has done anything. *)
Lemma sections_loop_without_key (rp : path) (data_path : option string) :
  google_api_key = None ∨ google_api_key = Some "" →
  ∀ (todo : list string) (acc : dict string * list string) (d : Desk) (σ : State),
    sections_loop env rss google_api_key rp None data_path todo acc d σ =
      (mkOutcome
         match filter (λ s, s ∈ dict_keys section_questions) todo with
         | [] => Ok acc
         | _ :: _ => Exn "GOOGLE_API_KEY environment variable not set"
         end σ [], d).
Proof.
  intros Hkey. induction todo as [|section todo IH]; intros acc d σ; [done|].
  destruct (dict_get section section_questions) as [questions|] eqn:Hget.
  - assert (section ∈ dict_keys section_questions) as Hknown.
    { destruct (decide (section ∈ dict_keys section_questions)) as [?|Hn]; [done|].
      apply dict_get_None in Hn. congruence. }
    rewrite filter_cons_True by done.
    simpl. unfold dbind at 1. unfold process_section. rewrite Hget.
    unfold dbind at 1. unfold lift. by rewrite SequentialGenerator_without_key.
  - assert (section ∉ dict_keys section_questions) as Hunknown
      by (by apply dict_get_None).
    rewrite filter_cons_False by done.
    simpl. unfold dbind. rewrite process_section_unknown by done. rewrite IH.
    by destruct (filter _ todo).
Qed.

Lemma generate_selected_sections_without_key (selected_sections : list string)
    (output_dir data_path : option string) (d : Desk) (σ : State) :
  google_api_key = None ∨ google_api_key = Some "" →
  let dir := match output_dir with
             | None => project_root env +:+ "/reports"
             | Some dir => dir
             end in
  let d0 := set_readings (S (readings d))
              match files d !! (dir, "report.md") with
              | Some _ => d
              | None =>
                  set_files
                    (<[(dir, "report.md") := "# Marketing Report" +:+ nl +:+ nl]> (files d)) d
              end in
  generate_selected_sections env rss json_dumps google_api_key selected_sections output_dir
    None data_path d σ =
    match filter (λ s, s ∈ dict_keys section_questions) selected_sections with
    | [] =>
        (mkOutcome
           (Ok (mkSelectionReport (dir, "report.md") (dir, "report_dict.json") []
                  selected_sections []))
           σ [],
         set_files (<[(dir, "report_dict.json") := json_dumps []]> (files d0)) d0)
    | _ :: _ =>
        (mkOutcome (Exn "GOOGLE_API_KEY environment variable not set") σ [], d0)
    end.
Proof.
  intros Hkey dir d0. subst d0. unfold generate_selected_sections. fold dir.
  remember (sections_loop env rss google_api_key (dir, "report.md") None data_path
              selected_sections) as loop eqn:Hloop.
  destruct d as [fs ns rd sc].
  unfold dbind, log_memory_usage, file_exists, read_file, write_file, dtry, dmodify, dgets,
    dret, draise. simpl. unfold path in *.
  destruct (fs !! (dir, "report.md")) as [old|] eqn:Hold; simpl.
  - rewrite ?bool_decide_eq_true_2 by by eexists. simpl. rewrite ?Hold. simpl.
    subst loop. rewrite sections_loop_without_key by done.
    by destruct (filter _ selected_sections).
  - rewrite ?bool_decide_eq_false_2 by (by intros [? ?]). simpl.
    subst loop. rewrite sections_loop_without_key by done.
    by destruct (filter _ selected_sections).
Qed.

End SelectedSections.

(** X14. [generate_selected_sections] skips a section that has no
    questions, but still names it in its result.  Called with an [llm],
    as [main] calls it, it returns without raising; [sections_processed]
    is the list it was given, unknown names included, while [report_dict]
    and the metadata have an entry for exactly the selected names that
    [section_questions] knows.  The driver pauses 5 seconds after every
    section it processed, the last one included, and not at all for a
    skipped one.  Called without an [llm], its default, where the
    environment has no [GOOGLE_API_KEY], it returns only when it skips
    every section; otherwise the generator of the first section that has
    questions raises the [ValueError], outside every [try]: the call
    raises with it before any agent is built, the report file has its old
    content or only the header, and nothing else is written. *)
Theorem skipped_sections_are_still_reported (env : Env) (rss : nat → N)
    (json_dumps : dict string → string) (google_api_key : option string)
    (selected_sections : list string) (output_dir data_path : option string)
    (d : Desk) (σ : State) :
  let dir := match output_dir with
             | None => project_root env +:+ "/reports"
             | Some dir => dir
             end in
  let known := filter (λ s, s ∈ dict_keys section_questions) selected_sections in
  let run := λ llm, generate_selected_sections env rss json_dumps google_api_key
                      selected_sections output_dir llm data_path d σ in
  (∀ llm, ∃ σ' evs rep d',
     run (Some llm) = (mkOutcome (Ok rep) σ' evs, d') ∧
     sections_processed rep = selected_sections ∧
     metadata rep = dict_keys (report_dict rep) ∧
     (∀ s, s ∈ dict_keys (report_dict rep) ↔
           s ∈ selected_sections ∧ s ∈ dict_keys section_questions) ∧
     naps d' = naps d ++ replicate (length known) 5) ∧
  (google_api_key = None ∨ google_api_key = Some "" →
   ∃ d',
     (run None).2 = d' ∧
     (run None).1 =
       match known with
       | [] =>
           mkOutcome
             (Ok (mkSelectionReport (dir, "report.md") (dir, "report_dict.json") []
                    selected_sections []))
             σ []
       | _ :: _ => mkOutcome (Exn "GOOGLE_API_KEY environment variable not set") σ []
       end ∧
     naps d' = naps d ∧
     content d' (dir, "report.md") =
       match files d !! (dir, "report.md") with
       | Some old => old
       | None => "# Marketing Report" +:+ nl +:+ nl
       end ∧
     files d' !! (dir, "report_dict.json") =
       match known with
       | [] => Some (json_dumps [])
       | _ :: _ => files d !! (dir, "report_dict.json")
       end ∧
     (∀ p, p ≠ (dir, "report.md") → p ≠ (dir, "report_dict.json") →
           files d' !! p = files d !! p)).
Proof.
  intros dir known run. split.
  - intros llm. subst run. cbv beta.
    destruct (generate_selected_sections_outcome env rss json_dumps google_api_key llm
                selected_sections output_dir data_path d σ)
      as (σ' & evs & rep & d' & text & Hrun & Hrep & Hmem & Hnaps & _).
    exists σ', evs, rep, d'. split; [done|]. rewrite Hrep. simpl. done.
  - intros Hkey. subst run. cbv beta.
    rewrite (generate_selected_sections_without_key env rss json_dumps google_api_key
               selected_sections output_dir data_path d σ Hkey).
    fold dir. fold known.
    assert ((dir, "report.md") ≠ (dir, "report_dict.json")) as Hne by (by intros [= ?]).
    destruct d as [fs ns rd sc]. unfold content, path in *.
    cbn [files naps readings section_content].
    destruct known; destruct (fs !! (dir, "report.md")) as [old|] eqn:Hold;
      cbn [fst snd files naps readings set_files set_readings];
      (eexists; split; [reflexivity|]; split; [reflexivity|]; split; [reflexivity|];
       cbn [fst snd files naps readings set_files set_readings];
       rewrite ?lookup_insert_eq, ?(lookup_insert_ne _ _ _ _ Hne),
         ?(lookup_insert_ne _ _ _ _ (not_eq_sym Hne)), ?lookup_insert_eq, ?Hold;
       split; [reflexivity|]; split; [reflexivity|];
       intros p Hp Hp'; by rewrite ?lookup_insert_ne by done).
Qed.

Lemma skipped_sections_are_still_reported_witness :
  filter (λ s, s ∈ dict_keys section_questions) ["appendix"; "executive_summary"] =
    ["executive_summary"] ∧
  let dir := project_root calm_env +:+ "/reports" in
  let known :=
    filter (λ s, s ∈ dict_keys section_questions) ["appendix"; "executive_summary"] in
  let run := λ llm, generate_selected_sections calm_env (λ _, 0%N) (λ _, "{}") None
                      ["appendix"; "executive_summary"] None llm None (mkDesk ∅ [] 0 "")
                      initial_state in
  ∃ d',
    (run None).2 = d' ∧
    (run None).1 =
      match known with
      | [] =>
          mkOutcome
            (Ok (mkSelectionReport (dir, "report.md") (dir, "report_dict.json") []
                   ["appendix"; "executive_summary"] []))
            initial_state []
      | _ :: _ =>
          mkOutcome (Exn "GOOGLE_API_KEY environment variable not set") initial_state []
      end ∧
    naps d' = naps (mkDesk ∅ [] 0 "") ∧
    content d' (dir, "report.md") =
      match files (mkDesk ∅ [] 0 "") !! (dir, "report.md") with
      | Some old => old
      | None => "# Marketing Report" +:+ nl +:+ nl
      end ∧
    files d' !! (dir, "report_dict.json") =
      match known with
      | [] => Some ((λ _ : dict string, "{}") [])
      | _ :: _ => files (mkDesk ∅ [] 0 "") !! (dir, "report_dict.json")
      end ∧
    (∀ p, p ≠ (dir, "report.md") → p ≠ (dir, "report_dict.json") →
          files d' !! p = files (mkDesk ∅ [] 0 "") !! p).
Proof.
  split; [by vm_compute|].
  apply (proj2 (skipped_sections_are_still_reported calm_env (λ _, 0%N) (λ _, "{}") None
                  ["appendix"; "executive_summary"] None None (mkDesk ∅ [] 0 "")
                  initial_state)).
  left. reflexivity.
Defined.

(** X15. The report file gains exactly the texts that [report_dict]
    returns.  When [generate_selected_sections] is called with an [llm]
    and a selection without repetitions, [report_dict] has the known
    sections of the selection in their order, and the file [report.md]
    holds afterwards what it held before, or the header
    ["# Marketing Report"] when it did not exist, followed by the content of
    each section and an empty line: the file is appended to, never
    rewritten.  [report_dict.json] holds the dump of [report_dict], and no
    other file is touched. *)
Theorem report_file_gains_the_section_texts (env : Env) (rss : nat → N)
    (json_dumps : dict string → string) (google_api_key : option string)
    (llm : BaseChatModel) (selected_sections : list string)
    (output_dir data_path : option string) (d : Desk) (σ : State) :
  NoDup selected_sections →
  ∃ σ' evs rep d',
    generate_selected_sections env rss json_dumps google_api_key selected_sections output_dir
      (Some llm) data_path d σ =
      (mkOutcome (Ok rep) σ' evs, d') ∧
    dict_keys (report_dict rep) =
      filter (λ s, s ∈ dict_keys section_questions) selected_sections ∧
    content d' (report_path rep) =
      match files d !! report_path rep with
      | Some old => old
      | None => "# Marketing Report" +:+ nl +:+ nl
      end +:+ rendered (report_dict rep) ∧
    files d' !! report_dict_path rep = Some (json_dumps (report_dict rep)) ∧
    (∀ p, p ≠ report_path rep → p ≠ report_dict_path rep → files d' !! p = files d !! p).
Proof.
  intros Hnd.
  destruct (generate_selected_sections_outcome env rss json_dumps google_api_key llm
              selected_sections output_dir data_path d σ)
    as (σ' & evs & rep & d' & text & Hrun & Hrep & _ & _ & Hcont & Hjson & Hother & _ & Hexact).
  destruct (Hexact Hnd) as [Hkeys ->].
  exists σ', evs, rep, d'. split; [done|]. split; [done|].
  rewrite Hrep. simpl. done.
Qed.

Lemma report_file_gains_the_section_texts_witness :
  ∃ σ' evs rep d',
    generate_selected_sections calm_env (λ _, 0%N) (λ _, "{}") None
      ["executive_summary"; "appendix"] None (Some (ChatModel "llama-3.3-70b-versatile"))
      None (mkDesk ∅ [] 0 "") (started calm_env) =
      (mkOutcome (Ok rep) σ' evs, d') ∧
    dict_keys (report_dict rep) =
      filter (λ s, s ∈ dict_keys section_questions) ["executive_summary"; "appendix"] ∧
    content d' (report_path rep) =
      match files (mkDesk ∅ [] 0 "") !! report_path rep with
      | Some old => old
      | None => "# Marketing Report" +:+ nl +:+ nl
      end +:+ rendered (report_dict rep) ∧
    files d' !! report_dict_path rep = Some ((λ _, "{}") (report_dict rep)) ∧
    (∀ p, p ≠ report_path rep → p ≠ report_dict_path rep →
          files d' !! p = files (mkDesk ∅ [] 0 "") !! p).
Proof.
  apply (report_file_gains_the_section_texts calm_env (λ _, 0%N) (λ _, "{}") None
           (ChatModel "llama-3.3-70b-versatile")
           ["executive_summary"; "appendix"] None None (mkDesk ∅ [] 0 "") (started calm_env)).
  apply (bool_decide_unpack _). vm_compute. exact I.
Defined.

(** X16. [generate_selected_sections] builds the agents anew for every
    section.  Called with an [llm], it creates a generator per section, so
    in every world the agents built are, section after section, the agents
    of the section and the compiler: an agent that two selected sections
    share is built once for each of them, where [generate_report] builds
    it once. *)
Theorem each_section_rebuilds_its_agents (env : Env) (rss : nat → N)
    (json_dumps : dict string → string) (google_api_key : option string)
    (llm : BaseChatModel) (selected_sections : list string)
    (output_dir data_path : option string) (d : Desk) (σ : State) :
  constructions
    (emitted
       (generate_selected_sections env rss json_dumps google_api_key selected_sections
          output_dir (Some llm) data_path d σ).1) =
    flat_map (λ s, agents_for s ++ ["compiler_agent"])
      (filter (λ s, s ∈ dict_keys section_questions) selected_sections).
Proof.
  destruct (generate_selected_sections_outcome env rss json_dumps google_api_key llm
              selected_sections output_dir data_path d σ)
    as (σ' & evs & rep & d' & text & Hrun & _ & _ & _ & _ & _ & _ & Hc & _).
  by rewrite Hrun.
Qed.

(** ** The report of main.py *)

Section MarkdownReport.
Context (env : Env) (str : value → string).

Lemma extends_append_file (p : path) (text : string) (d : Desk) :
  extends p text [] d (set_files (<[p := content d p +:+ text]> (files d)) d).
Proof.
  destruct d as [fs ns rd sc]. unfold extends, content. simpl. split; [|split].
  - by rewrite lookup_insert_eq.
  - intros q Hq. by rewrite lookup_insert_ne.
  - by rewrite app_nil_r.
Qed.

Lemma extends_nap (p : path) (secs : nat) (d : Desk) :
  extends p "" [secs] d (set_naps (naps d ++ [secs]) d).
Proof.
  destruct d as [fs ns rd sc]. unfold extends, content. simpl.
  by rewrite append_nil_r.
Qed.

Lemma report_question_outcome (md_file : path) (self : SupervisorAgent)
    (order : list node) (section section_title : string) (i : nat)
    (question : string) (questions : list string) (d : Desk) (σ : State) :
  2 ≤ length order →
  ∃ σ' evs d',
    report_question env str md_file self order section section_title i question questions
      d σ = (mkOutcome (Ok tt) σ' evs, d') ∧
    extends md_file (question_block section_title i question (refused_answer env))
      (if i <? length questions - 1 then [5] else []) d d' ∧
    compiled evs = [] ∧ constructions evs = [].
Proof.
  intros Hlen.
  pose proof (analyze_outcome env self order question section σ Hlen) as Hrun.
  destruct (fan_out_outcome env self order question section σ)
    as (writes & σ1 & ev1 & Hfan & _ & Hf & _).
  rewrite Hfan in Hrun. cbn [final emitted] in Hrun.
  exists σ1, ev1.
  unfold report_question. unfold dbind at 1. unfold dtry. unfold dbind at 1.
  unfold lift. rewrite Hrun.
  unfold dbind, append_file, dmodify. cbv beta iota.
  pose proof (extends_append_file md_file
                (question_block section_title i question (refused_answer env)) d) as Hext.
  assert (∀ d0, set_files
            (<[md_file := content
                 (set_files
                    (<[md_file := content d0 md_file +:+
                         "## " +:+ section_title +:+ nl +:+ nl +:+
                         "### Question " +:+ str_of_nat (i + 1) +:+ nl +:+ nl +:+
                         "**Question:** " +:+ question +:+ nl +:+ nl +:+
                         "**Answer:**" +:+ nl +:+ nl +:+
                         "Error generating content: " +:+
                         ("Error in analysis: " +:+ invalid_update env "messages") +:+
                         nl +:+ nl]>
                       (files d0)) d0) md_file +:+ "---" +:+ nl +:+ nl +:+ nl +:+ nl]>
               (files
                  (set_files
                     (<[md_file := content d0 md_file +:+
                          "## " +:+ section_title +:+ nl +:+ nl +:+
                          "### Question " +:+ str_of_nat (i + 1) +:+ nl +:+ nl +:+
                          "**Question:** " +:+ question +:+ nl +:+ nl +:+
                          "**Answer:**" +:+ nl +:+ nl +:+
                          "Error generating content: " +:+
                          ("Error in analysis: " +:+ invalid_update env "messages") +:+
                          nl +:+ nl]>
                        (files d0)) d0)))
            (set_files
               (<[md_file := content d0 md_file +:+
                    "## " +:+ section_title +:+ nl +:+ nl +:+
                    "### Question " +:+ str_of_nat (i + 1) +:+ nl +:+ nl +:+
                    "**Question:** " +:+ question +:+ nl +:+ nl +:+
                    "**Answer:**" +:+ nl +:+ nl +:+
                    "Error generating content: " +:+
                    ("Error in analysis: " +:+ invalid_update env "messages") +:+
                    nl +:+ nl]>
                  (files d0)) d0) =
          set_files
            (<[md_file := content d0 md_file +:+
                 question_block section_title i question (refused_answer env)]> (files d0)) d0)
    as Hfold.
  { intros [fs ns rd sc]. unfold set_files, content, question_block, refused_answer.
    cbn [files naps readings section_content].
    rewrite lookup_insert_eq, insert_insert_eq. by rewrite !append_assoc. }
  cbn [fst snd prepend app returned final emitted].
  rewrite Hfold.
  assert (compiled ev1 = [] ∧ constructions ev1 = []) as [Hcomp Hcons].
  { by rewrite (compiled_nodes _ _ Hf), (constructions_nodes _ _ Hf). }
  destruct (i <? length questions - 1); unfold nap, dmodify, dret; cbv beta iota;
    cbn [fst snd prepend app returned final emitted];
    eexists; rewrite ?app_nil_r; (split; [reflexivity|]); (split; [|done]).
  - pose proof (extends_trans md_file _ "" [] [5] d _ _ Hext (extends_nap md_file 5 _))
      as Hext'.
    by rewrite append_nil_r in Hext'.
  - done.
Qed.

Lemma report_questions_outcome (md_file : path) (self : SupervisorAgent)
    (order : string → nat → list node) (section section_title : string)
    (questions : list string) :
  (∀ s i, 2 ≤ length (order s i)) →
  ∀ (todo : list string) (i : nat) (d : Desk) (σ : State),
    i + length todo = length questions →
    ∃ σ' evs d',
      report_questions env str md_file self order section section_title i todo questions
        d σ = (mkOutcome (Ok tt) σ' evs, d') ∧
      extends md_file (questions_text section_title i (refused env todo))
        (replicate (length todo - 1) 5) d d' ∧
      compiled evs = [] ∧ constructions evs = [].
Proof.
  intros Horder.
  induction todo as [|question todo IH]; intros i d σ Hlen.
  - exists σ, [], d. split; [done|]. split; [apply extends_refl|done].
  - destruct (report_question_outcome md_file self (order section i) section section_title
                i question questions d σ (Horder section i))
      as (σ1 & ev1 & d1 & Hrun & Hext & Hc & Hb).
    destruct (IH (S i) d1 σ1) as (σ2 & ev2 & d2 & Hrest & Hext2 & Hc2 & Hb2).
    { simpl in Hlen. lia. }
    exists σ2, (ev1 ++ ev2), d2.
    split; [|split; [|split]].
    + simpl. unfold dbind. by rewrite Hrun, Hrest.
    + pose proof (extends_trans md_file _ _ _ _ d d1 d2 Hext Hext2) as Hall.
      simpl in Hlen. simpl.
      destruct (i <? length questions - 1) eqn:Hi.
      * apply Nat.ltb_lt in Hi. destruct todo as [|q' todo]; simpl in *; [lia|].
        by rewrite Nat.sub_0_r in *.
      * apply Nat.ltb_ge in Hi. destruct todo as [|q' todo]; simpl in *; [done|lia].
    + by rewrite compiled_app, Hc, Hc2.
    + by rewrite constructions_app, Hb, Hb2.
Qed.

Lemma report_sections_outcome (md_file : path) (self : SupervisorAgent)
    (order : string → nat → list node) (total_sections : nat) :
  (∀ s i, 2 ≤ length (order s i)) →
  ∀ (todo : dict (list string)) (processed_sections : nat) (d : Desk) (σ : State),
    ∃ σ' evs d',
      report_sections env str md_file self order total_sections processed_sections todo
        d σ = (mkOutcome (Ok tt) σ' evs, d') ∧
      extends md_file
        (sections_text ((λ row : string * list string, (row.1, refused env row.2)) <$> todo))
        (report_pauses total_sections processed_sections todo) d d' ∧
      compiled evs = [] ∧ constructions evs = [].
Proof.
  intros Horder.
  induction todo as [|[section questions] todo IH]; intros processed d σ.
  - exists σ, [], d. split; [done|]. split; [apply extends_refl|done].
  - destruct (report_questions_outcome md_file self order section
                (format_section_title section) questions Horder questions 0 d σ eq_refl)
      as (σ1 & ev1 & d1 & Hrun & Hext & Hc & Hb).
    destruct (IH (S processed)
                (if S processed <? total_sections then set_naps (naps d1 ++ [10]) d1 else d1)
                σ1)
      as (σ2 & ev2 & d2 & Hrest & Hext2 & Hc2 & Hb2).
    exists σ2, (ev1 ++ ev2), d2.
    split; [|split; [|split]].
    + simpl. unfold dbind at 1. rewrite Hrun. unfold dbind at 1.
      destruct (S processed <? total_sections); unfold nap, dmodify, dret; simpl;
        rewrite Hrest; simpl; by rewrite ?app_nil_r.
    + simpl.
      assert (extends md_file "" (if S processed <? total_sections then [10] else []) d1
                (if S processed <? total_sections
                 then set_naps (naps d1 ++ [10]) d1 else d1)) as Hpause.
      { destruct (S processed <? total_sections); [apply extends_nap | apply extends_refl]. }
      pose proof (extends_trans md_file _ _ _ _ _ _ _ Hext
                    (extends_trans md_file _ _ _ _ _ _ _ Hpause Hext2)) as Hall.
      done.
    + by rewrite compiled_app, Hc, Hc2.
    + by rewrite constructions_app, Hb, Hb2.
Qed.

End MarkdownReport.

(** X17. Without an API key [generate_markdown_report] leaves a report
    that is only a header.  The file is opened for writing before the key
    is looked at: when the key is missing or empty the function returns no
    file, builds no agent and asks nothing, and [report.md] holds the
    header with the time stamp and nothing of what it held before. *)
Theorem report_without_key_is_only_a_header (env : Env) (str : value → string)
    (timestamp : string) (api_key : option string) (order : string → nat → list node)
    (d : Desk) (σ : State) :
  api_key = None ∨ api_key = Some "" →
  generate_markdown_report env str timestamp api_key order d σ =
    (mkOutcome (Ok None) σ [],
     set_files
       (<[(project_root env +:+ "/reports", "report.md") := report_header timestamp]>
          (files d)) d).
Proof.
  intros [-> | ->]; unfold generate_markdown_report, dbind, write_file, dmodify, dret;
    simpl; done.
Qed.

Lemma report_without_key_is_only_a_header_witness :
  generate_markdown_report calm_env (λ _, "") "2025-01-01 00:00:00" None (λ _ _, all_nodes)
    (mkDesk {[ (project_root calm_env +:+ "/reports", "report.md") := "# Old report" ]} [] 0 "")
    initial_state =
    (mkOutcome (Ok None) initial_state [],
     set_files
       (<[(project_root calm_env +:+ "/reports", "report.md") :=
            report_header "2025-01-01 00:00:00"]>
          (files
             (mkDesk {[ (project_root calm_env +:+ "/reports", "report.md") := "# Old report" ]}
                [] 0 "")))
       (mkDesk {[ (project_root calm_env +:+ "/reports", "report.md") := "# Old report" ]}
          [] 0 "")).
Proof.
  apply (report_without_key_is_only_a_header calm_env (λ _, "") "2025-01-01 00:00:00" None
           (λ _ _, all_nodes)).
  left. reflexivity.
Defined.

(** X18. A run of [generate_markdown_report] with an API key.  When the
    creation of the supervisor raises, the function raises with it and
    the report is only the header.  Otherwise the function returns the
    path of the report, whatever the agents do, and the report holds no
    answer: every analysis fails at the join of the graph, so the file
    holds the header and then, for each of the seven sections in the
    order of [section_questions], the block of its question with the
    title of the section, the question and, as the answer, ["Error
    generating content: Error in analysis: "] with the message of the
    graph engine.  The compiler is never called and no agent is built
    after the supervisor's own; the driver pauses 10 seconds between
    consecutive sections, so six times, and never the 5 seconds between
    questions, as every section has one question. *)
Theorem markdown_report_holds_no_answer (env : Env) (str : value → string)
    (timestamp key : string) (order : string → nat → list node) (d : Desk) (σ : State) :
  key ≠ "" →
  (∀ section i, order section i ≡ₚ all_nodes) →
  let md_file := (project_root env +:+ "/reports", "report.md") in
  let o := generate_markdown_report env str timestamp (Some key) order d σ in
  match SupervisorAgent_init env None σ with
  | mkOutcome (Exn e) σ0 ev0 =>
      o = (mkOutcome (Exn e) σ0 ev0,
           set_files (<[md_file := report_header timestamp]> (files d)) d)
  | mkOutcome (Ok self) σ0 ev0 =>
      ∃ σ' evs d',
        o = (mkOutcome (Ok (Some md_file)) σ' (ev0 ++ evs), d') ∧
        files d' !! md_file =
          Some (report_header timestamp +:+
                sections_text
                  ((λ row : string * list string, (row.1, refused env row.2)) <$>
                     section_questions)) ∧
        (∀ p, p ≠ md_file → files d' !! p = files d !! p) ∧
        naps d' = naps d ++ replicate 6 10 ∧
        compiled evs = [] ∧
        constructions evs = []
  end.
Proof.
  intros Hkey Hperm md_file o. subst o.
  assert (∀ s i, 2 ≤ length (order s i)) as Horder.
  { intros s i. rewrite (Permutation_length (Hperm s i)). simpl. lia. }
  apply String.eqb_neq in Hkey.
  destruct (SupervisorAgent_init env None σ) as [[self|e] σ0 ev0] eqn:Hinit.
  - destruct (report_sections_outcome env str md_file self order (length section_questions)
                Horder section_questions 0
                (set_files (<[md_file := report_header timestamp]> (files d)) d) σ0)
      as (σ1 & ev1 & d1 & Hrun & Hext & Hc & Hb).
    exists σ1, ev1, d1.
    split.
    { unfold generate_markdown_report. rewrite Hkey. cbn [negb].
      unfold dbind, write_file, dmodify, lift, dret. rewrite Hinit.
      fold md_file. fold (report_header timestamp). cbv beta iota.
      fold md_file. unfold path in *. rewrite Hrun. cbn [prepend app]. by rewrite !app_nil_r. }
    destruct Hext as (Hcont & Hother & Hnaps).
    destruct d as [fs ns rd sc]. unfold content, path in *. cbn [files naps set_files] in *.
    rewrite lookup_insert_eq in Hcont.
    split; [|split; [|split; [|done]]].
    + match type of Hcont with
      | match ?X with Some _ => _ | None => _ end = _ =>
          destruct X as [text|] eqn:Hfile
      end.
      * first [by rewrite <- Hcont | rewrite <- Hcont; exact Hfile].
      * exfalso. revert Hcont. unfold report_header. by vm_compute.
    + intros p Hp. rewrite Hother by done. by rewrite lookup_insert_ne.
    + done.
  - unfold generate_markdown_report. rewrite Hkey. cbn [negb].
    unfold dbind, write_file, dmodify, lift. by rewrite Hinit.
Qed.

Lemma markdown_report_holds_no_answer_witness :
  match SupervisorAgent_init calm_env None initial_state with
  | mkOutcome (Exn e) σ0 ev0 =>
      generate_markdown_report calm_env (λ _, "") "2025-01-01 00:00:00" (Some "gsk")
        (λ _ _, all_nodes) (mkDesk ∅ [] 0 "") initial_state =
        (mkOutcome (Exn e) σ0 ev0,
         set_files
           (<[(project_root calm_env +:+ "/reports", "report.md") :=
                report_header "2025-01-01 00:00:00"]> (files (mkDesk ∅ [] 0 "")))
           (mkDesk ∅ [] 0 ""))
  | mkOutcome (Ok self) σ0 ev0 =>
      ∃ σ' evs d',
        generate_markdown_report calm_env (λ _, "") "2025-01-01 00:00:00" (Some "gsk")
          (λ _ _, all_nodes) (mkDesk ∅ [] 0 "") initial_state =
          (mkOutcome (Ok (Some (project_root calm_env +:+ "/reports", "report.md"))) σ'
             (ev0 ++ evs), d') ∧
        files d' !! (project_root calm_env +:+ "/reports", "report.md") =
          Some (report_header "2025-01-01 00:00:00" +:+
                sections_text
                  ((λ row : string * list string, (row.1, refused calm_env row.2)) <$>
                     section_questions)) ∧
        (∀ p, p ≠ (project_root calm_env +:+ "/reports", "report.md") →
              files d' !! p = files (mkDesk ∅ [] 0 "") !! p) ∧
        naps d' = naps (mkDesk ∅ [] 0 "") ++ replicate 6 10 ∧
        compiled evs = [] ∧
        constructions evs = []
  end.
Proof.
  apply (markdown_report_holds_no_answer calm_env (λ _, "") "2025-01-01 00:00:00" "gsk"
           (λ _ _, all_nodes) (mkDesk ∅ [] 0 "") initial_state).
  - discriminate.
  - reflexivity.
Defined.

(** ** The analyses of the ROI agent *)

Section RoiDriverFacts.
Context (env : Env) (tools_dict : string → option (M value)).

Lemma set_naps_set_naps (n m : list nat) (d : Desk) :
  set_naps n (set_naps m d) = set_naps n d.
Proof. by destruct d. Qed.

Lemma set_naps_same (d : Desk) : set_naps (naps d ++ []) d = d.
Proof. destruct d. unfold set_naps. simpl. by rewrite app_nil_r. Qed.

Lemma direct_analyses_outcome (quick_mode : bool) (analyses : list string) :
  ∀ (todo : list string) (i : nat) (d : Desk) (σ : State),
    i + length todo = length analyses →
    ∃ σ' evs pauses,
      direct_analyses tools_dict quick_mode i todo analyses d σ =
        (mkOutcome (Ok tt) σ' evs, set_naps (naps d ++ pauses) d) ∧
      length todo - 1 ≤ length pauses ≤ length todo ∧
      Forall (λ p, p = (if quick_mode then 2 else 5) ∨ p = (if quick_mode then 5 else 10))
        pauses.
Proof.
  induction todo as [|analysis_func todo IH]; intros i d σ Hlen.
  - exists σ, [], []. simpl. rewrite set_naps_same. split; [done|]. split; [lia|constructor].
  - simpl in Hlen.
    assert (∃ σ1 ev1 p1,
              dtry
                (dbind
                   match tools_dict analysis_func with
                   | Some tool => lift tool
                   | None => draise ("'" +:+ analysis_func +:+ "'")
                   end
                   (λ _, if i <? length analyses - 1
                         then nap (if quick_mode then 2 else 5) else dret tt))
                (λ _, nap (if quick_mode then 5 else 10)) d σ =
                (mkOutcome (Ok tt) σ1 ev1, set_naps (naps d ++ p1) d) ∧
              length p1 ≤ 1 ∧ (todo ≠ [] → length p1 = 1) ∧
              Forall (λ p, p = (if quick_mode then 2 else 5) ∨
                           p = (if quick_mode then 5 else 10)) p1)
      as (σ1 & ev1 & p1 & Hstep & Hp1 & Hp1' & Hf1).
    { unfold dtry, dbind.
      destruct (tools_dict analysis_func) as [tool|]; unfold lift, draise.
      - destruct (tool σ) as [[v|e] σ1 ev1].
        + destruct (i <? length analyses - 1) eqn:Hi; unfold nap, dmodify, dret; simpl.
          * eexists _, _, [_]. split; [done|]. split; [done|]. split; [done|].
            constructor; [by left|constructor].
          * apply Nat.ltb_ge in Hi. eexists _, _, []. rewrite set_naps_same.
            split; [done|]. split; [simpl; lia|]. split; [|constructor].
            intros Hne. destruct todo; [done|]. simpl in Hlen. lia.
        + unfold nap, dmodify. simpl. eexists _, _, [_]. split; [done|].
          split; [done|]. split; [done|]. constructor; [by right|constructor].
      - unfold nap, dmodify. simpl. eexists _, _, [_]. split; [done|].
        split; [done|]. split; [done|]. constructor; [by right|constructor]. }
    destruct (IH (S i) (set_naps (naps d ++ p1) d) σ1) as (σ2 & ev2 & p2 & Hrest & Hp2 & Hf2);
      [lia|].
    exists σ2, (ev1 ++ ev2), (p1 ++ p2). split; [|split].
    + change (direct_analyses tools_dict quick_mode i (analysis_func :: todo) analyses d σ)
        with (dbind
                (dtry
                   (dbind
                      match tools_dict analysis_func with
                      | Some tool => lift tool
                      | None => draise ("'" +:+ analysis_func +:+ "'")
                      end
                      (λ _, if i <? length analyses - 1
                            then nap (if quick_mode then 2 else 5) else dret tt))
                   (λ _, nap (if quick_mode then 5 else 10)))
                (λ _, direct_analyses tools_dict quick_mode (S i) todo analyses) d σ).
      unfold dbind at 1. rewrite Hstep, Hrest. simpl.
      rewrite set_naps_set_naps. destruct d. unfold set_naps. simpl. by rewrite app_assoc.
    + rewrite length_app. simpl. destruct todo as [|a todo]; simpl in *; [lia|].
      specialize (Hp1' ltac:(done)). lia.
    + by apply Forall_app.
Qed.

Lemma agent_analyses_outcome (agent : nat) (quick_mode : bool) (analyses : list string) :
  ∀ (todo : list string) (i : nat) (d : Desk) (σ : State),
    i + length todo = length analyses →
    agent ∈ executors σ →
    ∃ σ' evs,
      agent_analyses env agent quick_mode i todo analyses d σ =
        (mkOutcome (Ok tt) σ' evs,
         set_naps (naps d ++ replicate (length todo - 1) (if quick_mode then 2 else 5)) d) ∧
      Forall (worker_event "roi_agent") evs ∧
      length todo ≤ length (invocations evs) ≤ 2 * length todo.
Proof.
  induction todo as [|analysis todo IH]; intros i d σ Hlen Hex.
  - exists σ, []. simpl. rewrite set_naps_same. split; [done|]. split; [constructor|simpl; lia].
  - simpl in Hlen.
    destruct (retry_loop_shape env "ROI" "roi_agent" 2 5 agent analysis 2 0 σ)
      as (k & v & Hk & Hrun & _); [lia | lia |].
    assert (ROIAgent_invoke env agent analysis σ =
            mkOutcome (Ok v) (set_tick (tick σ + k + 1) σ)
              (failed_attempts "roi_agent" agent 5 1 k ++ [EvInvoke "roi_agent" agent]))
      as Hinv.
    { rewrite ROIAgent_invoke_outcome, bool_decide_eq_true_2 by done. apply Hrun. }
    pose proof (emits_ROIAgent_invoke env agent analysis σ) as Hev.
    rewrite Hinv in Hev. simpl in Hev.
    destruct (IH (S i)
                (if i <? length analyses - 1
                 then set_naps (naps d ++ [if quick_mode then 2 else 5]) d else d)
                (set_tick (tick σ + k + 1) σ)) as (σ' & evs & Hrest & Hf & Hn);
      [lia | done |].
    eexists σ', (_ ++ evs). split; [|split].
    + simpl. unfold dbind at 1, dtry, dbind at 1, lift. rewrite Hinv. simpl.
      destruct (i <? length analyses - 1) eqn:Hi; unfold nap, dmodify, dret;
        simpl; rewrite ?app_nil_r; rewrite Hrest; simpl.
      * apply Nat.ltb_lt in Hi. f_equal. destruct d as [fs ns rd sc].
        unfold set_naps. simpl. f_equal. rewrite Nat.sub_0_r.
        destruct (length todo) as [|n] eqn:Hn'; [lia|].
        simpl. by rewrite Nat.sub_0_r, <- app_assoc.
      * apply Nat.ltb_ge in Hi. f_equal.
        destruct (length todo) as [|n] eqn:Hn'; [|lia].
        simpl. by rewrite !app_nil_r.
    + by apply Forall_app.
    + rewrite invocations_app, length_app, invocations_failed_attempts, length_replicate.
      simpl. lia.
Qed.

End RoiDriverFacts.

(** X19. [run_all_analyses] of the ROI agent never raises and always
    works through its three analyses.  With the delay [2] and the error
    delay [5] in quick mode, [5] and [10] otherwise: when the agent has
    its executor, [ROIAgent.invoke] turns every failure into a text, so
    the driver waits the delay after the first and after the second
    analysis and never the error delay.  When it has none, the three tools
    are called directly, a missing tool counting as a failure: the driver
    waits the delay after a tool that returned, except after the last, and
    the error delay after each tool that raised, so two or three times. *)
Theorem roi_run_all_waits_after_each_analysis (env : Env)
    (tools_dict : string → option (M value)) (agent : nat) (quick_mode : bool)
    (d : Desk) (σ : State) :
  ∃ σ' evs pauses,
    roi_run_all_analyses env tools_dict agent quick_mode d σ =
      (mkOutcome (Ok tt) σ' evs, set_naps (naps d ++ pauses) d) ∧
    2 ≤ length pauses ≤ 3 ∧
    Forall (λ p, p = (if quick_mode then 2 else 5) ∨ p = (if quick_mode then 5 else 10))
      pauses ∧
    (agent ∈ executors σ →
     pauses = replicate 2 (if quick_mode then 2 else 5) ∧
     Forall (worker_event "roi_agent") evs ∧
     3 ≤ length (invocations evs) ≤ 6).
Proof.
  unfold roi_run_all_analyses, dbind, lift, gets. cbv beta iota.
  case_bool_decide as Hex; cbn [negb].
  - destruct (agent_analyses_outcome env agent quick_mode roi_analyses roi_analyses 0 d σ
                eq_refl Hex) as (σ' & evs & Hrun & Hf & Hn).
    rewrite Hrun. cbn [prepend app].
    exists σ', evs, (replicate 2 (if quick_mode then 2 else 5)).
    split; [done|]. split; [simpl; lia|]. split.
    + repeat constructor.
    + intros _. split; [done|]. split; [done|]. simpl in Hn. lia.
  - destruct (direct_analyses_outcome tools_dict quick_mode roi_tools roi_tools 0 d σ eq_refl)
      as (σ' & evs & pauses & Hrun & Hlen & Hf).
    unfold run_all_analyses_direct. rewrite Hrun. cbn [prepend app].
    exists σ', evs, pauses. split; [done|]. split; [simpl in Hlen; lia|]. split; [done|].
    intros Hin. done.
Qed.

(** ** The creation of the supervisor *)

Section SupervisorCreation.
Context (env : Env).

Lemma SupervisorAgent_init_outcome (path : option string) (σ : State) :
  let o := SupervisorAgent_init env path σ in
  match returned o with
  | Ok self => constructions (emitted o) = known_agents
  | Exn e =>
      ∃ k role n,
        worker_agents !! k = Some role ∧
        world env n (CallConstruct role) = Exn e ∧
        constructions (emitted o) = take (S k) worker_agents ∧
        invocations (emitted o) = [] ∧ compiled (emitted o) = []
  end.
Proof.
  intros o. subst o.
  destruct (SupervisorAgent_init env path σ) as [r σ' evs] eqn:Hrun. simpl.
  revert Hrun. unfold SupervisorAgent_init, CompilerAgent_init.
  destruct (get_data_manager_first env σ path) as (dm & _ & _ & Hret).
  pose proof (emits_get_data_manager env path σ) as Hdm.
  unfold bind at 1.
  destruct (get_data_manager env path σ) as [[id|e] σ0 ev0]; simpl in Hdm, Hret; [|done].
  assert (constructions ev0 = [] ∧ invocations ev0 = [] ∧ compiled ev0 = [])
    as (Hc0 & Hi0 & Hm0).
  { clear Hret. induction Hdm as [|ev evs' [p ->] _ IH]; [done|].
    destruct IH as (? & ? & ?). done. }
  do 6 (unfold bind at 1; rewrite construct_outcome;
        match goal with |- context [world env ?n (CallConstruct ?r)] =>
          destruct (world env n (CallConstruct r)) as [?|e] eqn:?
        end; simpl;
        [| intros [= <- _ <-];
           rewrite ?constructions_app, ?invocations_app, ?compiled_app, ?Hc0, ?Hi0, ?Hm0;
           simpl;
           first [ by eexists 0, _, _ | by eexists 1, _, _ | by eexists 2, _, _
                 | by eexists 3, _, _ | by eexists 4, _, _ | by eexists 5, _, _ ] ]).
  mred. intros [= <- _ <-]. rewrite constructions_app, Hc0. done.
Qed.

End SupervisorCreation.

(** X20. The supervisor is created whole or not at all.  When
    [SupervisorAgent.__init__] returns, it has built the six workers and
    the compiler, in this order.  When it raises, it does so with the
    exception of the first factory that failed, having started exactly
    the workers up to that one, and nothing has been asked of any agent;
    [main] of report_generator.py then raises the same exception and
    analyses nothing, even when its section needs none of the workers
    that failed. *)
Theorem supervisor_is_created_whole_or_not_at_all (env : Env) (order : list node)
    (σ : State) :
  let o := SupervisorAgent_init env None σ in
  match returned o with
  | Ok self => constructions (emitted o) = known_agents
  | Exn e =>
      (∃ k role n,
         worker_agents !! k = Some role ∧
         world env n (CallConstruct role) = Exn e ∧
         constructions (emitted o) = take (S k) worker_agents) ∧
      returned (main env order σ) = Exn e ∧
      emitted (main env order σ) = emitted o ∧
      invocations (emitted (main env order σ)) = [] ∧
      compiled (emitted (main env order σ)) = []
  end.
Proof.
  intros o. pose proof (SupervisorAgent_init_outcome env None σ) as Hinit.
  fold o in Hinit. unfold main, bind. fold o.
  destruct o as [[self|e] σ0 ev0]; simpl in *; [done|].
  destruct Hinit as (k & role & n & Hk & Hw & Hc & Hi & Hm).
  split; [by exists k, role, n|]. done.
Qed.

(** ** A failed load *)

Section FailedLoad.
Context (env : Env).

(** The loop over the files of a directory stops at the first file that
    cannot be read, with the tables of the files before it. *)
Lemma load_tables_stops (file : string) (rest : list value) (e : string) :
  ∀ (csv_files : list string) (frames : list value) (σ : State) (dm : DataManager)
    (tables : dict value),
    _instance σ = Some dm → dataframes dm = VDict tables →
    length csv_files = length frames →
    (∀ i f df, csv_files !! i = Some f → frames !! i = Some df →
               world env (tick σ + i) (CallReadCsv f) = Ok df) →
    world env (tick σ + length csv_files) (CallReadCsv file) = Exn e →
    load_tables env ((VStr <$> csv_files) ++ VStr file :: rest) σ =
      mkOutcome (Exn e)
        (loaded σ dm (stored_tables tables csv_files frames) (S (length csv_files))) [].
Proof.
  induction csv_files as [|f csv_files IH]; intros frames σ dm tables Hi Hd Hlen Hread Hfail.
  - destruct frames; [|done]. simpl in *. unfold bind. rewrite ext_outcome.
    rewrite Nat.add_0_r in Hfail. rewrite Hfail. f_equal.
    unfold loaded, set_tick. simpl. destruct σ, dm; simpl in *; subst. f_equal. lia.
  - destruct frames as [|df frames]; [done|]. simpl in Hlen. injection Hlen as Hlen.
    simpl. unfold bind at 1. rewrite ext_outcome.
    rewrite <- (Nat.add_0_r (tick σ)) at 1. rewrite (Hread 0 f df) by done.
    unfold bind at 1.
    rewrite (store_table_outcome _ df (set_tick (S (tick σ)) σ) dm tables) by done.
    cbn [prepend app]. rewrite !prepend_nil.
    change (list_fmap string value VStr csv_files) with (VStr <$> csv_files).
    rewrite (IH frames
               (loaded (set_tick (S (tick σ)) σ) dm (dict_set (table_name f) df tables) 0)
               (mkDataManager (dm_id dm) (data_path dm)
                  (VDict (dict_set (table_name f) df tables)) (_initialized dm))
               (dict_set (table_name f) df tables) eq_refl eq_refl Hlen).
    + simpl. f_equal. unfold loaded. simpl. f_equal. lia.
    + intros i f' df' Hf Hdf. simpl.
      replace (S (tick σ + 0 + i)) with (tick σ + S i) by lia. by apply Hread.
    + simpl. replace (S (tick σ + 0 + length csv_files))
        with (tick σ + S (length csv_files)) by lia. done.
Qed.

(** A load that fails, by the way it fails. *)
Lemma load_data_fails (σ : State) (dm : DataManager) (path : string) (tables : dict value) :
  _instance σ = Some dm → data_path dm = Some path → dataframes dm = VDict [] →
  failed_load env path (tick σ) tables →
  ∃ k, _load_data env σ = mkOutcome (Ok tt) (loaded σ dm tables k) [EvLoad (Some path)].
Proof.
  intros Hi Hp Hd Hfail. unfold _load_data. unfold bind at 1. unfold gets. cbv beta iota.
  rewrite Hi. unfold bind at 1, log. cbv beta iota. unfold try_catch, bind at 1.
  rewrite ext_outcome, prepend_nil, Hp.
  destruct Hfail as [e Hlist | listing e Hlist Hnot Hread
                    | csv_files frames file rest e Hlen Hlist Hread Hbad].
  - rewrite Hlist. simpl. exists 1. f_equal. unfold loaded, set_tick. simpl.
    destruct σ, dm; simpl in *; subst. f_equal. lia.
  - rewrite Hlist. cbv beta iota.
    assert (prepend []
              ((let* df := ext env (CallReadMaster (Some path)) in store_table "master" df)
                 (set_tick (S (tick σ)) σ)) =
            mkOutcome (Exn e) (set_tick (S (S (tick σ))) σ) []) as Hmaster.
    { unfold bind. rewrite ext_outcome. simpl. by rewrite Hread. }
    destruct listing as [|s|csv_files|kvs]; [| |by destruct (Hnot csv_files)|];
      rewrite Hmaster; simpl; exists 2; f_equal; unfold loaded, set_tick; simpl;
      destruct σ, dm; simpl in *; subst; f_equal; lia.
  - rewrite Hlist. cbv beta iota.
    rewrite (load_tables_stops file rest e csv_files frames (set_tick (S (tick σ)) σ) dm []
               Hi Hd Hlen Hread Hbad).
    simpl. exists (S (S (length csv_files))). f_equal. unfold loaded. simpl. f_equal. lia.
Qed.

Lemma DataManager_init_fails (path : string) (σ : State) (dm : DataManager)
    (tables : dict value) :
  _instance σ = Some dm → _initialized dm = false →
  failed_load env path (tick σ) tables →
  ∃ k,
    DataManager_init env (Some path) σ =
      mkOutcome (Ok tt)
        (mkState (tick σ + k) (next_id σ)
           (Some (mkDataManager (dm_id dm) (Some path) (VDict tables) true))
           (_agents σ) (executors σ))
        [EvLoad (Some path)].
Proof.
  intros Hi Hinit Hfail. unfold DataManager_init, update_instance.
  unfold bind at 1. unfold gets. cbv beta iota. rewrite Hi, Hinit, prepend_nil.
  unfold bind at 1. unfold modify at 1. cbv beta iota. rewrite prepend_nil.
  unfold bind at 1.
  destruct (load_data_fails
              (set_instance (Some (mkDataManager (dm_id dm) (Some path) (VDict []) false)) σ)
              (mkDataManager (dm_id dm) (Some path) (VDict []) false) path tables
              eq_refl eq_refl eq_refl Hfail)
    as (k & Hload).
  rewrite Hi. cbn [fmap option_fmap option_map]. rewrite Hinit, Hload.
  unfold modify. simpl. by exists k.
Qed.

End FailedLoad.

(** X21. A load that fails is never tried again, and what it had read
    stays.  When no data manager exists and the load fails, in any of its
    ways, [get_data_manager] still returns a data manager, marked as
    initialised, with the tables that were stored before the failure:
    none when the test of the path or the reading of a single file
    raises, and for a directory the tables of the files read before the
    one that raises.  Every later call, with whatever path, returns this
    object without loading, so the schema that the SQL agent is given
    stays that of these tables. *)
Theorem failed_load_is_never_retried (env : Env) (σ : State) (p1 p2 : option string)
    (tables : dict value) :
  _instance σ = None →
  failed_load env (match p1 with None => default_data_path env | Some p => p end) (tick σ)
    tables →
  let first := get_data_manager env p1 σ in
  let second := get_data_manager env p2 (final first) in
  ∃ dm,
    returned first = Ok (dm_id dm) ∧
    emitted first =
      [EvLoad (Some (match p1 with None => default_data_path env | Some p => p end))] ∧
    _instance (final first) = Some dm ∧
    _initialized dm = true ∧ dataframes dm = VDict tables ∧
    second = mkOutcome (Ok (dm_id dm)) (final first) [] ∧
    returned (get_schema_info env (final second)) = Ok (schema_of env (VDict tables)).
Proof.
  intros Hnone Hload first second. subst second first.
  set (path1 := match p1 with None => default_data_path env | Some p => p end) in *.
  destruct (DataManager_init_fails env path1
              (set_instance (Some (mkDataManager (next_id σ) None (VDict []) false))
                 (set_next_id (S (next_id σ)) σ))
              (mkDataManager (next_id σ) None (VDict []) false) tables
              eq_refl eq_refl Hload) as [k Hrun].
  assert (get_data_manager env p1 σ =
          mkOutcome (Ok (next_id σ))
            (mkState (tick σ + k) (S (next_id σ))
               (Some (mkDataManager (next_id σ) (Some path1) (VDict tables) true))
               (_agents σ) (executors σ))
            [EvLoad (Some path1)]) as Hfirst.
  { destruct (get_data_manager env p1 σ) as [r σ' evs] eqn:Hgm.
    unfold get_data_manager, DataManager_call, DataManager_new, bind, gets, fresh, modify,
      ret in Hgm.
    fold path1 in Hgm.
    rewrite Hnone in Hgm. cbn [prepend app] in Hgm. rewrite Hrun in Hgm.
    simpl in Hgm. by injection Hgm as <- <- <-. }
  rewrite Hfirst. simpl.
  exists (mkDataManager (next_id σ) (Some path1) (VDict tables) true).
  split; [done|]. split; [done|]. split; [done|]. split; [done|]. split; [done|].
  rewrite (get_data_manager_initialised env _ p2
             (mkDataManager (next_id σ) (Some path1) (VDict tables) true)) by done.
  simpl. split; [done|]. unfold get_schema_info. by mred.
Qed.

Lemma failed_load_is_never_retried_witness :
  let env := mkEnv (λ _ c, match c with
                           | CallListCsv _ =>
                               Ok (VList [VStr "/srv/report/data/orders.csv";
                                          VStr "/srv/report/data/broken.csv";
                                          VStr "/srv/report/data/products.csv"])
                           | CallReadCsv "/srv/report/data/broken.csv" =>
                               Exn "Error tokenizing data"
                           | _ => fine c
                           end)
               (λ _, "Available Data Tables:") "/srv/report" one_value_per_step in
  let first := get_data_manager env None initial_state in
  let second := get_data_manager env (Some "/data/new") (final first) in
  ∃ dm,
    returned first = Ok (dm_id dm) ∧
    emitted first = [EvLoad (Some (default_data_path env))] ∧
    _instance (final first) = Some dm ∧
    _initialized dm = true ∧
    dataframes dm = VDict [("orders", VStr "<DataFrame>")] ∧
    second = mkOutcome (Ok (dm_id dm)) (final first) [] ∧
    returned (get_schema_info env (final second)) =
      Ok (schema_of env (VDict [("orders", VStr "<DataFrame>")])).
Proof.
  intros env.
  apply (failed_load_is_never_retried env initial_state None (Some "/data/new")
           (stored_tables [] ["/srv/report/data/orders.csv"] [VStr "<DataFrame>"])).
  - reflexivity.
  - apply (table_fails env _ _ ["/srv/report/data/orders.csv"] [VStr "<DataFrame>"]
             "/srv/report/data/broken.csv" [VStr "/srv/report/data/products.csv"]
             "Error tokenizing data").
    + reflexivity.
    + reflexivity.
    + intros [|i] f df Hf Hdf; [|done]. injection Hf as <-. injection Hdf as <-. reflexivity.
    + reflexivity.
Defined.
